(** * replicate-netlify: the job-details extraction function

    A shallow embedding of the Netlify function
    [netlify/functions/extract-job-details.js] and of the second revision of
    the same function that returns a fallback record instead of throwing,
    with the handlers of the three other revisions: the one that reads JSON
    bodies only, the one that hands multipart bodies to busboy, and the one
    that goes with the fallback record.

    JavaScript strings are sequences of UTF-16 code units, modelled as lists
    of [N].  The built-ins the handler relies on ([String.prototype.trim],
    [includes], [split], [startsWith], the regular expressions,
    [JSON.parse], [URLSearchParams]) are modelled after ECMA-262 / ECMA-404 /
    the WHATWG URL standard.  The hosted model ([replicate.run]) is an oracle
    that gives the outcome of each call, and so is busboy. *)

From Stdlib Require Import Ascii String DecimalString.
From Stdlib Require Import List NArith ZArith Lia Bool Arith.
Import ListNotations.

Set Warnings "-register-all".

(* [length], [concat] and [++] are those of lists throughout. *)
Local Abbreviation length := Datatypes.length.

(* ================================================================== *)
(** ** Strings *)

Module Str.

Definition char := N.
Definition str := list char.

(** An ASCII literal as a JavaScript string. *)
Definition lit (s : string) : str := map N_of_ascii (list_ascii_of_string s).
Arguments lit s%_string.

Definition ch (a : ascii) : char := N_of_ascii a.
Arguments ch a%_char.

Definition CR : char := 13%N.
Definition LF : char := 10%N.
(** The double quote, and a string between double quotes. *)
Definition DQ : char := 34%N.
Definition quoted (s : str) : str := DQ :: s ++ [DQ].

Fixpoint eqb (a b : str) : bool :=
  match a, b with
  | [], [] => true
  | x :: a', y :: b' => N.eqb x y && eqb a' b'
  | _, _ => false
  end.

(** WhiteSpace and LineTerminator of ECMA-262: what [trim] strips and what
    [\s] matches. *)
Definition is_ws (c : char) : bool :=
  existsb (N.eqb c)
    [9; 10; 11; 12; 13; 32; 160; 5760; 8232; 8233; 8239; 8287; 12288; 65279]%N
  || (N.leb 8192 c && N.leb c 8202).

Fixpoint trimStart (s : str) : str :=
  match s with
  | c :: s' => if is_ws c then trimStart s' else s
  | [] => []
  end.

Definition trimEnd (s : str) : str := rev (trimStart (rev s)).

(** [s.trim()] *)
Definition trim (s : str) : str := trimEnd (trimStart s).

(** [s.startsWith(p)] *)
Fixpoint startsWith (p s : str) : bool :=
  match p, s with
  | [], _ => true
  | x :: p', y :: s' => N.eqb x y && startsWith p' s'
  | _ :: _, [] => false
  end.

(** [s.includes(p)] *)
Fixpoint includes (p s : str) : bool :=
  startsWith p s ||
  match s with
  | [] => false
  | _ :: s' => includes p s'
  end.

(** [s.split(sep)] for a non-empty separator: [cur] holds, reversed, the
    code units of the piece being read. *)
Fixpoint split_from (sep : str) (skip : nat) (cur : str) (s : str) : list str :=
  match s with
  | [] => [rev cur]
  | c :: s' =>
      match skip with
      | S k => split_from sep k cur s'
      | O =>
          if startsWith sep s
          then rev cur :: split_from sep (length sep - 1) [] s'
          else split_from sep 0 (c :: cur) s'
      end
  end.

Definition split (sep s : str) : list str := split_from sep 0 [] s.

(** [parts.join("")] *)
Definition join (parts : list str) : str := concat parts.

(** [s.substring(0, n)] *)
Definition substring0 (n : nat) (s : str) : str := firstn n s.

(** [String(n)] for a natural number. *)
Definition of_nat (n : nat) : str := lit (NilZero.string_of_uint (Nat.to_uint n)).

(** The own property [k] of an object given by its members: the last
    member of that name. *)
Fixpoint lookup {A : Type} (k : str) (fields : list (str * A)) : option A :=
  match fields with
  | [] => None
  | (k', v) :: fs =>
      match lookup k fs with
      | Some v' => Some v'
      | None => if eqb k k' then Some v else None
      end
  end.

End Str.

Import Str.

(* ================================================================== *)
(** ** Regular expressions

    The constructs the four patterns of the program use, with the
    backtracking order of ECMA-262: a match state lists its successors in the
    order in which the engine tries them, so the head of the list is the match
    the engine reports. *)

Module Regex.

Inductive regex :=
| REps                                   (* the empty pattern *)
| RChar (c : char)                       (* a literal code unit *)
| ROptChar (c : char)                    (* c? *)
| RStar (greedy : bool) (p : char -> bool) (* [p]* and [p]*? over a class *)
| RSeq (r1 r2 : regex)
| RAlt (r1 r2 : regex)                   (* (?:r1|r2) *)
| RGroup (r : regex)                     (* (r), the capture group 1 *)
| RBegin                                 (* ^ *)
| REnd.                                  (* $ *)

Record mstate := MState {
  pos : nat;                (* index of the next code unit *)
  rest : str;               (* the input from [pos] on *)
  cap : option str          (* capture group 1 *)
}.

(** [\s] *)
Definition cls_space : char -> bool := is_ws.
(** [.] under the [s] flag *)
Definition cls_any : char -> bool := fun _ => true.

Fixpoint star_greedy (p : char -> bool) (i : nat) (c : option str) (s : str)
  : list mstate :=
  match s with
  | x :: s' =>
      if p x then star_greedy p (S i) c s' ++ [MState i s c]
      else [MState i s c]
  | [] => [MState i s c]
  end.

Fixpoint star_lazy (p : char -> bool) (i : nat) (c : option str) (s : str)
  : list mstate :=
  MState i s c ::
  match s with
  | x :: s' => if p x then star_lazy p (S i) c s' else []
  | [] => []
  end.

Fixpoint rmatch (r : regex) (st : mstate) : list mstate :=
  match r with
  | REps => [st]
  | RChar c =>
      match rest st with
      | x :: s' => if N.eqb x c then [MState (S (pos st)) s' (cap st)] else []
      | [] => []
      end
  | ROptChar c =>
      match rest st with
      | x :: s' =>
          if N.eqb x c then [MState (S (pos st)) s' (cap st); st] else [st]
      | [] => [st]
      end
  | RStar true p => star_greedy p (pos st) (cap st) (rest st)
  | RStar false p => star_lazy p (pos st) (cap st) (rest st)
  | RSeq r1 r2 => flat_map (rmatch r2) (rmatch r1 st)
  | RAlt r1 r2 => rmatch r1 st ++ rmatch r2 st
  | RGroup r1 =>
      map (fun st' =>
             MState (pos st') (rest st')
                    (Some (firstn (pos st' - pos st) (rest st))))
          (rmatch r1 st)
  | RBegin => if Nat.eqb (pos st) 0 then [st] else []
  | REnd => match rest st with [] => [st] | _ :: _ => [] end
  end.

(** A sequence of patterns, and a literal string. *)
Fixpoint RSeqs (rs : list regex) : regex :=
  match rs with
  | [] => REps
  | [r] => r
  | r :: rs' => RSeq r (RSeqs rs')
  end.

Definition RLit (s : str) : regex := RSeqs (map RChar s).

(** The engine tries the start positions from left to right: the result is
    the start index and the final state of the first match. *)
Fixpoint rsearch (r : regex) (i : nat) (s : str) : option (nat * mstate) :=
  match rmatch r (MState i s None) with
  | st :: _ => Some (i, st)
  | [] =>
      match s with
      | [] => None
      | _ :: s' => rsearch r (S i) s'
      end
  end.

(** [s.match(r)[1]] for a pattern without the [g] flag whose group always
    takes part in a match; [None] is the [null] of a failed match. *)
Definition match_group1 (r : regex) (s : str) : option str :=
  match rsearch r 0 s with
  | Some (_, st) =>
      match cap st with
      | Some c => Some c
      | None => Some []
      end
  | None => None
  end.

(** [s.replace(r, '')] for a pattern without the [g] flag. *)
Definition replace_empty (r : regex) (s : str) : str :=
  match rsearch r 0 s with
  | Some (i, st) => firstn i s ++ rest st
  | None => s
  end.

End Regex.

Import Regex.

(* ================================================================== *)
(** ** JavaScript values *)

Module Js.

(** A number is kept as the decimal its text denotes,
    [(-1)^neg * m * 10^e]: the program only tests numbers for truthiness. *)
Inductive value :=
| VUndefined
| VNull
| VBool (b : bool)
| VNumber (neg : bool) (m : N) (e : Z)
| VString (s : str)
| VArray (xs : list value)
| VObject (fields : list (str * value)).

Inductive exn :=
| TypeError
| SyntaxError
| Error (message : str).

Inductive result (A : Type) :=
| Ok (a : A)
| Throw (e : exn).
Arguments Ok {A} a.
Arguments Throw {A} e.

(** The Number value of the decimal is [+0] or [-0]: the mantissa is zero,
    or the decimal is at most half the least subnormal double, [2^-1075],
    and rounds to zero. *)
Definition number_is_zero (m : N) (e : Z) : bool :=
  N.eqb m 0
  || (Z.ltb e 0 && Z.leb (Z.of_N m * 2 ^ 1075) (10 ^ (- e))).

(** ToBoolean *)
Definition truthy (v : value) : bool :=
  match v with
  | VUndefined | VNull => false
  | VBool b => b
  | VNumber _ m e => negb (number_is_zero m e)
  | VString s => match s with [] => false | _ :: _ => true end
  | VArray _ | VObject _ => true
  end.

(** [a || b] *)
Definition or_else (a b : value) : value := if truthy a then a else b.

(** [v.k] for the property names the program reads, none of which is
    inherited or defined on strings, arrays, numbers or booleans. *)
Definition get (v : value) (k : str) : result value :=
  match v with
  | VUndefined | VNull => Throw TypeError
  | VObject fields =>
      match lookup k fields with
      | Some x => Ok x
      | None => Ok VUndefined
      end
  | _ => Ok VUndefined
  end.

(** [v === null] *)
Definition is_null (v : value) : bool :=
  match v with VNull => true | _ => false end.

(** [typeof v === 'string'] *)
Definition is_string (v : value) : bool :=
  match v with VString _ => true | _ => false end.

(** [list.includes(v)] for an array of string literals. *)
Definition includes_value (list : list str) (v : value) : bool :=
  match v with
  | VString s => existsb (Str.eqb s) list
  | _ => false
  end.

(** [ToString(v)] completes normally, for the values [JSON.parse] builds
    and for strings.  An object is converted by the first of its [toString]
    and [valueOf] methods that is callable and gives a primitive: without an
    own member [toString] that is [Object.prototype.toString]; an own member
    [toString] is no function and shadows it, and [valueOf], own or
    inherited, gives no primitive either, so the conversion throws a
    [TypeError].  An array is joined: each element that is neither [null]
    nor [undefined] is converted in turn. *)
Fixpoint stringifies (v : value) : bool :=
  match v with
  | VArray xs => forallb stringifies xs
  | VObject fields =>
      match lookup (lit "toString") fields with
      | Some _ => false
      | None => true
      end
  | _ => true
  end.

Definition bind {A B} (r : result A) (k : A -> result B) : result B :=
  match r with
  | Ok a => k a
  | Throw e => Throw e
  end.

End Js.

Import Js.

Notation "'do' x <- r ; k" := (Js.bind r (fun x => k))
  (at level 10, x name, r at level 100, k at level 200).

(* ================================================================== *)
(** ** JSON.parse

    The grammar of ECMA-404, read by recursive descent.  The fuel bounds the
    nesting and the number of members; [JSON_parse] gives enough of it for
    every text (see [parse_value_fuel]). *)

Module Json.

Inductive pres (A : Type) :=
| POk (a : A) (rest : str)
| PErr
| PFuel.
Arguments POk {A} a rest.
Arguments PErr {A}.
Arguments PFuel {A}.

Definition is_json_ws (c : char) : bool :=
  N.eqb c 32 || N.eqb c 9 || N.eqb c 10 || N.eqb c 13.

Fixpoint skip_ws (s : str) : str :=
  match s with
  | c :: s' => if is_json_ws c then skip_ws s' else s
  | [] => []
  end.

Definition is_digit (c : char) : bool := N.leb 48 c && N.leb c 57.

Definition hex_digit (c : char) : option N :=
  if N.leb 48 c && N.leb c 57 then Some (c - 48)%N
  else if N.leb 65 c && N.leb c 70 then Some (c - 55)%N
  else if N.leb 97 c && N.leb c 102 then Some (c - 87)%N
  else None.

Definition hex4 (h1 h2 h3 h4 : char) : option char :=
  match hex_digit h1, hex_digit h2, hex_digit h3, hex_digit h4 with
  | Some a, Some b, Some c, Some d => Some (a * 4096 + b * 256 + c * 16 + d)%N
  | _, _, _, _ => None
  end.

(** The character a two-character escape stands for. *)
Definition simple_escape (e : char) : option char :=
  if N.eqb e DQ then Some DQ
  else if N.eqb e (ch "\") then Some (ch "\")
  else if N.eqb e (ch "/") then Some (ch "/")
  else if N.eqb e (ch "b") then Some 8%N
  else if N.eqb e (ch "f") then Some 12%N
  else if N.eqb e (ch "n") then Some 10%N
  else if N.eqb e (ch "r") then Some 13%N
  else if N.eqb e (ch "t") then Some 9%N
  else None.

Definition cons_ok (x : char) (r : pres str) : pres str :=
  match r with
  | POk t rest => POk (x :: t) rest
  | PErr => PErr
  | PFuel => PFuel
  end.

(** The characters of a string after its opening quote. *)
Fixpoint parse_string (s : str) : pres str :=
  match s with
  | [] => PErr
  | c :: s' =>
      if N.eqb c DQ then POk [] s'
      else if N.ltb c 32 then PErr
      else if N.eqb c (ch "\") then
        match s' with
        | [] => PErr
        | e :: s'' =>
            if N.eqb e (ch "u") then
              match s'' with
              | h1 :: h2 :: h3 :: h4 :: s4 =>
                  match hex4 h1 h2 h3 h4 with
                  | Some x => cons_ok x (parse_string s4)
                  | None => PErr
                  end
              | _ => PErr
              end
            else
              match simple_escape e with
              | Some x => cons_ok x (parse_string s'')
              | None => PErr
              end
        end
      else cons_ok c (parse_string s')
  end.

(** A run of digits read as a decimal numeral continuing [acc]; the number
    of digits read. *)
Fixpoint digits (acc : N) (n : nat) (s : str) : N * nat * str :=
  match s with
  | c :: s' =>
      if is_digit c then digits (acc * 10 + (c - 48))%N (S n) s'
      else (acc, n, s)
  | [] => (acc, n, s)
  end.

(** An optional minus sign. *)
Definition read_sign (s : str) : bool * str :=
  match s with
  | c :: s' => if N.eqb c (ch "-") then (true, s') else (false, s)
  | [] => (false, s)
  end.

(** An integer part: [0], or digits that do not start with [0]. *)
Definition read_int (s : str) : option (N * str) :=
  match s with
  | c :: s' =>
      if N.eqb c (ch "0") then Some (0%N, s')
      else if is_digit c then
        let '(m, _, r) := digits 0 0 s in Some (m, r)
      else None
  | [] => None
  end.

(** An optional fraction continuing the mantissa [m]: a point and at least
    one digit; the number of its digits. *)
Definition read_frac (m : N) (s : str) : option (N * nat * str) :=
  match s with
  | c :: s' =>
      if N.eqb c (ch ".") then
        let '(m', n, r) := digits m 0 s' in
        match n with
        | O => None
        | S _ => Some (m', n, r)
        end
      else Some (m, O, s)
  | [] => Some (m, O, s)
  end.

(** An optional exponent: [e] or [E], an optional sign and at least one
    digit. *)
Definition read_exp (s : str) : option (Z * str) :=
  match s with
  | c :: s' =>
      if N.eqb c (ch "e") || N.eqb c (ch "E") then
        let (eneg, s4) :=
          match s' with
          | d :: s'' =>
              if N.eqb d (ch "-") then (true, s'')
              else if N.eqb d (ch "+") then (false, s'')
              else (false, s')
          | [] => (false, s')
          end in
        let '(x, n, r) := digits 0 0 s4 in
        match n with
        | O => None
        | S _ => Some ((if eneg then - Z.of_N x else Z.of_N x)%Z, r)
        end
      else Some (0%Z, s)
  | [] => Some (0%Z, s)
  end.

Definition parse_number (s : str) : pres value :=
  let (neg, s1) := read_sign s in
  match read_int s1 with
  | None => PErr
  | Some (m, s2) =>
      match read_frac m s2 with
      | None => PErr
      | Some (m', nfrac, s3) =>
          match read_exp s3 with
          | None => PErr
          | Some (x, s5) => POk (VNumber neg m' (x - Z.of_nat nfrac)) s5
          end
      end
  end.

(** A value, given the readers of the members of an object and of the
    elements of an array. *)
Definition value_step (members elements : str -> pres value) (s : str)
  : pres value :=
  match skip_ws s with
  | [] => PErr
  | c :: s' =>
      if N.eqb c (ch "{") then
        match skip_ws s' with
        | d :: s'' =>
            if N.eqb d (ch "}") then POk (VObject []) s''
            else members (skip_ws s')
        | [] => PErr
        end
      else if N.eqb c (ch "[") then
        match skip_ws s' with
        | d :: s'' =>
            if N.eqb d (ch "]") then POk (VArray []) s''
            else elements (skip_ws s')
        | [] => PErr
        end
      else if N.eqb c DQ then
        match parse_string s' with
        | POk t r => POk (VString t) r
        | PErr => PErr
        | PFuel => PFuel
        end
      else if N.eqb c (ch "-") || is_digit c then parse_number (c :: s')
      else if startsWith (lit "null") (c :: s') then POk VNull (skipn 4 (c :: s'))
      else if startsWith (lit "true") (c :: s') then POk (VBool true) (skipn 4 (c :: s'))
      else if startsWith (lit "false") (c :: s') then POk (VBool false) (skipn 5 (c :: s'))
      else PErr
  end.

(** The elements of an array from an element on: [acc] holds, reversed, the
    elements read so far. *)
Definition elements_step (element : str -> pres value)
    (more : str -> list value -> pres value) (s : str) (acc : list value)
  : pres value :=
  match element s with
  | POk v r =>
      match skip_ws r with
      | c :: r' =>
          if N.eqb c (ch ",") then more r' (v :: acc)
          else if N.eqb c (ch "]") then POk (VArray (rev (v :: acc))) r'
          else PErr
      | [] => PErr
      end
  | PErr => PErr
  | PFuel => PFuel
  end.

(** The members of an object from a member name on. *)
Definition members_step (element : str -> pres value)
    (more : str -> list (str * value) -> pres value)
    (s : str) (acc : list (str * value)) : pres value :=
  match skip_ws s with
  | q :: s1 =>
      if N.eqb q DQ then
        match parse_string s1 with
        | POk k s2 =>
            match skip_ws s2 with
            | c :: s3 =>
                if N.eqb c (ch ":") then
                  match element s3 with
                  | POk v r =>
                      match skip_ws r with
                      | d :: r' =>
                          if N.eqb d (ch ",") then more r' ((k, v) :: acc)
                          else if N.eqb d (ch "}")
                          then POk (VObject (rev ((k, v) :: acc))) r'
                          else PErr
                      | [] => PErr
                      end
                  | PErr => PErr
                  | PFuel => PFuel
                  end
                else PErr
            | [] => PErr
            end
        | PErr => PErr
        | PFuel => PFuel
        end
      else PErr
  | [] => PErr
  end.

Fixpoint parse_value (fuel : nat) (s : str) : pres value :=
  match fuel with
  | O => PFuel
  | S f =>
      value_step (fun s' => parse_members f s' [])
                 (fun s' => parse_elements f s' []) s
  end
with parse_elements (fuel : nat) (s : str) (acc : list value) : pres value :=
  match fuel with
  | O => PFuel
  | S f => elements_step (parse_value f) (parse_elements f) s acc
  end
with parse_members (fuel : nat) (s : str) (acc : list (str * value))
  : pres value :=
  match fuel with
  | O => PFuel
  | S f => members_step (parse_value f) (parse_members f) s acc
  end.

(** [JSON.parse(text)]: [None] is the SyntaxError it throws. *)
Definition JSON_parse (text : str) : option value :=
  match parse_value (2 * length text + 1) text with
  | POk v r =>
      match skip_ws r with
      | [] => Some v
      | _ :: _ => None
      end
  | PErr => None
  | PFuel => None
  end.

End Json.

Import Json.

(* ================================================================== *)
(** ** URLSearchParams

    [new URLSearchParams(init).get(name)] of the WHATWG URL standard: the
    string is UTF-8 encoded, split at [&] and at the first [=] of each piece,
    [+] becomes a space, percent escapes are decoded and the bytes are read
    back as UTF-8, ill-formed sequences becoming U+FFFD. *)

Module Url.

Local Open Scope N_scope.

Definition between (lo hi c : N) : bool := N.leb lo c && N.leb c hi.

(** The code points of a string: a surrogate pair is one code point, a lone
    surrogate is read as U+FFFD. *)
Fixpoint code_points (s : str) : list N :=
  match s with
  | [] => []
  | c :: s' =>
      if between 55296 56319 c then
        match s' with
        | d :: s'' =>
            if between 56320 57343 d
            then (65536 + (c - 55296) * 1024 + (d - 56320)) :: code_points s''
            else 65533 :: code_points s'
        | [] => [65533]
        end
      else if between 56320 57343 c then 65533 :: code_points s'
      else c :: code_points s'
  end.

Definition utf8_encode_cp (cp : N) : list N :=
  if cp <=? 127 then [cp]
  else if cp <=? 2047 then [192 + cp / 64; 128 + cp mod 64]
  else if cp <=? 65535 then
    [224 + cp / 4096; 128 + (cp / 64) mod 64; 128 + cp mod 64]
  else
    [240 + cp / 262144; 128 + (cp / 4096) mod 64;
     128 + (cp / 64) mod 64; 128 + cp mod 64].

Definition utf8_encode (s : str) : list N :=
  flat_map utf8_encode_cp (code_points s).

Definition utf16_of_cp (cp : N) : str :=
  if cp <=? 65535 then [cp]
  else [55296 + (cp - 65536) / 1024; 56320 + (cp - 65536) mod 1024].

(** The decoder is between two characters, or inside one with [remaining]
    continuation bytes to come, the next of them within [lower..upper]. *)
Inductive dstate :=
| DStart
| DCont (cp : N) (remaining : nat) (lower upper : N).

Definition utf8_start (b : N) : list N * dstate :=
  if b <=? 127 then ([b], DStart)
  else if between 194 223 b then ([], DCont (b mod 32) 1 128 191)
  else if between 224 239 b then
    ([], DCont (b mod 16) 2 (if b =? 224 then 160 else 128)
               (if b =? 237 then 159 else 191))
  else if between 240 244 b then
    ([], DCont (b mod 8) 3 (if b =? 240 then 144 else 128)
               (if b =? 244 then 143 else 191))
  else ([65533], DStart).

Fixpoint utf8_decode (st : dstate) (bs : list N) : list N :=
  match bs with
  | [] =>
      match st with
      | DStart => []
      | DCont _ _ _ _ => [65533]
      end
  | b :: bs' =>
      match st with
      | DStart =>
          let (out, st') := utf8_start b in out ++ utf8_decode st' bs'
      | DCont cp remaining lower upper =>
          if between lower upper b then
            let cp' := cp * 64 + b mod 64 in
            match remaining with
            | S (S r) => utf8_decode (DCont cp' (S r) 128 191) bs'
            | _ => cp' :: utf8_decode DStart bs'
            end
          else
            let (out, st') := utf8_start b in
            65533 :: out ++ utf8_decode st' bs'
      end
  end.

Definition utf8_decode_string (bs : list N) : str :=
  flat_map utf16_of_cp (utf8_decode DStart bs).

(** The conversion to a USVString: lone surrogates become U+FFFD. *)
Definition to_usv (s : str) : str := flat_map utf16_of_cp (code_points s).

Fixpoint percent_decode (bs : list N) : list N :=
  match bs with
  | [] => []
  | b :: bs' =>
      if b =? 37 then
        match bs' with
        | h1 :: h2 :: bs'' =>
            match hex_digit h1, hex_digit h2 with
            | Some a, Some c => (a * 16 + c) :: percent_decode bs''
            | _, _ => b :: percent_decode bs'
            end
        | _ => b :: percent_decode bs'
        end
      else b :: percent_decode bs'
  end.

(** The pieces of [bs] between the bytes [d]; [cur] holds, reversed, the
    piece being read. *)
Fixpoint split_at_byte (d : N) (cur : list N) (bs : list N) : list (list N) :=
  match bs with
  | [] => [rev cur]
  | b :: bs' =>
      if b =? d then rev cur :: split_at_byte d [] bs'
      else split_at_byte d (b :: cur) bs'
  end.

(** The name and the value of a piece: it is cut at its first [=]. *)
Fixpoint cut_at_equals (name : list N) (bs : list N) : list N * list N :=
  match bs with
  | [] => (rev name, [])
  | b :: bs' =>
      if b =? 61 then (rev name, bs') else cut_at_equals (b :: name) bs'
  end.

Definition plus_to_space (bs : list N) : list N :=
  map (fun b => if b =? 43 then 32 else b) bs.

Definition decode_component (bs : list N) : str :=
  utf8_decode_string (percent_decode (plus_to_space bs)).

Definition parse_urlencoded (bs : list N) : list (str * str) :=
  flat_map
    (fun piece =>
       match piece with
       | [] => []
       | _ :: _ =>
           let (name, value) := cut_at_equals [] piece in
           [(decode_component name, decode_component value)]
       end)
    (split_at_byte 38 [] bs).

(** [new URLSearchParams(init)] for a string: a leading [?] is dropped. *)
Definition URLSearchParams (init : str) : list (str * str) :=
  parse_urlencoded
    (utf8_encode
       (match init with
        | c :: s' => if c =? 63 then s' else init
        | [] => init
        end)).

(** [params.get(name)]: the value of the first pair of that name, or
    [null]. *)
Fixpoint params_get (params : list (str * str)) (name : str) : value :=
  match params with
  | [] => VNull
  | (k, v) :: ps => if Str.eqb k name then VString v else params_get ps name
  end.

End Url.

Import Url.

(* ================================================================== *)
(** ** The hosted model and the effects of the retry loop *)

(** What one call of [replicate.run] does: it rejects with an error of the
    given message, or resolves to the chunks of generated text. *)
Inductive run_result :=
| RunThrows (message : str)
| RunOutput (chunks : list str).

(** The outcome of the call made by each attempt, numbered from 1. *)
Definition oracle := nat -> run_result.

(** The calls and waits of the loop, in order.  A call is identified by the
    model and by the two values interpolated in the prompt template. *)
Inductive effect :=
| Run (model : str) (jobTitle jobDescription : value)
| Wait (ms : nat).

(** The [for] loop of [extractJobDetailsWithRetry], the same in both
    revisions.  [body attempt] is the [try ... catch] of one iteration:
    [Ok (Some v)] is [return v], [Throw e] leaves the function with [e] and
    [Ok None] falls through to the wait.  [remaining] is
    [maxRetries + 1 - attempt], the number of iterations for which
    [attempt <= maxRetries] still holds.  Leaving the loop ends the function
    without a [return]: the result is [undefined]. *)
Fixpoint retry_loop (call : effect) (body : nat -> result (option value))
    (remaining attempt : nat) : list effect * result value :=
  match remaining with
  | O => ([], Ok VUndefined)
  | S n =>
      match body attempt with
      | Ok (Some jsonResult) => ([call], Ok jsonResult)
      | Throw e => ([call], Throw e)
      | Ok None =>
          let (effects, r) := retry_loop call body n (S attempt) in
          (call :: Wait (1000 * attempt) :: effects, r)
      end
  end.

Definition work_arrangements : list str :=
  [lit "remote"; lit "hybrid"; lit "on-site"].

Definition experiences : list str :=
  [lit "Entry (0-2 Years)"; lit "Mid (3-5 Years)";
   lit "Senior (6-8 Years)"; lit "Lead (8+ Years)"].

(* ================================================================== *)
(** ** [extractJobDetailsWithRetry], as in
       [netlify/functions/extract-job-details.js] *)

Module ThrowVariant.

Definition model : str := lit "deepseek-ai/deepseek-v3.1".

(** The condition of the [if] that guards [return jsonResult].  Reading a
    property throws exactly when [jsonResult] is [null], whichever property
    is read first. *)
Definition validate (jsonResult : value) : result bool :=
  do job_title <- get jsonResult (lit "job_title");
  do city <- get jsonResult (lit "city");
  do work_arrangement <- get jsonResult (lit "work_arrangement");
  do experience <- get jsonResult (lit "experience");
  Ok (truthy job_title
      && (is_null city || is_string city)
      && (is_null work_arrangement
          || includes_value work_arrangements work_arrangement)
      && (is_null experience || includes_value experiences experience)).

(** The body of the inner [try]: [Some v] is [return v]. *)
Definition try_parse (responseText : str) : result (option value) :=
  match JSON_parse responseText with
  | None => Throw SyntaxError
  | Some jsonResult =>
      do valid <- validate jsonResult;
      Ok (if valid then Some jsonResult else None)
  end.

Definition failure_message (maxRetries : nat) (responseText : str) : str :=
  lit "Failed to extract valid JSON after " ++ Str.of_nat maxRetries
  ++ lit " attempts. Last response: " ++ responseText.

(** The inner [try ... catch (parseError)]. *)
Definition parse_or_retry (maxRetries attempt : nat) (responseText : str)
  : result (option value) :=
  match try_parse responseText with
  | Ok r => Ok r
  | Throw _ =>
      if Nat.eqb attempt maxRetries
      then Throw (Error (failure_message maxRetries responseText))
      else Ok None
  end.

(** The outer [try ... catch (error)] of one iteration: [Ok (Some v)] is
    [return v], [Ok None] falls through to the wait. *)
Definition attempt_body (maxRetries attempt : nat) (out : run_result)
  : result (option value) :=
  let tried :=
    match out with
    | RunThrows message => Throw (Error message)
    | RunOutput output =>
        let responseText := trim (join output) in
        parse_or_retry maxRetries attempt responseText
    end in
  match tried with
  | Ok r => Ok r
  | Throw error =>
      if Nat.eqb attempt maxRetries then Throw error else Ok None
  end.

(** The [for] loop. *)
Definition attempt_loop (run : oracle)
    (jobTitle jobDescription : value) (maxRetries : nat)
  : list effect * result value :=
  retry_loop (Run model jobTitle jobDescription)
             (fun attempt => attempt_body maxRetries attempt (run attempt))
             maxRetries 1.

(** The template literal of the prompt comes first, outside any [try]: it
    converts [jobTitle] and [jobDescription] to strings, and the function
    ends there when a conversion throws. *)
Definition extractJobDetailsWithRetry (run : oracle)
    (jobTitle jobDescription : value) (maxRetries : nat)
  : list effect * result value :=
  if stringifies jobTitle && stringifies jobDescription
  then attempt_loop run jobTitle jobDescription maxRetries
  else ([], Throw TypeError).

End ThrowVariant.

(* ================================================================== *)
(** ** [extractJobDetailsWithRetry], in the revision that strips code
       fences, reads [company] and returns a fallback record *)

Module FallbackVariant.

Definition model : str := lit "openai/gpt-4o-mini".

Definition BACKTICKS : str := lit "```".

(** [/^```json\s*/] *)
Definition re_open_json : regex :=
  RSeqs [RBegin; RLit (lit "```json"); RStar true cls_space].

(** [/^```\s*/] *)
Definition re_open : regex :=
  RSeqs [RBegin; RLit BACKTICKS; RStar true cls_space].

(** [/\s*```$/] *)
Definition re_close : regex :=
  RSeqs [RStar true cls_space; RLit BACKTICKS; REnd].

(** From [output.join("").trim()] to the text handed to [JSON.parse]. *)
Definition clean (output : list str) : str :=
  let responseText := trim (join output) in
  let responseText :=
    if startsWith (lit "```json") responseText then
      replace_empty re_close (replace_empty re_open_json responseText)
    else if startsWith BACKTICKS responseText then
      replace_empty re_close (replace_empty re_open responseText)
    else responseText in
  trim responseText.

Definition validate (jsonResult : value) : result bool :=
  do job_title <- get jsonResult (lit "job_title");
  do city <- get jsonResult (lit "city");
  do work_arrangement <- get jsonResult (lit "work_arrangement");
  do company <- get jsonResult (lit "company");
  do experience <- get jsonResult (lit "experience");
  Ok (truthy job_title
      && (is_null city || is_string city)
      && (is_null work_arrangement
          || includes_value work_arrangements work_arrangement)
      && (is_null company || is_string company)
      && (is_null experience || includes_value experiences experience)).

Definition try_parse (responseText : str) : result (option value) :=
  match JSON_parse responseText with
  | None => Throw SyntaxError
  | Some jsonResult =>
      do valid <- validate jsonResult;
      Ok (if valid then Some jsonResult else None)
  end.

(** The record returned "instead of throwing an error". *)
Definition fallback (jobTitle : value) (error : str) : value :=
  VObject [(lit "job_title", jobTitle);
           (lit "city", VNull);
           (lit "work_arrangement", VNull);
           (lit "company", VNull);
           (lit "experience", VNull);
           (lit "error", VString error)].

(** The inner [try ... catch (parseError)]: the handler of the last
    attempt returns the fallback record, so nothing is thrown. *)
Definition parse_or_retry (jobTitle : value) (maxRetries attempt : nat)
    (responseText : str) : option value :=
  match try_parse responseText with
  | Ok r => r
  | Throw _ =>
      if Nat.eqb attempt maxRetries
      then Some (fallback jobTitle (lit "Failed to parse AI response as JSON"))
      else None
  end.

(** The outer [try ... catch (error)] of one iteration: only the call of
    the model can throw into it. [Some v] is [return v], [None] falls
    through to the wait. *)
Definition attempt_body (jobTitle : value) (maxRetries attempt : nat)
    (out : run_result) : option value :=
  match out with
  | RunThrows message =>
      if Nat.eqb attempt maxRetries
      then Some (fallback jobTitle (lit "AI processing failed: " ++ message))
      else None
  | RunOutput output =>
      parse_or_retry jobTitle maxRetries attempt (clean output)
  end.

(** The [for] loop. *)
Definition attempt_loop (run : oracle)
    (jobTitle jobDescription : value) (maxRetries : nat)
  : list effect * result value :=
  retry_loop (Run model jobTitle jobDescription)
             (fun attempt =>
                Ok (attempt_body jobTitle maxRetries attempt (run attempt)))
             maxRetries 1.

(** The template literal of the prompt comes first, outside any [try], as
    in the other revision. *)
Definition extractJobDetailsWithRetry (run : oracle)
    (jobTitle jobDescription : value) (maxRetries : nat)
  : list effect * result value :=
  if stringifies jobTitle && stringifies jobDescription
  then attempt_loop run jobTitle jobDescription maxRetries
  else ([], Throw TypeError).

End FallbackVariant.

(* ================================================================== *)
(** ** The handler of [netlify/functions/extract-job-details.js] *)

Module Handler.

(** [event.body]: [null], a string, or an object already parsed by the
    platform. *)
Inductive body_in :=
| BNull
| BString (s : str)
| BObject (fields : list (str * str)).

Record event := Event {
  httpMethod : str;
  headers : list (str * str);
  body : body_in;
  (** [None] is [null] *)
  queryStringParameters : option (list (str * str))
}.

(** The [body] of a response. *)
Inductive body_out :=
| BodyText (s : str)
  (** [JSON.stringify(v)] *)
| BodyJson (v : value)
  (** [JSON.stringify({ error: "Failed to extract job details",
      details: e.message })] *)
| BodyFailure (e : exn).

Record response := Response {
  statusCode : nat;
  responseHeaders : list (str * str);
  responseBody : body_out
}.

Definition cors_headers : list (str * str) :=
  [(lit "Access-Control-Allow-Origin", lit "*");
   (lit "Access-Control-Allow-Headers", lit "Content-Type");
   (lit "Access-Control-Allow-Methods", lit "POST, OPTIONS");
   (lit "Content-Type", lit "application/json")].

Definition respond (status : nat) (b : body_out) : response :=
  Response status cors_headers b.

(** [a || b] for an optional string and a string: the empty string is
    falsy. *)
Definition str_or (a : option str) (b : str) : str :=
  match a with
  | Some (c :: s) => c :: s
  | _ => b
  end.

(** [event.headers['content-type'] || event.headers['Content-Type'] || ''] *)
Definition contentType (ev : event) : str :=
  str_or (lookup (lit "content-type") (headers ev))
         (str_or (lookup (lit "Content-Type") (headers ev)) []).

Definition string_field (fields : list (str * str)) (k : str) : value :=
  match lookup k fields with
  | Some s => VString s
  | None => VUndefined
  end.

Definition object_of (fields : list (str * str)) : value :=
  VObject (map (fun kv => (fst kv, VString (snd kv))) fields).

(** [JSON.parse(event.body)]: the argument is first converted to a
    string. *)
Definition parse_body (b : body_in) : result value :=
  let text :=
    match b with
    | BNull => lit "null"
    | BString s => s
    | BObject _ => lit "[object Object]"
    end in
  match JSON_parse text with
  | Some v => Ok v
  | None => Throw SyntaxError
  end.

(** [new URLSearchParams(event.body)]: nothing for [null], the members of
    an object. *)
Definition body_params (b : body_in) : list (str * str) :=
  match b with
  | BNull => []
  | BString s => URLSearchParams s
  | BObject fields => map (fun kv => (to_usv (fst kv), to_usv (snd kv))) fields
  end.

Definition name_job_title : str := lit "name=" ++ quoted (lit "job_title").
Definition name_job_description : str :=
  lit "name=" ++ quoted (lit "job_description").

(** [/name="job_title"\s*\r?\n\r?\n(.*?)(?:\r?\n|$)/s] and its twin. *)
Definition re_field (name : str) : regex :=
  RSeqs [RLit name;
         RStar true cls_space;
         ROptChar CR; RChar LF; ROptChar CR; RChar LF;
         RGroup (RStar false cls_any);
         RAlt (RSeq (ROptChar CR) (RChar LF)) REnd].

(** One iteration of the loop over the parts: the two fields so far, then
    after the part. *)
Definition scan_part (fields : value * value) (part : str) : value * value :=
  let (job_title, job_description) := fields in
  let job_title :=
    if includes name_job_title part then
      match match_group1 (re_field name_job_title) part with
      | Some m => VString (trim m)
      | None => job_title
      end
    else job_title in
  let job_description :=
    if includes name_job_description part then
      match match_group1 (re_field name_job_description) part with
      | Some m => VString (trim m)
      | None => job_description
      end
    else job_description in
  (job_title, job_description).

(** The multipart branch: both fields start out [undefined]. *)
Definition parse_multipart (contentType : str) (b : body_in) : value * value :=
  match b with
  | BObject fields =>
      (string_field fields (lit "job_title"),
       string_field fields (lit "job_description"))
  | BString s =>
      match split (lit "boundary=") contentType with
      | _ :: (c :: b') :: _ =>
          let boundary := c :: b' in
          let parts := split (lit "--" ++ boundary) s in
          fold_left scan_part parts (VUndefined, VUndefined)
      | _ => (VUndefined, VUndefined)
      end
  | BNull => (VUndefined, VUndefined)
  end.

(** What the body-parsing step yields: the two fields, an early [return],
    or an exception for the [catch] of the handler. *)
Inductive parsed :=
| Fields (job_title job_description : value)
| Return (r : response)
| Raise (e : exn).

Definition invalid_format : response :=
  respond 400
    (BodyJson (VObject
       [(lit "error",
         VString (lit "Invalid request format. Use JSON or URL-encoded form data."))])).

Definition fields_of_json (v : value) : result (value * value) :=
  do job_title <- get v (lit "job_title");
  do job_description <- get v (lit "job_description");
  Ok (job_title, job_description).

Definition parse_request (ev : event) : parsed :=
  let contentType := contentType ev in
  if includes (lit "application/json") contentType then
    match (do body <- parse_body (body ev); fields_of_json body) with
    | Ok (job_title, job_description) => Fields job_title job_description
    | Throw e => Raise e
    end
  else if includes (lit "application/x-www-form-urlencoded") contentType then
    let params := body_params (body ev) in
    Fields (params_get params (lit "job_title"))
           (params_get params (lit "job_description"))
  else if includes (lit "multipart/form-data") contentType then
    let (job_title, job_description) := parse_multipart contentType (body ev) in
    Fields job_title job_description
  else
    match (do body <- parse_body (body ev); fields_of_json body) with
    | Ok (job_title, job_description) => Fields job_title job_description
    | Throw _ => Return invalid_format
    end.

(** The query-string fallback. *)
Definition with_query (ev : event) (fields : value * value) : value * value :=
  let (job_title, job_description) := fields in
  match queryStringParameters ev with
  | Some qs =>
      if negb (truthy job_title) || negb (truthy job_description) then
        (or_else job_title (string_field qs (lit "job_title")),
         or_else job_description (string_field qs (lit "job_description")))
      else fields
  | None => fields
  end.

Definition type_of_body (b : body_in) : str :=
  match b with
  | BString _ => lit "string"
  | BNull | BObject _ => lit "object"
  end.

Definition missing_fields (ev : event) (job_title job_description : value)
  : response :=
  respond 400
    (BodyJson (VObject
       [(lit "error",
         VString (lit "Missing required fields: job_title and job_description"));
        (lit "received",
         VObject [(lit "job_title", or_else job_title VNull);
                  (lit "job_description", or_else job_description VNull)]);
        (lit "debug",
         VObject [(lit "contentType",
                   string_field (headers ev) (lit "content-type"));
                  (lit "bodyType", VString (type_of_body (body ev)));
                  (lit "bodyPreview",
                   VString (match body ev with
                            | BString s => substring0 200 s
                            | _ => lit "Not a string"
                            end));
                  (lit "queryParams",
                   match queryStringParameters ev with
                   | Some qs => object_of qs
                   | None => VNull
                   end)])])).

Definition internal_failure (e : exn) : response := respond 500 (BodyFailure e).

(** The response after the retry loop: its result serialised, or the
    [catch] of the handler. *)
Definition reply (result : result value) : response :=
  match result with
  | Ok v => respond 200 (BodyJson v)
  | Throw e => internal_failure e
  end.

(** The handler: the effects of the retry loop, if it is reached, and the
    response. *)
Definition handler (run : oracle) (ev : event) : list effect * response :=
  if Str.eqb (httpMethod ev) (lit "OPTIONS") then
    ([], respond 200 (BodyText []))
  else if negb (Str.eqb (httpMethod ev) (lit "POST")) then
    ([], respond 405
           (BodyJson (VObject [(lit "error", VString (lit "Method not allowed"))])))
  else
    match parse_request ev with
    | Return r => ([], r)
    | Raise e => ([], internal_failure e)
    | Fields job_title job_description =>
        let (job_title, job_description) :=
          with_query ev (job_title, job_description) in
        if negb (truthy job_title) || negb (truthy job_description) then
          ([], missing_fields ev job_title job_description)
        else
          let (effects, result) :=
            ThrowVariant.extractJobDetailsWithRetry
              run job_title job_description 3 in
          (effects, reply result)
    end.

End Handler.

(* ================================================================== *)
(** ** The handlers of the other revisions

    The 400 of both: [{ error: "Missing required fields: ..." }], without
    the [received] and [debug] members. *)

Definition missing_required : Handler.response :=
  Handler.respond 400
    (Handler.BodyJson (VObject
       [(lit "error",
         VString (lit "Missing required fields: job_title and job_description"))])).

(** The first revision reads JSON bodies only, whatever the content type,
    and does not look at the query string. *)

Module JsonHandler.

(** [const body = JSON.parse(event.body);
     const { job_title, job_description } = body;]: the destructuring throws
    on [null] as reading a property does. *)
Definition handler (run : oracle) (ev : Handler.event)
  : list effect * Handler.response :=
  if Str.eqb (Handler.httpMethod ev) (lit "OPTIONS") then
    ([], Handler.respond 200 (Handler.BodyText []))
  else if negb (Str.eqb (Handler.httpMethod ev) (lit "POST")) then
    ([], Handler.respond 405
           (Handler.BodyJson
              (VObject [(lit "error", VString (lit "Method not allowed"))])))
  else
    match (do body <- Handler.parse_body (Handler.body ev);
           Handler.fields_of_json body) with
    | Throw e => ([], Handler.internal_failure e)
    | Ok (job_title, job_description) =>
        if negb (truthy job_title) || negb (truthy job_description) then
          ([], missing_required)
        else
          let (effects, result) :=
            ThrowVariant.extractJobDetailsWithRetry
              run job_title job_description 3 in
          (effects, Handler.reply result)
    end.

End JsonHandler.

(** The handler of the revision that returns a fallback record: it has no
    query-string fallback, and its multipart branch splits whatever body is
    not an object. *)

Module FallbackHandler.

(** The multipart branch: [event.body.split] throws when the body is
    [null]. *)
Definition parse_multipart (contentType : str) (b : Handler.body_in)
  : result (value * value) :=
  match b with
  | Handler.BObject fields =>
      Ok (Handler.string_field fields (lit "job_title"),
          Handler.string_field fields (lit "job_description"))
  | Handler.BNull | Handler.BString _ =>
      match split (lit "boundary=") contentType with
      | _ :: (c :: b') :: _ =>
          let boundary := c :: b' in
          match b with
          | Handler.BString s =>
              let parts := split (lit "--" ++ boundary) s in
              Ok (fold_left Handler.scan_part parts (VUndefined, VUndefined))
          | _ => Throw TypeError
          end
      | _ => Ok (VUndefined, VUndefined)
      end
  end.

Definition parse_request (ev : Handler.event) : Handler.parsed :=
  let contentType := Handler.contentType ev in
  if includes (lit "application/json") contentType then
    match (do body <- Handler.parse_body (Handler.body ev);
           Handler.fields_of_json body) with
    | Ok (job_title, job_description) => Handler.Fields job_title job_description
    | Throw e => Handler.Raise e
    end
  else if includes (lit "application/x-www-form-urlencoded") contentType then
    let params := Handler.body_params (Handler.body ev) in
    Handler.Fields (params_get params (lit "job_title"))
                   (params_get params (lit "job_description"))
  else if includes (lit "multipart/form-data") contentType then
    match parse_multipart contentType (Handler.body ev) with
    | Ok (job_title, job_description) => Handler.Fields job_title job_description
    | Throw e => Handler.Raise e
    end
  else
    match (do body <- Handler.parse_body (Handler.body ev);
           Handler.fields_of_json body) with
    | Ok (job_title, job_description) => Handler.Fields job_title job_description
    | Throw _ => Handler.Return Handler.invalid_format
    end.

Definition handler (run : oracle) (ev : Handler.event)
  : list effect * Handler.response :=
  if Str.eqb (Handler.httpMethod ev) (lit "OPTIONS") then
    ([], Handler.respond 200 (Handler.BodyText []))
  else if negb (Str.eqb (Handler.httpMethod ev) (lit "POST")) then
    ([], Handler.respond 405
           (Handler.BodyJson
              (VObject [(lit "error", VString (lit "Method not allowed"))])))
  else
    match parse_request ev with
    | Handler.Return r => ([], r)
    | Handler.Raise e => ([], Handler.internal_failure e)
    | Handler.Fields job_title job_description =>
        if negb (truthy job_title) || negb (truthy job_description) then
          ([], missing_required)
        else
          let (effects, result) :=
            FallbackVariant.extractJobDetailsWithRetry
              run job_title job_description 3 in
          (effects, Handler.reply result)
    end.

End FallbackHandler.

(** The revision that hands multipart bodies to busboy.  What
    [parseMultipartForm(event)] settles to is given from outside, as the
    answers of the model are: the promise is rejected with an error of the
    given message, or resolves to the fields busboy has read. *)
Inductive form_result :=
| FormRejected (message : str)
| FormFields (fields : list (str * str)).

Module BusboyHandler.

Definition multipart_error (message : str) : Handler.response :=
  Handler.respond 400
    (Handler.BodyJson (VObject
       [(lit "error", VString (lit "Error parsing multipart form data"));
        (lit "details", VString message)])).

Definition parse_request (parseMultipartForm : Handler.event -> form_result)
    (ev : Handler.event) : Handler.parsed :=
  let contentType := Handler.contentType ev in
  if includes (lit "application/json") contentType then
    match (do body <- Handler.parse_body (Handler.body ev);
           Handler.fields_of_json body) with
    | Ok (job_title, job_description) => Handler.Fields job_title job_description
    | Throw e => Handler.Raise e
    end
  else if includes (lit "application/x-www-form-urlencoded") contentType then
    let params := Handler.body_params (Handler.body ev) in
    Handler.Fields (params_get params (lit "job_title"))
                   (params_get params (lit "job_description"))
  else if includes (lit "multipart/form-data") contentType then
    match parseMultipartForm ev with
    | FormFields fields =>
        Handler.Fields (Handler.string_field fields (lit "job_title"))
                       (Handler.string_field fields (lit "job_description"))
    | FormRejected message => Handler.Return (multipart_error message)
    end
  else
    match (do body <- Handler.parse_body (Handler.body ev);
           Handler.fields_of_json body) with
    | Ok (job_title, job_description) => Handler.Fields job_title job_description
    | Throw _ => Handler.Return Handler.invalid_format
    end.

Definition handler (parseMultipartForm : Handler.event -> form_result)
    (run : oracle) (ev : Handler.event) : list effect * Handler.response :=
  if Str.eqb (Handler.httpMethod ev) (lit "OPTIONS") then
    ([], Handler.respond 200 (Handler.BodyText []))
  else if negb (Str.eqb (Handler.httpMethod ev) (lit "POST")) then
    ([], Handler.respond 405
           (Handler.BodyJson
              (VObject [(lit "error", VString (lit "Method not allowed"))])))
  else
    match parse_request parseMultipartForm ev with
    | Handler.Return r => ([], r)
    | Handler.Raise e => ([], Handler.internal_failure e)
    | Handler.Fields job_title job_description =>
        let (job_title, job_description) :=
          Handler.with_query ev (job_title, job_description) in
        if negb (truthy job_title) || negb (truthy job_description) then
          ([], Handler.missing_fields ev job_title job_description)
        else
          let (effects, result) :=
            ThrowVariant.extractJobDetailsWithRetry
              run job_title job_description 3 in
          (effects, Handler.reply result)
    end.

End BusboyHandler.

(* ================================================================== *)
(** ** Vocabulary of the properties *)

(** The number of calls of the model among the effects. *)
Fixpoint attempts (effects : list effect) : nat :=
  match effects with
  | [] => 0
  | Run _ _ _ :: es => S (attempts es)
  | Wait _ :: es => attempts es
  end.

(** The backoff waits among the effects, in order. *)
Fixpoint waits (effects : list effect) : list nat :=
  match effects with
  | [] => []
  | Run _ _ _ :: es => waits es
  | Wait ms :: es => ms :: waits es
  end.

(** [k] attempts from [attempt] on, each followed by its wait. *)
Fixpoint retries (call : effect) (k attempt : nat) : list effect :=
  match k with
  | O => []
  | S k' => call :: Wait (1000 * attempt) :: retries call k' (S attempt)
  end.

(** The effects of [n] attempts of which only the last is not followed by a
    wait. *)
Definition exhausted (call : effect) (n : nat) : list effect :=
  retries call (n - 1) 1 ++ [call].

(** [v] is [null] or one of the strings of [allowed]. *)
Definition enum_or_null (allowed : list str) (v : value) : Prop :=
  v = VNull \/ exists s, v = VString s /\ In s allowed.

(** The invariant of an extraction result: its [work_arrangement] and its
    [experience] are [null] or one of the enumerated literals. *)
Definition enumerated (r : value) : Prop :=
  exists wa ex,
    get r (lit "work_arrangement") = Ok wa /\
    get r (lit "experience") = Ok ex /\
    enum_or_null work_arrangements wa /\
    enum_or_null experiences ex.

(** The string has a letter among [A]..[Z]. *)
Definition has_uppercase (s : str) : bool :=
  existsb (fun c => N.leb 65 c && N.leb c 90) s.

(** What a reader may answer on [s]: not [PFuel], and a rest shorter than
    [s]. *)
Definition consumes {A : Type} (r : pres A) (s : str) : Prop :=
  match r with
  | POk _ rest => length rest < length s
  | PErr => True
  | PFuel => False
  end.

(** What a reader answers is not [undefined]. *)
Definition defined (r : pres value) : Prop :=
  match r with
  | POk v _ => v <> VUndefined
  | PErr | PFuel => True
  end.

(** The number of members of the object a response carries. *)
Definition members_of (r : Handler.response) : nat :=
  match Handler.responseBody r with
  | Handler.BodyJson (VObject members) => length members
  | _ => 0
  end.

(** A response wrapped in a Markdown code fence: the opening fence with its
    tag ([json] or nothing), a line break, the text, a line break and the
    closing fence. *)
Definition fenced (tag text : str) : str :=
  FallbackVariant.BACKTICKS ++ tag ++ [LF] ++ text ++ [LF]
  ++ FallbackVariant.BACKTICKS.

(** The text of a JSON object: anything between braces. *)
Definition braced (inner : str) : str := ch "{" :: inner ++ [ch "}"].

(** The line break of multipart framing. *)
Definition CRLF : str := [CR; LF].

(** What follows the delimiter at the head of a part: the line break, the
    [Content-Disposition] header that names the field, and the blank line. *)
Definition part_header (name : str) : str :=
  CRLF ++ lit "Content-Disposition: form-data; name=" ++ quoted name
  ++ CRLF ++ CRLF.

(** The delimiter of the parts: two hyphens and the boundary. *)
Definition delimiter (boundary : str) : str := lit "--" ++ boundary.

(** A [multipart/form-data] body with the two text fields. *)
Definition multipart_body (boundary title description : str) : str :=
  delimiter boundary ++ part_header (lit "job_title") ++ title ++ CRLF
  ++ delimiter boundary ++ part_header (lit "job_description")
  ++ description ++ CRLF
  ++ delimiter boundary ++ lit "--" ++ CRLF.

Definition multipart_request (boundary title description : str)
  : Handler.event :=
  Handler.Event
    (lit "POST")
    [(lit "content-type", lit "multipart/form-data; boundary=" ++ boundary)]
    (Handler.BString (multipart_body boundary title description))
    None.

(** A boundary of letters, digits and hyphens. *)
Definition boundary_char (c : char) : bool :=
  (N.leb 48 c && N.leb c 57) || (N.leb 65 c && N.leb c 90)
  || (N.leb 97 c && N.leb c 122) || N.eqb c 45.

(** The string is at a line break, [\n] or [\r\n], or at its end. *)
Definition line_break (s : str) : bool :=
  match s with
  | [] => true
  | c :: s' =>
      N.eqb c LF
      || (N.eqb c CR
          && match s' with
             | d :: _ => N.eqb d LF
             | [] => false
             end)
  end.

(** The value up to its first line break. *)
Fixpoint first_line (s : str) : str :=
  match s with
  | [] => []
  | c :: s' => if line_break s then [] else c :: first_line s'
  end.

(** The end of the field pattern: [(?:\r?\n|$)]. *)
Definition re_line_end : regex := RAlt (RSeq (ROptChar CR) (RChar LF)) REnd.

(** The field pattern after the name: the blank line, the captured value
    and its end. *)
Definition re_after_name : regex :=
  RSeqs [RStar true cls_space;
         ROptChar CR; RChar LF; ROptChar CR; RChar LF;
         RGroup (RStar false cls_any);
         re_line_end].

(** The value starts with a character that is not white space. *)
Definition starts_with_text (s : str) : bool :=
  match s with
  | c :: _ => negb (is_ws c)
  | [] => false
  end.

(** No occurrence of [sep] starts within [p] when [p] is followed by
    [tail]. *)
Fixpoint no_start (sep p tail : str) : bool :=
  match p with
  | [] => true
  | _ :: p' => negb (startsWith sep (p ++ tail)) && no_start sep p' tail
  end.

(* ================================================================== *)
(** ** Sample inputs *)

Module Sample.

(** The text of a JSON object from the texts of its members. *)
Definition member (name text : str) : str := quoted name ++ lit ":" ++ text.

Fixpoint commas (items : list str) : str :=
  match items with
  | [] => []
  | [x] => x
  | x :: xs => x ++ lit "," ++ commas xs
  end.

Definition object_text (members : list str) : str :=
  lit "{" ++ commas members ++ lit "}".

Definition jobTitle : value := VString (lit "Senior Data Engineer, Acme Corp").
Definition jobDescription : value := VString (lit "5+ years of experience").

(** A schema-conforming response of the first revision, and its value. *)
Definition good_text : str :=
  object_text [member (lit "job_title") (quoted (lit "Senior Data Engineer"));
               member (lit "city") (lit "null");
               member (lit "work_arrangement") (quoted (lit "remote"));
               member (lit "experience") (quoted (lit "Senior (6-8 Years)"))].

Definition good_value : value :=
  VObject [(lit "job_title", VString (lit "Senior Data Engineer"));
           (lit "city", VNull);
           (lit "work_arrangement", VString (lit "remote"));
           (lit "experience", VString (lit "Senior (6-8 Years)"))].

(** The same with [company], for the second revision. *)
Definition good_text_company : str :=
  object_text [member (lit "job_title") (quoted (lit "Senior Data Engineer"));
               member (lit "city") (lit "null");
               member (lit "work_arrangement") (quoted (lit "remote"));
               member (lit "company") (quoted (lit "Acme Corp"));
               member (lit "experience") (quoted (lit "Senior (6-8 Years)"))].

Definition good_value_company : value :=
  VObject [(lit "job_title", VString (lit "Senior Data Engineer"));
           (lit "city", VNull);
           (lit "work_arrangement", VString (lit "remote"));
           (lit "company", VString (lit "Acme Corp"));
           (lit "experience", VString (lit "Senior (6-8 Years)"))].

(** A response that parses but capitalises [work_arrangement]. *)
Definition capitalised_text : str :=
  object_text [member (lit "job_title") (quoted (lit "Senior Data Engineer"));
               member (lit "city") (lit "null");
               member (lit "work_arrangement") (quoted (lit "Hybrid"));
               member (lit "company") (lit "null");
               member (lit "experience") (lit "null")].

Definition capitalised_value : value :=
  VObject [(lit "job_title", VString (lit "Senior Data Engineer"));
           (lit "city", VNull);
           (lit "work_arrangement", VString (lit "Hybrid"));
           (lit "company", VNull);
           (lit "experience", VNull)].

(** A model that never answers in JSON. *)
Definition prose : oracle :=
  fun _ => RunOutput [lit "Sure! "; lit "Here are the details you asked for."].

(** A model that answers in JSON from the third call on. *)
Definition third_time_lucky : oracle :=
  fun attempt =>
    if Nat.ltb attempt 3 then RunOutput [lit "Sure! Here you go"]
    else RunOutput [good_text].

(** A model that always capitalises [work_arrangement]. *)
Definition capitalising : oracle := fun _ => RunOutput [capitalised_text].

(** Requests. *)
Definition json_body : str :=
  object_text [member (lit "job_title") (quoted (lit "Senior Data Engineer, Acme Corp"));
               member (lit "job_description") (quoted (lit "5+ years of experience"))].

Definition json_request : Handler.event :=
  Handler.Event (lit "POST") [(lit "content-type", lit "application/json")]
                (Handler.BString json_body) None.

Definition preflight : Handler.event :=
  Handler.Event (lit "OPTIONS") [] Handler.BNull None.

Definition delete_request : Handler.event :=
  Handler.Event (lit "DELETE") [(lit "content-type", lit "application/json")]
                (Handler.BString json_body) None.

(** A JSON body without [job_description], and a query string that does
    not have it either. *)
Definition title_only : Handler.event :=
  Handler.Event (lit "POST") [(lit "content-type", lit "application/json")]
                (Handler.BString
                   (object_text [member (lit "job_title") (quoted (lit "Engineer"))]))
                (Some [(lit "page", lit "2")]).

(** No content type, and the body [null]. *)
Definition null_body : Handler.event :=
  Handler.Event (lit "POST") [] (Handler.BString (lit "null")) None.

(** An unrecognised content type, and a body that is not JSON. *)
Definition plain_text : Handler.event :=
  Handler.Event (lit "POST") [(lit "Content-Type", lit "text/plain")]
                (Handler.BString (lit "job_title: Engineer")) None.

(** A JSON content type with a parameter, under the capitalised name. *)
Definition json_charset : Handler.event :=
  Handler.Event (lit "POST")
                [(lit "Content-Type", lit "application/json; charset=utf-8")]
                (Handler.BString (lit "job_title: Engineer")) None.

(** A description of two lines in a multipart body. *)
Definition two_lines : str :=
  lit "Build data pipelines." ++ CRLF ++ lit "Five years of experience.".

Definition multipart_two_lines : Handler.event :=
  multipart_request (lit "----FormBoundary7MA4YWxk")
                    (lit "Senior Data Engineer") two_lines.

End Sample.

(* ================================================================== *)
(** ** Vocabulary of the further properties *)

(** The time spent waiting, in ms. *)
Definition total_wait (effects : list effect) : nat := list_sum (waits effects).

(** The inner [try] ends in [return jsonResult]. *)
Definition returned (r : result (option value)) : bool :=
  match r with
  | Ok (Some _) => true
  | _ => false
  end.

(** The outcome of a call makes the iteration return a parsed and validated
    object, in the revision that throws and in the one that degrades. *)
Definition throw_accepts (out : run_result) : bool :=
  match out with
  | RunThrows _ => false
  | RunOutput output => returned (ThrowVariant.try_parse (trim (join output)))
  end.

Definition fallback_accepts (out : run_result) : bool :=
  match out with
  | RunThrows _ => false
  | RunOutput output =>
      returned (FallbackVariant.try_parse (FallbackVariant.clean output))
  end.

(** What the loop leaves behind after at most [maxRetries] attempts: [k]
    attempts followed by their waits, and then either nothing more, all
    attempts being used up and the result [undefined], or one last call, on
    which the function returns or throws. *)
Definition loop_outcome (call : effect) (maxRetries : nat)
    (r : list effect * result value) : Prop :=
  exists k,
    (k = maxRetries /\ fst r = retries call k 1 /\ snd r = Ok VUndefined)
    \/ (k < maxRetries /\ fst r = retries call k 1 ++ [call]
        /\ snd r <> Ok VUndefined).

(** The budget of one request: at most three calls of the model, between
    them the waits of 1000, 2000 and 3000 ms in this order, six seconds of
    waiting at most. *)
Definition within_budget (effects : list effect) : Prop :=
  attempts effects <= 3
  /\ (exists k, k <= 3 /\ waits effects = map (fun a => 1000 * a) (seq 1 k))
  /\ total_wait effects <= 6 * 1000.

(** What every answer of a handler has: the given headers, one of four
    status codes, and no call of the model behind a 400 or a 405. *)
Definition answers_properly (headers : list (str * str))
    (r : list effect * Handler.response) : Prop :=
  Handler.responseHeaders (snd r) = headers
  /\ In (Handler.statusCode (snd r)) [200; 400; 405; 500]
  /\ (Handler.statusCode (snd r) = 400 \/ Handler.statusCode (snd r) = 405 ->
      fst r = []).

(** A field read by the manual multipart parser: [undefined], or a string
    of one line without white space around it. *)
Definition tidy (v : value) : Prop :=
  v = VUndefined \/ exists m, v = VString m /\ ~ In LF m /\ trim m = m.

(** The [application/x-www-form-urlencoded] serialisation of an ASCII
    string: letters, digits and [*-._] stand for themselves, a space is
    written [+], any other byte as a percent escape. *)
Definition is_ascii (s : str) : bool := forallb (fun c => N.ltb c 128) s.

Definition hex_char (n : N) : N := (if n <? 10 then 48 + n else 55 + n)%N.

Definition form_safe (c : N) : bool :=
  between 48 57 c || between 65 90 c || between 97 122 c
  || existsb (N.eqb c) [42; 45; 46; 95]%N.

Definition form_encode_byte (c : N) : list N :=
  if form_safe c then [c]
  else if N.eqb c 32 then [43%N]
  else [37%N; hex_char (c / 16); hex_char (c mod 16)].

Definition form_encode (s : str) : str := flat_map form_encode_byte s.

Definition form_body (title description : str) : str :=
  lit "job_title=" ++ form_encode title
  ++ lit "&job_description=" ++ form_encode description.

(** A response cut off before its closing fence. *)
Definition unterminated (tag text : str) : str :=
  FallbackVariant.BACKTICKS ++ tag ++ [LF] ++ text.

(** Further sample inputs. *)
Module Scenario.

(** A value that does not convert to a string: its own [toString] is not a
    function.  It is what [JSON.parse] makes of [{"toString":0}]. *)
Definition unprintable : value := VObject [(lit "toString", VNumber false 0 0)].

(** A JSON request with that value as job title. *)
Definition unprintable_request : Handler.event :=
  Handler.Event (lit "POST") [(lit "content-type", lit "application/json")]
    (Handler.BString
       (Sample.object_text
          [Sample.member (lit "job_title")
             (Sample.object_text [Sample.member (lit "toString") (lit "0")]);
           Sample.member (lit "job_description") (quoted (lit "x"))]))
    None.

(** A response that leaves [city] out instead of giving it as [null]. *)
Definition without_city : list (str * value) :=
  [(lit "job_title", VString (lit "Senior Data Engineer"));
   (lit "work_arrangement", VString (lit "remote"));
   (lit "experience", VNull)].

(** A model whose every call is rejected. *)
Definition down : oracle := fun _ => RunThrows (lit "Service unavailable").

(** A model that answers in JSON on the second call. *)
Definition second_time_lucky : oracle :=
  fun attempt =>
    match attempt with
    | 1 => RunThrows (lit "Service unavailable")
    | 2 => RunOutput [Sample.good_text]
    | _ => RunOutput [lit "Sorry?"]
    end.

Definition form_request : Handler.event :=
  Handler.Event (lit "POST")
    [(lit "content-type", lit "application/x-www-form-urlencoded")]
    (Handler.BString (form_body (lit "R&D Engineer (C++)") (lit "100% remote = yes")))
    None.

(** An empty JSON object as body, both fields in the query string. *)
Definition query_request : Handler.event :=
  Handler.Event (lit "POST") [(lit "content-type", lit "application/json")]
    (Handler.BString (lit "{}"))
    (Some [(lit "job_title", lit "Engineer");
           (lit "job_description", lit "Remote")]).

(** A multipart content type with a boundary, and no body. *)
Definition multipart_no_body : Handler.event :=
  Handler.Event (lit "POST")
    [(lit "content-type", lit "multipart/form-data; boundary=xyz")]
    Handler.BNull None.

(** A multipart content type without the boundary parameter. *)
Definition multipart_no_boundary : Handler.event :=
  Handler.Event (lit "POST") [(lit "content-type", lit "multipart/form-data")]
    (Handler.BString (multipart_body (lit "xyz") (lit "Engineer") (lit "Remote")))
    None.

(** Busboy reading the two fields of [multipart_two_lines], and busboy
    failing. *)
Definition busboy_reads : Handler.event -> form_result :=
  fun _ => FormFields [(lit "job_title", lit "Senior Data Engineer");
                       (lit "job_description", Sample.two_lines)].

Definition busboy_fails : Handler.event -> form_result :=
  fun _ => FormRejected (lit "Unexpected end of form").

End Scenario.

(* ================================================================== *)
(** * Properties *)

(** ** The embedding on concrete inputs *)

Example trim_both_ends :
  trim (lit "  hybrid ") = lit "hybrid"
  /\ trim (9 :: 160 :: lit "a b" ++ [CR; LF; 8232; 65279])%N = lit "a b".
Proof. split; reflexivity. Qed.

Example split_on_separator :
  split (lit "ab") (lit "xabyabab") = [lit "x"; lit "y"; []; []]
  /\ split (lit "aa") (lit "aaa") = [[]; lit "a"]
  /\ split (lit "boundary=") (lit "multipart/form-data") =
     [lit "multipart/form-data"].
Proof. repeat split; reflexivity. Qed.

Example parse_object :
  JSON_parse (lit " { " ++ quoted (lit "a\n\u0041") ++ lit " : [1, -2.50e3, true, {}, null] } ") =
  Some (VObject [(lit "a" ++ [LF] ++ lit "A",
                  VArray [VNumber false 1 0; VNumber true 250 1; VBool true;
                          VObject []; VNull])]).
Proof. vm_compute. reflexivity. Qed.

Example parse_errors :
  map JSON_parse
      [lit ""; lit "01"; lit "[1,]"; lit "{,}"; lit "nul"; lit "1."; lit "+1";
       lit "{} x"; DQ :: lit "a"; lit "[object Object]"; lit "undefined"] =
  repeat None 11.
Proof. vm_compute. reflexivity. Qed.

Example parse_last_member_wins :
  option_map (fun v => get v (lit "a"))
             (JSON_parse (lit "{" ++ quoted (lit "a") ++ lit ":1,"
                          ++ quoted (lit "a") ++ lit ":2}")) =
  Some (Ok (VNumber false 2 0)).
Proof. vm_compute. reflexivity. Qed.

Example number_truthiness :
  map (fun t => option_map truthy (JSON_parse (lit t)))
      ["0"; "-0.0"; "0e5"; "1e-400"; "5e-324"; "7"]%string =
  [Some false; Some false; Some false; Some false; Some true; Some true].
Proof. vm_compute. reflexivity. Qed.

Example url_encoded_fields :
  let params :=
    URLSearchParams (lit "job_title=Senior+Engineer&job_description=R%26D%20%E2%82%AC&x") in
  params_get params (lit "job_title") = VString (lit "Senior Engineer")
  /\ params_get params (lit "job_description") = VString (lit "R&D " ++ [8364%N])
  /\ params_get params (lit "x") = VString []
  /\ params_get params (lit "y") = VNull.
Proof. vm_compute. repeat split; reflexivity. Qed.

Example field_pattern :
  match_group1 (Handler.re_field Handler.name_job_title)
               (lit "form-data; " ++ Handler.name_job_title
                ++ [CR; LF; CR; LF] ++ lit " Data Engineer " ++ [CR; LF]
                ++ lit "second line") =
  Some (lit " Data Engineer ")
  /\ match_group1 (Handler.re_field Handler.name_job_title)
                  (Handler.name_job_title ++ [LF; LF] ++ lit "Engineer") =
     Some (lit "Engineer")
  /\ match_group1 (Handler.re_field Handler.name_job_title)
                  (Handler.name_job_title ++ [LF] ++ lit "Engineer") =
     None.
Proof. vm_compute. repeat split; reflexivity. Qed.

Example strip_fences :
  FallbackVariant.clean [lit "```json"; [LF]; lit "{}"; [LF]; lit "```"; [LF]] =
    lit "{}"
  /\ FallbackVariant.clean [lit "``` {} ```"] = lit "{}"
  /\ FallbackVariant.clean [lit " {} "] = lit "{}".
Proof. vm_compute. repeat split; reflexivity. Qed.

(** ** Strings *)

Lemma eqb_eq (a b : str) : Str.eqb a b = true <-> a = b.
Proof.
  revert b; induction a as [|x a IH]; intros [|y b]; simpl;
    try (split; [discriminate | congruence]); try tauto.
  rewrite andb_true_iff, N.eqb_eq, IH.
  split; [intros [-> ->]; reflexivity | intros H; inversion H; auto].
Qed.

Lemma eqb_refl (a : str) : Str.eqb a a = true.
Proof. apply eqb_eq; reflexivity. Qed.

Lemma existsb_eqb_In (s : str) (l : list str) :
  existsb (Str.eqb s) l = true -> In s l.
Proof.
  intros H; apply existsb_exists in H as (x & Hin & Heq).
  apply eqb_eq in Heq; subst; assumption.
Qed.

(** Case analysis on the condition of an [if] of the goal. *)
Ltac case_if :=
  match goal with
  | |- context [if ?b then _ else _] =>
      match type of b with
      | bool => destruct b eqn:?
      end
  end.

(** ** JSON.parse: the fuel is enough, and the value is never [undefined] *)

Lemma skip_ws_length (s : str) : length (skip_ws s) <= length s.
Proof.
  induction s as [|c s IH]; simpl; [lia|].
  destruct (is_json_ws c); simpl; lia.
Qed.

Lemma consumes_weaken {A : Type} (r : pres A) (s s' : str) :
  consumes r s -> length s <= length s' -> consumes r s'.
Proof. destruct r; simpl; lia. Qed.

Lemma cons_ok_consumes (x : char) (r : pres str) (s s' : str) :
  consumes r s -> length s <= length s' -> consumes (cons_ok x r) s'.
Proof. destruct r; simpl; lia. Qed.

Lemma parse_string_cons (c : char) (s : str) :
  parse_string (c :: s) =
  if N.eqb c DQ then POk [] s
  else if N.ltb c 32 then PErr
  else if N.eqb c (ch "\") then
    match s with
    | [] => PErr
    | e :: s'' =>
        if N.eqb e (ch "u") then
          match s'' with
          | h1 :: h2 :: h3 :: h4 :: s4 =>
              match hex4 h1 h2 h3 h4 with
              | Some x => cons_ok x (parse_string s4)
              | None => PErr
              end
          | _ => PErr
          end
        else
          match simple_escape e with
          | Some x => cons_ok x (parse_string s'')
          | None => PErr
          end
    end
  else cons_ok c (parse_string s).
Proof. reflexivity. Qed.

Lemma parse_string_consumes (s : str) : consumes (parse_string s) s.
Proof.
  assert (H : forall n s, length s <= n -> consumes (parse_string s) s).
  { clear s. induction n as [|n IH]; intros [|c s] Hlen;
      try exact I; try (simpl in Hlen; lia).
    rewrite parse_string_cons. simpl in Hlen.
    destruct (N.eqb c DQ); [simpl; lia|].
    destruct (N.ltb c 32); [exact I|].
    destruct (N.eqb c (ch "\")).
    - destruct s as [|e s]; [exact I|].
      destruct (N.eqb e (ch "u")).
      + destruct s as [|h1 [|h2 [|h3 [|h4 s]]]]; try exact I.
        destruct (hex4 h1 h2 h3 h4); [|exact I].
        apply cons_ok_consumes with (s := s); [apply IH|]; simpl in *; lia.
      + destruct (simple_escape e); [|exact I].
        apply cons_ok_consumes with (s := s); [apply IH|]; simpl in *; lia.
    - apply cons_ok_consumes with (s := s); [apply IH|]; simpl in *; lia. }
  apply (H (length s)); lia.
Qed.

Lemma digits_length (s : str) (acc : N) (n : nat) :
  length (snd (digits acc n s)) <= length s.
Proof.
  revert acc n; induction s as [|c s IH]; intros acc n; simpl; [lia|].
  destruct (is_digit c); simpl; [|lia].
  specialize (IH (acc * 10 + (c - 48))%N (S n)). lia.
Qed.

Lemma read_sign_length (s : str) : length (snd (read_sign s)) <= length s.
Proof.
  destruct s as [|c s]; unfold read_sign; [simpl; lia|].
  case_if; simpl; lia.
Qed.

Lemma read_int_length (s : str) (m : N) (r : str) :
  read_int s = Some (m, r) -> length r < length s.
Proof.
  destruct s as [|c s]; unfold read_int; [discriminate|].
  case_if; [intros H; injection H as _ <-; simpl; lia|].
  case_if; [|discriminate].
  pose proof (digits_length (c :: s) 0 0) as Hlen.
  assert (Hstep : digits 0 0 (c :: s) = digits (0 * 10 + (c - 48))%N 1 s)
    by (simpl; rewrite Heqb0; reflexivity).
  pose proof (digits_length s (0 * 10 + (c - 48))%N 1) as Hlen'.
  rewrite Hstep. destruct (digits _ 1 s) as [[m' k] r'].
  intros H; injection H as _ <-. simpl in *; lia.
Qed.

Lemma read_frac_length (m : N) (s : str) (m' : N) (k : nat) (r : str) :
  read_frac m s = Some (m', k, r) -> length r <= length s.
Proof.
  destruct s as [|c s]; unfold read_frac;
    [intros H; injection H as _ _ <-; lia|].
  case_if; [|intros H; injection H as _ _ <-; lia].
  pose proof (digits_length s m 0) as Hlen.
  destruct (digits m 0 s) as [[m'' k'] r'].
  destruct k'; [discriminate|].
  intros H; injection H as _ _ <-. simpl in *; lia.
Qed.

Lemma read_exp_length (s : str) (x : Z) (r : str) :
  read_exp s = Some (x, r) -> length r <= length s.
Proof.
  destruct s as [|c s]; unfold read_exp;
    [intros H; injection H as _ <-; lia|].
  case_if; [|intros H; injection H as _ <-; lia].
  set (signed := match s with [] => _ | _ :: _ => _ end).
  assert (Hsigned : length (snd signed) <= length s).
  { subst signed. destruct s as [|d s]; [simpl; lia|].
    repeat case_if; simpl; lia. }
  destruct signed as [eneg s4].
  pose proof (digits_length s4 0 0) as Hlen.
  destruct (digits 0 0 s4) as [[x' k'] r'].
  destruct k'; [discriminate|].
  intros H; injection H as _ <-. simpl in *; lia.
Qed.

Lemma parse_number_consumes (s : str) : consumes (parse_number s) s.
Proof.
  unfold parse_number.
  pose proof (read_sign_length s) as Hsign.
  destruct (read_sign s) as [neg s1].
  destruct (read_int s1) as [[m s2]|] eqn:Hint; [|exact I].
  apply read_int_length in Hint.
  destruct (read_frac m s2) as [[[m' k] s3]|] eqn:Hfrac; [|exact I].
  apply read_frac_length in Hfrac.
  destruct (read_exp s3) as [[x s5]|] eqn:Hexp; [|exact I].
  apply read_exp_length in Hexp.
  simpl in *; lia.
Qed.

Lemma parse_number_is_number (s : str) (v : value) (r : str) :
  parse_number s = POk v r -> exists neg m e, v = VNumber neg m e.
Proof.
  unfold parse_number.
  destruct (read_sign s) as [neg s1].
  destruct (read_int s1) as [[m s2]|]; [|discriminate].
  destruct (read_frac m s2) as [[[m' k] s3]|]; [|discriminate].
  destruct (read_exp s3) as [[x s5]|]; [|discriminate].
  intros H; injection H as <- _. do 3 eexists; reflexivity.
Qed.

Lemma value_step_consumes (members elements : str -> pres value) (s : str) :
  (forall s', length s' < length s -> consumes (members s') s') ->
  (forall s', length s' < length s -> consumes (elements s') s') ->
  consumes (value_step members elements s) s.
Proof.
  intros Hmembers Helements. unfold value_step.
  pose proof (skip_ws_length s) as Hws.
  destruct (skip_ws s) as [|c s1]; [exact I|]. simpl in Hws.
  pose proof (skip_ws_length s1) as Hws1.
  case_if.
  { destruct (skip_ws s1) as [|d s2] eqn:Hs1; [exact I|]. simpl in Hws1.
    case_if; [simpl; lia|].
    eapply consumes_weaken; [apply Hmembers|]; simpl; lia. }
  case_if.
  { destruct (skip_ws s1) as [|d s2] eqn:Hs1; [exact I|]. simpl in Hws1.
    case_if; [simpl; lia|].
    eapply consumes_weaken; [apply Helements|]; simpl; lia. }
  case_if.
  { pose proof (parse_string_consumes s1) as Hstr.
    destruct (parse_string s1); simpl in *; try exact I; lia. }
  case_if.
  { eapply consumes_weaken; [apply parse_number_consumes|]; simpl; lia. }
  pose proof (length_skipn 4 (c :: s1)) as H4.
  pose proof (length_skipn 5 (c :: s1)) as H5.
  repeat case_if; simpl consumes; simpl length in *; try exact I; lia.
Qed.

Lemma elements_step_consumes (element : str -> pres value)
    (more : str -> list value -> pres value) (s : str) (acc : list value) :
  consumes (element s) s ->
  (forall r' acc', length r' + 2 <= length s -> consumes (more r' acc') r') ->
  consumes (elements_step element more s acc) s.
Proof.
  intros Helement Hmore. unfold elements_step.
  destruct (element s) as [v r| |]; simpl in Helement; try assumption.
  pose proof (skip_ws_length r) as Hws.
  destruct (skip_ws r) as [|c r']; [exact I|]. simpl in Hws.
  case_if; [eapply consumes_weaken; [apply Hmore|]; lia|].
  case_if; simpl; try exact I; lia.
Qed.

Lemma members_step_consumes (element : str -> pres value)
    (more : str -> list (str * value) -> pres value)
    (s : str) (acc : list (str * value)) :
  (forall s3, length s3 + 2 <= length s -> consumes (element s3) s3) ->
  (forall r' acc', length r' + 2 <= length s -> consumes (more r' acc') r') ->
  consumes (members_step element more s acc) s.
Proof.
  intros Helement Hmore. unfold members_step.
  pose proof (skip_ws_length s) as Hws.
  destruct (skip_ws s) as [|q s1]; [exact I|]. simpl in Hws.
  case_if; [|exact I].
  pose proof (parse_string_consumes s1) as Hstr.
  destruct (parse_string s1) as [k s2| |]; simpl in Hstr; try assumption.
  pose proof (skip_ws_length s2) as Hws2.
  destruct (skip_ws s2) as [|c s3]; [exact I|]. simpl in Hws2.
  case_if; [|exact I].
  assert (Hv : consumes (element s3) s3) by (apply Helement; lia).
  destruct (element s3) as [v r| |]; simpl in Hv; try assumption.
  pose proof (skip_ws_length r) as Hwsr.
  destruct (skip_ws r) as [|d r']; [exact I|]. simpl in Hwsr.
  case_if; [eapply consumes_weaken; [apply Hmore|]; lia|].
  case_if; simpl; try exact I; lia.
Qed.

Lemma parse_consumes (fuel : nat) :
  (forall s, 2 * length s + 1 <= fuel -> consumes (parse_value fuel s) s) /\
  (forall s acc, 2 * length s + 2 <= fuel ->
                 consumes (parse_elements fuel s acc) s) /\
  (forall s acc, 2 * length s + 2 <= fuel ->
                 consumes (parse_members fuel s acc) s).
Proof.
  induction fuel as [|f (IHvalue & IHelements & IHmembers)];
    [repeat split; intros; lia|].
  repeat split.
  - intros s Hfuel. simpl.
    apply value_step_consumes; intros s' Hlen;
      [apply IHmembers | apply IHelements]; lia.
  - intros s acc Hfuel. simpl.
    apply elements_step_consumes; [apply IHvalue; lia|].
    intros r' acc' Hlen. apply IHelements; lia.
  - intros s acc Hfuel. simpl.
    apply members_step_consumes; intros; [apply IHvalue | apply IHmembers]; lia.
Qed.

(** [JSON_parse] never runs out of fuel: its [None] is a syntax error. *)
Lemma parse_value_fuel (text : str) :
  parse_value (2 * length text + 1) text <> PFuel.
Proof.
  pose proof (proj1 (parse_consumes (2 * length text + 1)) text (le_n _)) as H.
  intros Hfuel. rewrite Hfuel in H. exact H.
Qed.

Lemma value_step_defined (members elements : str -> pres value) (s : str) :
  (forall s', defined (members s')) ->
  (forall s', defined (elements s')) ->
  defined (value_step members elements s).
Proof.
  intros Hmembers Helements. unfold value_step.
  destruct (skip_ws s) as [|c s1]; [exact I|].
  case_if.
  { destruct (skip_ws s1) as [|d s2]; [exact I|].
    case_if; [discriminate|apply Hmembers]. }
  case_if.
  { destruct (skip_ws s1) as [|d s2]; [exact I|].
    case_if; [discriminate|apply Helements]. }
  case_if.
  { destruct (parse_string s1); simpl; try exact I; discriminate. }
  case_if.
  { destruct (parse_number (c :: s1)) as [v r| |] eqn:Hn; try exact I.
    apply parse_number_is_number in Hn as (neg & m & e & ->). discriminate. }
  repeat case_if; simpl; try exact I; discriminate.
Qed.

Lemma parse_defined (fuel : nat) :
  (forall s, defined (parse_value fuel s)) /\
  (forall s acc, defined (parse_elements fuel s acc)) /\
  (forall s acc, defined (parse_members fuel s acc)).
Proof.
  induction fuel as [|f (IHvalue & IHelements & IHmembers)];
    [repeat split; intros; exact I|].
  repeat split.
  - intros s. simpl. apply value_step_defined; auto.
  - intros s acc. simpl. unfold elements_step.
    destruct (parse_value f s) as [v r| |]; try exact I.
    destruct (skip_ws r) as [|c r']; [exact I|].
    case_if; [apply IHelements|].
    case_if; simpl; [discriminate|exact I].
  - intros s acc. simpl. unfold members_step.
    destruct (skip_ws s) as [|q s1]; [exact I|].
    case_if; [|exact I].
    destruct (parse_string s1) as [k s2| |]; try exact I.
    destruct (skip_ws s2) as [|c s3]; [exact I|].
    case_if; [|exact I].
    destruct (parse_value f s3) as [v r| |]; try exact I.
    destruct (skip_ws r) as [|d r']; [exact I|].
    case_if; [apply IHmembers|].
    case_if; simpl; [discriminate|exact I].
Qed.

Lemma JSON_parse_defined (text : str) : JSON_parse text <> Some VUndefined.
Proof.
  unfold JSON_parse.
  pose proof (proj1 (parse_defined (2 * length text + 1)) text) as H.
  destruct (parse_value _ text) as [v r| |]; try discriminate.
  destruct (skip_ws r); [|discriminate].
  simpl in H. congruence.
Qed.

(** ** The retry loop *)

Section RetryLoop.

Variable call : effect.
Variable body : nat -> result (option value).

Lemma retry_loop_attempts (remaining attempt : nat) :
  attempts (fst (retry_loop call body remaining attempt)) <= remaining.
Proof.
  revert attempt; induction remaining as [|n IH]; intros attempt; simpl.
  - lia.
  - specialize (IH (S attempt)).
    destruct (body attempt) as [[v|]|e];
      [| destruct (retry_loop call body n (S attempt)) as [effects r] |];
      destruct call; simpl in *; lia.
Qed.

(** [k] iterations that fall through to the wait. *)
Lemma retry_loop_retries (k remaining attempt : nat) :
  (forall a, attempt <= a < attempt + k -> body a = Ok None) ->
  retry_loop call body (k + remaining) attempt =
  (retries call k attempt ++ fst (retry_loop call body remaining (attempt + k)),
   snd (retry_loop call body remaining (attempt + k))).
Proof.
  revert attempt; induction k as [|k IH]; intros attempt Hfail; simpl.
  - rewrite Nat.add_0_r. destruct (retry_loop _ _ _ _); reflexivity.
  - rewrite (Hfail attempt) by lia.
    rewrite (IH (S attempt)) by (intros a Ha; apply Hfail; lia).
    replace (S attempt + k) with (attempt + S k) by lia.
    reflexivity.
Qed.

Lemma retry_loop_all_retries (n attempt : nat) :
  (forall a, attempt <= a < attempt + n -> body a = Ok None) ->
  retry_loop call body n attempt = (retries call n attempt, Ok VUndefined).
Proof.
  intros Hfail.
  replace n with (n + 0) at 1 by lia.
  rewrite retry_loop_retries by assumption.
  simpl. rewrite app_nil_r. reflexivity.
Qed.

(** The loop only looks at the iterations it runs. *)
Lemma retry_loop_ext (body' : nat -> result (option value))
    (remaining attempt : nat) :
  (forall a, attempt <= a < attempt + remaining -> body a = body' a) ->
  retry_loop call body remaining attempt =
  retry_loop call body' remaining attempt.
Proof.
  revert attempt; induction remaining as [|n IH]; intros attempt Heq; simpl.
  - reflexivity.
  - rewrite <- (Heq attempt) by lia.
    rewrite (IH (S attempt)) by (intros a Ha; apply Heq; lia).
    reflexivity.
Qed.

End RetryLoop.

Lemma attempts_app (e1 e2 : list effect) :
  attempts (e1 ++ e2) = attempts e1 + attempts e2.
Proof.
  induction e1 as [|[m t d|ms] e1 IH]; simpl; rewrite ?IH; reflexivity.
Qed.

Lemma attempts_retries (call : effect) (k attempt : nat) :
  (exists m t d, call = Run m t d) ->
  attempts (retries call k attempt) = k.
Proof.
  intros (m & t & d & ->).
  revert attempt; induction k as [|k IH]; intros attempt; simpl;
    [|rewrite IH]; reflexivity.
Qed.

Lemma waits_app (e1 e2 : list effect) :
  waits (e1 ++ e2) = waits e1 ++ waits e2.
Proof.
  induction e1 as [|[m t d|ms] e1 IH]; simpl; rewrite ?IH; reflexivity.
Qed.

Lemma waits_retries (m : str) (t d : value) (k attempt : nat) :
  waits (retries (Run m t d) k attempt) =
  map (fun a => 1000 * a) (seq attempt k).
Proof.
  revert attempt; induction k as [|k IH]; intros attempt; simpl;
    [|rewrite IH]; reflexivity.
Qed.

(** ** The prompt *)

Lemma throw_extract_loop (run : oracle) (jobTitle jobDescription : value)
    (maxRetries : nat) :
  stringifies jobTitle = true ->
  stringifies jobDescription = true ->
  ThrowVariant.extractJobDetailsWithRetry run jobTitle jobDescription maxRetries =
  ThrowVariant.attempt_loop run jobTitle jobDescription maxRetries.
Proof.
  intros Ht Hd. unfold ThrowVariant.extractJobDetailsWithRetry.
  rewrite Ht, Hd. reflexivity.
Qed.

Lemma fallback_extract_loop (run : oracle) (jobTitle jobDescription : value)
    (maxRetries : nat) :
  stringifies jobTitle = true ->
  stringifies jobDescription = true ->
  FallbackVariant.extractJobDetailsWithRetry run jobTitle jobDescription maxRetries =
  FallbackVariant.attempt_loop run jobTitle jobDescription maxRetries.
Proof.
  intros Ht Hd. unfold FallbackVariant.extractJobDetailsWithRetry.
  rewrite Ht, Hd. reflexivity.
Qed.

(** Without a prompt there is no call. *)
Lemma throw_extract_no_prompt (run : oracle) (jobTitle jobDescription : value)
    (maxRetries : nat) :
  stringifies jobTitle && stringifies jobDescription = false ->
  ThrowVariant.extractJobDetailsWithRetry run jobTitle jobDescription maxRetries =
  ([], Throw TypeError).
Proof.
  intros H. unfold ThrowVariant.extractJobDetailsWithRetry.
  rewrite H. reflexivity.
Qed.

Lemma fallback_extract_no_prompt (run : oracle) (jobTitle jobDescription : value)
    (maxRetries : nat) :
  stringifies jobTitle && stringifies jobDescription = false ->
  FallbackVariant.extractJobDetailsWithRetry run jobTitle jobDescription maxRetries =
  ([], Throw TypeError).
Proof.
  intros H. unfold FallbackVariant.extractJobDetailsWithRetry.
  rewrite H. reflexivity.
Qed.

Lemma throw_extract_attempts (run : oracle) (jobTitle jobDescription : value)
    (maxRetries : nat) :
  attempts (fst (ThrowVariant.extractJobDetailsWithRetry
                   run jobTitle jobDescription maxRetries)) <= maxRetries.
Proof.
  unfold ThrowVariant.extractJobDetailsWithRetry.
  destruct (stringifies jobTitle && stringifies jobDescription);
    [apply retry_loop_attempts|apply Nat.le_0_l].
Qed.

Lemma fallback_extract_attempts (run : oracle) (jobTitle jobDescription : value)
    (maxRetries : nat) :
  attempts (fst (FallbackVariant.extractJobDetailsWithRetry
                   run jobTitle jobDescription maxRetries)) <= maxRetries.
Proof.
  unfold FallbackVariant.extractJobDetailsWithRetry.
  destruct (stringifies jobTitle && stringifies jobDescription);
    [apply retry_loop_attempts|apply Nat.le_0_l].
Qed.

(** What the function returns, the loop has returned. *)
Lemma throw_extract_ok (run : oracle) (jobTitle jobDescription : value)
    (maxRetries : nat) (v : value) :
  snd (ThrowVariant.extractJobDetailsWithRetry
         run jobTitle jobDescription maxRetries) = Ok v ->
  snd (ThrowVariant.attempt_loop run jobTitle jobDescription maxRetries) = Ok v.
Proof.
  unfold ThrowVariant.extractJobDetailsWithRetry.
  destruct (stringifies jobTitle && stringifies jobDescription);
    [auto|discriminate].
Qed.

Lemma fallback_extract_ok (run : oracle) (jobTitle jobDescription : value)
    (maxRetries : nat) (v : value) :
  snd (FallbackVariant.extractJobDetailsWithRetry
         run jobTitle jobDescription maxRetries) = Ok v ->
  snd (FallbackVariant.attempt_loop run jobTitle jobDescription maxRetries) = Ok v.
Proof.
  unfold FallbackVariant.extractJobDetailsWithRetry.
  destruct (stringifies jobTitle && stringifies jobDescription);
    [auto|discriminate].
Qed.

(** ** Validation of the parsed response *)

Lemma enum_or_null_spec (allowed : list str) (v : value) :
  is_null v || includes_value allowed v = true -> enum_or_null allowed v.
Proof.
  destruct v; simpl; try discriminate.
  - left; reflexivity.
  - intros H; right; eexists; split; [reflexivity|].
    apply existsb_eqb_In; assumption.
Qed.

Lemma get_total (v : value) (k k' : str) (x : value) :
  get v k = Ok x -> exists y, get v k' = Ok y.
Proof.
  destruct v; simpl; try discriminate; intros _;
    try (eexists; reflexivity).
  destruct (lookup k' fields); eexists; reflexivity.
Qed.

Lemma uppercase_not_arrangement (s : str) :
  has_uppercase s = true -> includes_value work_arrangements (VString s) = false.
Proof.
  intros Hup. unfold includes_value.
  destruct (existsb (Str.eqb s) work_arrangements) eqn:Hin; [|reflexivity].
  apply existsb_eqb_In in Hin.
  destruct Hin as [<-|[<-|[<-|[]]]]; vm_compute in Hup; discriminate.
Qed.

Lemma throw_validate_enumerated (v : value) :
  ThrowVariant.validate v = Ok true -> enumerated v.
Proof.
  unfold ThrowVariant.validate, Js.bind, enumerated.
  destruct (get v (lit "job_title")) as [jt|]; [|discriminate].
  destruct (get v (lit "city")) as [city|]; [|discriminate].
  destruct (get v (lit "work_arrangement")) as [wa|]; [|discriminate].
  destruct (get v (lit "experience")) as [ex|]; [|discriminate].
  intros H; injection H as H.
  repeat (apply andb_true_iff in H as [H ?]).
  exists wa, ex; repeat split; auto using enum_or_null_spec.
Qed.

Lemma fallback_validate_enumerated (v : value) :
  FallbackVariant.validate v = Ok true -> enumerated v.
Proof.
  unfold FallbackVariant.validate, Js.bind, enumerated.
  destruct (get v (lit "job_title")) as [jt|]; [|discriminate].
  destruct (get v (lit "city")) as [city|]; [|discriminate].
  destruct (get v (lit "work_arrangement")) as [wa|]; [|discriminate].
  destruct (get v (lit "company")) as [co|]; [|discriminate].
  destruct (get v (lit "experience")) as [ex|]; [|discriminate].
  intros H; injection H as H.
  repeat (apply andb_true_iff in H as [H ?]).
  exists wa, ex; repeat split; auto using enum_or_null_spec.
Qed.

Lemma throw_validate_uppercase (v : value) (s : str) :
  get v (lit "work_arrangement") = Ok (VString s) ->
  has_uppercase s = true ->
  ThrowVariant.validate v = Ok false.
Proof.
  intros Hwa Hup. unfold ThrowVariant.validate, Js.bind.
  destruct (@get_total v _ (lit "job_title") _ Hwa) as [jt ->].
  destruct (@get_total v _ (lit "city") _ Hwa) as [city ->].
  destruct (@get_total v _ (lit "experience") _ Hwa) as [ex ->].
  rewrite Hwa, (uppercase_not_arrangement _ Hup). simpl is_null.
  rewrite orb_false_r, andb_false_r. reflexivity.
Qed.

Lemma fallback_validate_uppercase (v : value) (s : str) :
  get v (lit "work_arrangement") = Ok (VString s) ->
  has_uppercase s = true ->
  FallbackVariant.validate v = Ok false.
Proof.
  intros Hwa Hup. unfold FallbackVariant.validate, Js.bind.
  destruct (@get_total v _ (lit "job_title") _ Hwa) as [jt ->].
  destruct (@get_total v _ (lit "city") _ Hwa) as [city ->].
  destruct (@get_total v _ (lit "company") _ Hwa) as [co ->].
  destruct (@get_total v _ (lit "experience") _ Hwa) as [ex ->].
  rewrite Hwa, (uppercase_not_arrangement _ Hup). simpl is_null.
  rewrite orb_false_r, andb_false_r. reflexivity.
Qed.

Lemma throw_try_parse_enumerated (text : str) (v : value) :
  ThrowVariant.try_parse text = Ok (Some v) -> enumerated v.
Proof.
  unfold ThrowVariant.try_parse.
  destruct (JSON_parse text) as [j|]; [|discriminate].
  destruct (ThrowVariant.validate j) as [[|]|] eqn:Hv; simpl; try discriminate.
  intros H; injection H as <-. apply throw_validate_enumerated; assumption.
Qed.

Lemma fallback_try_parse_enumerated (text : str) (v : value) :
  FallbackVariant.try_parse text = Ok (Some v) -> enumerated v.
Proof.
  unfold FallbackVariant.try_parse.
  destruct (JSON_parse text) as [j|]; [|discriminate].
  destruct (FallbackVariant.validate j) as [[|]|] eqn:Hv; simpl; try discriminate.
  intros H; injection H as <-. apply fallback_validate_enumerated; assumption.
Qed.

Lemma fallback_record_enumerated (jobTitle : value) (error : str) :
  enumerated (FallbackVariant.fallback jobTitle error).
Proof.
  exists VNull, VNull; repeat split; try (left; reflexivity).
Qed.

(** ** One iteration, by outcome *)

Lemma throw_body_invalid_json (maxRetries attempt : nat) (output : list str) :
  JSON_parse (trim (join output)) = None ->
  ThrowVariant.attempt_body maxRetries attempt (RunOutput output) =
  if Nat.eqb attempt maxRetries
  then Throw (Error (ThrowVariant.failure_message maxRetries (trim (join output))))
  else Ok None.
Proof.
  intros Hparse.
  unfold ThrowVariant.attempt_body, ThrowVariant.parse_or_retry,
    ThrowVariant.try_parse.
  rewrite Hparse.
  destruct (Nat.eqb attempt maxRetries); reflexivity.
Qed.

Lemma throw_body_valid (maxRetries attempt : nat) (output : list str) (v : value) :
  JSON_parse (trim (join output)) = Some v ->
  ThrowVariant.validate v = Ok true ->
  ThrowVariant.attempt_body maxRetries attempt (RunOutput output) = Ok (Some v).
Proof.
  intros Hparse Hvalid.
  unfold ThrowVariant.attempt_body, ThrowVariant.parse_or_retry,
    ThrowVariant.try_parse.
  rewrite Hparse, Hvalid. reflexivity.
Qed.

Lemma throw_body_rejected (maxRetries attempt : nat) (output : list str) (v : value) :
  JSON_parse (trim (join output)) = Some v ->
  ThrowVariant.validate v = Ok false ->
  ThrowVariant.attempt_body maxRetries attempt (RunOutput output) = Ok None.
Proof.
  intros Hparse Hvalid.
  unfold ThrowVariant.attempt_body, ThrowVariant.parse_or_retry,
    ThrowVariant.try_parse.
  rewrite Hparse, Hvalid. reflexivity.
Qed.

Lemma fallback_body_invalid_json (jobTitle : value) (maxRetries attempt : nat)
    (output : list str) :
  JSON_parse (FallbackVariant.clean output) = None ->
  FallbackVariant.attempt_body jobTitle maxRetries attempt (RunOutput output) =
  if Nat.eqb attempt maxRetries
  then Some (FallbackVariant.fallback jobTitle
               (lit "Failed to parse AI response as JSON"))
  else None.
Proof.
  intros Hparse.
  unfold FallbackVariant.attempt_body, FallbackVariant.parse_or_retry,
    FallbackVariant.try_parse.
  rewrite Hparse. reflexivity.
Qed.

(** The effects of an exhausted loop. *)
Lemma attempts_exhausted (m : str) (t d : value) (n : nat) :
  1 <= n -> attempts (exhausted (Run m t d) n) = n.
Proof.
  intros Hn. unfold exhausted.
  rewrite attempts_app, attempts_retries by (do 3 eexists; reflexivity).
  simpl. lia.
Qed.

Lemma waits_exhausted (m : str) (t d : value) (n : nat) :
  waits (exhausted (Run m t d) n) = map (fun a => 1000 * a) (seq 1 (n - 1)).
Proof.
  unfold exhausted. rewrite waits_app, waits_retries. simpl.
  apply app_nil_r.
Qed.

(** A loop whose iterations all fall through, except the last, which leaves
    the function. *)
Lemma retry_loop_exhausted (call : effect) (body : nat -> result (option value))
    (n : nat) (r : result value) :
  1 <= n ->
  (forall a, 1 <= a < n -> body a = Ok None) ->
  (match body n with
   | Ok (Some v) => Ok v
   | Ok None => r
   | Throw e => Throw e
   end = r /\ body n <> Ok None) ->
  retry_loop call body n 1 = (exhausted call n, r).
Proof.
  intros Hn Hfail [Hlast Hleave].
  replace n with ((n - 1) + 1) at 1 by lia.
  rewrite retry_loop_retries by (intros a Ha; apply Hfail; lia).
  replace (1 + (n - 1)) with n by lia.
  unfold exhausted. simpl.
  destruct (body n) as [[v|]|e]; try congruence; subst r; reflexivity.
Qed.

(** C1: whatever the model answers, [extractJobDetailsWithRetry] calls it at
    most [maxRetries] times, in the revision that throws and in the one that
    degrades.  When [maxRetries >= 1], the prompt can be built (the job title
    and the job description convert to strings, as every string does) and
    every response fails to parse as JSON, the loop makes exactly
    [maxRetries] attempts, waits [1000 * attempt] ms after each attempt but
    the last, and ends with the exhaustion policy of its revision: the error
    "Failed to extract valid JSON after [maxRetries] attempts. Last
    response: ..." is thrown, or the record with [job_title] echoed, the
    other fields [null] and the [error] "Failed to parse AI response as
    JSON" is returned. *)
Theorem extract_attempts_bounded
    (run : oracle) (jobTitle jobDescription : value) (maxRetries : nat) :
  let throwing :=
    ThrowVariant.extractJobDetailsWithRetry run jobTitle jobDescription maxRetries in
  let degrading :=
    FallbackVariant.extractJobDetailsWithRetry run jobTitle jobDescription maxRetries in
  attempts (fst throwing) <= maxRetries /\
  attempts (fst degrading) <= maxRetries /\
  (1 <= maxRetries ->
   stringifies jobTitle = true ->
   stringifies jobDescription = true ->
   forall responses : nat -> list str,
     (forall a, 1 <= a <= maxRetries -> run a = RunOutput (responses a)) ->
     ((forall a, 1 <= a <= maxRetries ->
                 JSON_parse (trim (join (responses a))) = None) ->
      attempts (fst throwing) = maxRetries /\
      waits (fst throwing) = map (fun a => 1000 * a) (seq 1 (maxRetries - 1)) /\
      snd throwing =
        Throw (Error (lit "Failed to extract valid JSON after "
                      ++ Str.of_nat maxRetries
                      ++ lit " attempts. Last response: "
                      ++ trim (join (responses maxRetries))))) /\
     ((forall a, 1 <= a <= maxRetries ->
                 JSON_parse (FallbackVariant.clean (responses a)) = None) ->
      attempts (fst degrading) = maxRetries /\
      waits (fst degrading) = map (fun a => 1000 * a) (seq 1 (maxRetries - 1)) /\
      snd degrading =
        Ok (VObject
              [(lit "job_title", jobTitle);
               (lit "city", VNull);
               (lit "work_arrangement", VNull);
               (lit "company", VNull);
               (lit "experience", VNull);
               (lit "error",
                VString (lit "Failed to parse AI response as JSON"))]))).
Proof.
  intros throwing degrading.
  split; [apply throw_extract_attempts|].
  split; [apply fallback_extract_attempts|].
  intros Hn Ht Hd responses Hrun. split; intros Hbad.
  - assert (Hloop : throwing =
      (exhausted (Run ThrowVariant.model jobTitle jobDescription) maxRetries,
       Throw (Error (ThrowVariant.failure_message maxRetries
                       (trim (join (responses maxRetries))))))).
    { unfold throwing. rewrite throw_extract_loop by assumption.
      apply retry_loop_exhausted; [assumption| |].
      - intros a Ha. rewrite Hrun, throw_body_invalid_json by (try apply Hbad; lia).
        replace (Nat.eqb a maxRetries) with false
          by (symmetry; apply Nat.eqb_neq; lia).
        reflexivity.
      - rewrite Hrun, throw_body_invalid_json by (try apply Hbad; lia).
        rewrite Nat.eqb_refl. split; [reflexivity|discriminate]. }
    rewrite Hloop. simpl fst; simpl snd.
    rewrite attempts_exhausted, waits_exhausted by assumption. auto.
  - assert (Hloop : degrading =
      (exhausted (Run FallbackVariant.model jobTitle jobDescription) maxRetries,
       Ok (FallbackVariant.fallback jobTitle
             (lit "Failed to parse AI response as JSON")))).
    { unfold degrading. rewrite fallback_extract_loop by assumption.
      apply retry_loop_exhausted; [assumption| |].
      - intros a Ha. rewrite Hrun, fallback_body_invalid_json by (try apply Hbad; lia).
        replace (Nat.eqb a maxRetries) with false
          by (symmetry; apply Nat.eqb_neq; lia).
        reflexivity.
      - rewrite Hrun, fallback_body_invalid_json by (try apply Hbad; lia).
        rewrite Nat.eqb_refl. split; [reflexivity|discriminate]. }
    rewrite Hloop. simpl fst; simpl snd.
    rewrite attempts_exhausted, waits_exhausted by assumption. auto.
Qed.

Lemma extract_attempts_bounded_witness :
  let throwing :=
    ThrowVariant.extractJobDetailsWithRetry
      Sample.prose Sample.jobTitle Sample.jobDescription 3 in
  let degrading :=
    FallbackVariant.extractJobDetailsWithRetry
      Sample.prose Sample.jobTitle Sample.jobDescription 3 in
  (attempts (fst throwing) = 3 /\
   waits (fst throwing) = [1000; 2000] /\
   snd throwing =
     Throw (Error (lit "Failed to extract valid JSON after 3 attempts. Last response: Sure! Here are the details you asked for."))) /\
  (attempts (fst degrading) = 3 /\
   waits (fst degrading) = [1000; 2000] /\
   snd degrading =
     Ok (VObject
           [(lit "job_title", VString (lit "Senior Data Engineer, Acme Corp"));
            (lit "city", VNull);
            (lit "work_arrangement", VNull);
            (lit "company", VNull);
            (lit "experience", VNull);
            (lit "error",
             VString (lit "Failed to parse AI response as JSON"))])).
Proof.
  destruct (extract_attempts_bounded Sample.prose Sample.jobTitle
              Sample.jobDescription 3) as (_ & _ & H).
  destruct (H ltac:(lia) eq_refl eq_refl
              (fun _ => [lit "Sure! "; lit "Here are the details you asked for."])
              ltac:(reflexivity)) as [Hthrow Hdegrade].
  split; [apply Hthrow | apply Hdegrade]; intros a _; vm_compute; reflexivity.
Defined.

(** C2: with [maxRetries = 3], for a job title and a job description from
    which the prompt can be built (they convert to strings, as every string
    does), when the responses of attempts 1 and 2 fail to parse as JSON and
    the response of attempt 3 parses into an object that passes the
    validation, [extractJobDetailsWithRetry] returns that object right after
    the third call; before it the loop has waited exactly twice, 1000 ms
    after attempt 1 and 2000 ms after attempt 2. *)
Theorem third_attempt_success
    (run : oracle) (jobTitle jobDescription : value)
    (output1 output2 output3 : list str) (jsonResult : value) :
  stringifies jobTitle = true ->
  stringifies jobDescription = true ->
  run 1 = RunOutput output1 ->
  run 2 = RunOutput output2 ->
  run 3 = RunOutput output3 ->
  JSON_parse (trim (join output1)) = None ->
  JSON_parse (trim (join output2)) = None ->
  JSON_parse (trim (join output3)) = Some jsonResult ->
  ThrowVariant.validate jsonResult = Ok true ->
  let call := Run ThrowVariant.model jobTitle jobDescription in
  ThrowVariant.extractJobDetailsWithRetry run jobTitle jobDescription 3 =
  ([call; Wait 1000; call; Wait 2000; call], Ok jsonResult).
Proof.
  intros Ht Hd H1 H2 H3 P1 P2 P3 Hvalid call.
  rewrite throw_extract_loop by assumption.
  unfold ThrowVariant.attempt_loop. simpl retry_loop.
  rewrite H1, H2, H3.
  rewrite (throw_body_invalid_json 3 1 _ P1), (throw_body_invalid_json 3 2 _ P2).
  rewrite (throw_body_valid 3 3 _ _ P3 Hvalid).
  reflexivity.
Qed.

Lemma third_attempt_success_witness :
  let call := Run ThrowVariant.model Sample.jobTitle Sample.jobDescription in
  ThrowVariant.extractJobDetailsWithRetry
    Sample.third_time_lucky Sample.jobTitle Sample.jobDescription 3 =
  ([call; Wait 1000; call; Wait 2000; call], Ok Sample.good_value).
Proof.
  apply (third_attempt_success Sample.third_time_lucky Sample.jobTitle
           Sample.jobDescription
           [lit "Sure! Here you go"] [lit "Sure! Here you go"] [Sample.good_text]);
    vm_compute; reflexivity.
Defined.

(** ** What the loop returns *)

Lemma retry_loop_returns (call : effect) (body : nat -> result (option value))
    (remaining attempt : nat) (v : value) :
  snd (retry_loop call body remaining attempt) = Ok v ->
  v = VUndefined \/ exists a, body a = Ok (Some v).
Proof.
  revert attempt; induction remaining as [|n IH]; intros attempt; simpl.
  - intros H; injection H as <-; left; reflexivity.
  - destruct (body attempt) as [[w|]|e] eqn:Hbody; simpl.
    + intros H; injection H as <-; right; exists attempt; assumption.
    + specialize (IH (S attempt)).
      destruct (retry_loop call body n (S attempt)) as [effects r]; simpl in *.
      assumption.
    + discriminate.
Qed.

Lemma throw_body_returns (maxRetries attempt : nat) (out : run_result) (v : value) :
  ThrowVariant.attempt_body maxRetries attempt out = Ok (Some v) ->
  exists output,
    out = RunOutput output /\
    ThrowVariant.try_parse (trim (join output)) = Ok (Some v).
Proof.
  unfold ThrowVariant.attempt_body, ThrowVariant.parse_or_retry.
  destruct out as [message|output].
  - destruct (Nat.eqb attempt maxRetries); discriminate.
  - intros H. exists output; split; [reflexivity|].
    destruct (ThrowVariant.try_parse (trim (join output))) as [r|e].
    + congruence.
    + destruct (Nat.eqb attempt maxRetries); discriminate.
Qed.

Lemma fallback_body_returns (jobTitle : value) (maxRetries attempt : nat)
    (out : run_result) (v : value) :
  FallbackVariant.attempt_body jobTitle maxRetries attempt out = Some v ->
  (exists error, v = FallbackVariant.fallback jobTitle error) \/
  (exists output,
     out = RunOutput output /\
     FallbackVariant.try_parse (FallbackVariant.clean output) = Ok (Some v)).
Proof.
  unfold FallbackVariant.attempt_body, FallbackVariant.parse_or_retry.
  destruct out as [message|output].
  - destruct (Nat.eqb attempt maxRetries); [|discriminate].
    intros H; injection H as <-. left; eexists; reflexivity.
  - destruct (FallbackVariant.try_parse (FallbackVariant.clean output))
      as [r|e] eqn:Htry.
    + intros ->. right; exists output; split; [reflexivity|assumption].
    + destruct (Nat.eqb attempt maxRetries); [|discriminate].
      intros H; injection H as <-. left; eexists; reflexivity.
Qed.

(** C3: a value returned by [return jsonResult], in either revision, has a
    [work_arrangement] that is [null] or exactly "remote", "hybrid" or
    "on-site", and an [experience] that is [null] or exactly one of the four
    labels "Entry (0-2 Years)", "Mid (3-5 Years)", "Senior (6-8 Years)",
    "Lead (8+ Years)"; so does every value [extractJobDetailsWithRetry]
    returns, unless it is [undefined].  A parsed object whose
    [work_arrangement] is a string with an uppercase letter fails the
    validation: the iteration returns nothing and goes on to the wait. *)
Theorem success_values_enumerated :
  (forall text v,
     ThrowVariant.try_parse text = Ok (Some v) \/
     FallbackVariant.try_parse text = Ok (Some v) ->
     enumerated v) /\
  (forall run jobTitle jobDescription maxRetries v,
     snd (ThrowVariant.extractJobDetailsWithRetry
            run jobTitle jobDescription maxRetries) = Ok v \/
     snd (FallbackVariant.extractJobDetailsWithRetry
            run jobTitle jobDescription maxRetries) = Ok v ->
     v = VUndefined \/ enumerated v) /\
  (forall text jsonResult s,
     JSON_parse text = Some jsonResult ->
     get jsonResult (lit "work_arrangement") = Ok (VString s) ->
     has_uppercase s = true ->
     ThrowVariant.try_parse text = Ok None /\
     FallbackVariant.try_parse text = Ok None).
Proof.
  split; [|split].
  - intros text v [H|H];
      eauto using throw_try_parse_enumerated, fallback_try_parse_enumerated.
  - intros run jobTitle jobDescription maxRetries v [H|H];
      [apply throw_extract_ok in H|apply fallback_extract_ok in H];
      apply retry_loop_returns in H as [->|[a Ha]]; auto; right.
    + apply throw_body_returns in Ha as (output & _ & Ha).
      eapply throw_try_parse_enumerated; eassumption.
    + injection Ha as Ha.
      apply fallback_body_returns in Ha as [[error ->]|(output & _ & Ha)].
      * apply fallback_record_enumerated.
      * eapply fallback_try_parse_enumerated; eassumption.
  - intros text jsonResult s Hparse Hwa Hup.
    unfold ThrowVariant.try_parse, FallbackVariant.try_parse.
    rewrite Hparse.
    rewrite (throw_validate_uppercase _ _ Hwa Hup).
    rewrite (fallback_validate_uppercase _ _ Hwa Hup).
    split; reflexivity.
Qed.

Lemma success_values_enumerated_witness :
  enumerated Sample.good_value /\
  ThrowVariant.try_parse Sample.capitalised_text = Ok None /\
  FallbackVariant.try_parse Sample.capitalised_text = Ok None.
Proof.
  destruct success_values_enumerated as (Hreturn & _ & Hupper).
  split.
  - apply (Hreturn Sample.good_text). left. vm_compute. reflexivity.
  - apply (Hupper Sample.capitalised_text Sample.capitalised_value (lit "Hybrid"));
      vm_compute; reflexivity.
Defined.

(** ** The handler *)

Lemma handler_post (run : oracle) (ev : Handler.event) :
  Handler.httpMethod ev = lit "POST" ->
  Handler.handler run ev =
  match Handler.parse_request ev with
  | Handler.Return r => ([], r)
  | Handler.Raise e => ([], Handler.internal_failure e)
  | Handler.Fields job_title job_description =>
      let (job_title, job_description) :=
        Handler.with_query ev (job_title, job_description) in
      if negb (truthy job_title) || negb (truthy job_description) then
        ([], Handler.missing_fields ev job_title job_description)
      else
        let (effects, result) :=
          ThrowVariant.extractJobDetailsWithRetry
            run job_title job_description 3 in
        (effects, Handler.reply result)
  end.
Proof.
  intros Hpost. unfold Handler.handler. rewrite Hpost. reflexivity.
Qed.

Lemma handler_reaches_loop (run : oracle) (ev : Handler.event)
    (a b job_title job_description : value) :
  Handler.httpMethod ev = lit "POST" ->
  Handler.parse_request ev = Handler.Fields a b ->
  Handler.with_query ev (a, b) = (job_title, job_description) ->
  truthy job_title = true ->
  truthy job_description = true ->
  Handler.handler run ev =
  (fst (ThrowVariant.extractJobDetailsWithRetry run job_title job_description 3),
   Handler.reply
     (snd (ThrowVariant.extractJobDetailsWithRetry run job_title job_description 3))).
Proof.
  intros Hpost Hparse Hquery Ht Hd.
  rewrite handler_post, Hparse, Hquery, Ht, Hd by assumption. simpl.
  destruct (ThrowVariant.extractJobDetailsWithRetry _ _ _ _); reflexivity.
Qed.

(** C9: in the revision that throws, for a job title and a job description
    from which the prompt can be built (they convert to strings, as every
    string does), when the response of every attempt parses as JSON into a
    value that fails the validation, the function neither throws nor returns
    a record: every attempt, the last one too, is followed by its wait of
    [1000 * attempt] ms, and the result is [undefined].  The handler then
    answers 200 with the serialisation of [undefined] as its body. *)
Theorem schema_failures_return_undefined
    (run : oracle) (jobTitle jobDescription : value) (maxRetries : nat)
    (responses : nat -> list str) (parsed : nat -> value) :
  stringifies jobTitle = true ->
  stringifies jobDescription = true ->
  (forall a, 1 <= a <= maxRetries ->
     run a = RunOutput (responses a) /\
     JSON_parse (trim (join (responses a))) = Some (parsed a) /\
     ThrowVariant.validate (parsed a) = Ok false) ->
  let returned :=
    ThrowVariant.extractJobDetailsWithRetry run jobTitle jobDescription maxRetries in
  returned =
    (retries (Run ThrowVariant.model jobTitle jobDescription) maxRetries 1,
     Ok VUndefined) /\
  attempts (fst returned) = maxRetries /\
  waits (fst returned) = map (fun a => 1000 * a) (seq 1 maxRetries) /\
  (maxRetries = 3 ->
   forall ev a b,
     Handler.httpMethod ev = lit "POST" ->
     Handler.parse_request ev = Handler.Fields a b ->
     Handler.with_query ev (a, b) = (jobTitle, jobDescription) ->
     truthy jobTitle = true ->
     truthy jobDescription = true ->
     Handler.handler run ev =
     (fst returned,
      Handler.Response 200 Handler.cors_headers (Handler.BodyJson VUndefined))).
Proof.
  intros Hjt Hjd Hbad returned.
  assert (Hloop : returned =
    (retries (Run ThrowVariant.model jobTitle jobDescription) maxRetries 1,
     Ok VUndefined)).
  { unfold returned. rewrite throw_extract_loop by assumption.
    apply retry_loop_all_retries. intros a Ha.
    destruct (Hbad a ltac:(lia)) as (-> & Hparse & Hvalid).
    eapply throw_body_rejected; eassumption. }
  split; [assumption|]. rewrite Hloop. simpl fst.
  split; [apply attempts_retries; do 3 eexists; reflexivity|].
  split; [apply waits_retries|].
  intros -> ev a b Hpost Hparse Hquery Ht Hd.
  rewrite (handler_reaches_loop run ev a b jobTitle jobDescription) by assumption.
  fold returned. rewrite Hloop. reflexivity.
Qed.

Lemma schema_failures_return_undefined_witness :
  let call := Run ThrowVariant.model Sample.jobTitle Sample.jobDescription in
  let effects := [call; Wait 1000; call; Wait 2000; call; Wait 3000] in
  ThrowVariant.extractJobDetailsWithRetry
    Sample.capitalising Sample.jobTitle Sample.jobDescription 3 =
  (effects, Ok VUndefined) /\
  Handler.handler Sample.capitalising Sample.json_request =
  (effects,
   Handler.Response 200 Handler.cors_headers (Handler.BodyJson VUndefined)).
Proof.
  destruct (schema_failures_return_undefined
              Sample.capitalising Sample.jobTitle Sample.jobDescription 3
              (fun _ => [Sample.capitalised_text])
              (fun _ => Sample.capitalised_value) eq_refl eq_refl)
    as (Hloop & _ & _ & Hhandler).
  - intros a _. vm_compute. auto.
  - split; [exact Hloop|].
    apply (Hhandler eq_refl Sample.json_request Sample.jobTitle Sample.jobDescription);
      vm_compute; reflexivity.
Defined.

(** C8: an [OPTIONS] request is answered 200 with the empty string as body
    and the CORS headers ([Access-Control-Allow-Origin: *],
    [Access-Control-Allow-Headers: Content-Type],
    [Access-Control-Allow-Methods: POST, OPTIONS], with
    [Content-Type: application/json]), whatever its headers, body and query
    string, and the model is not called; a request whose method is neither
    [OPTIONS] nor [POST] is answered 405 with the same headers and the body
    [{ "error": "Method not allowed" }], and the model is not called
    either. *)
Theorem preflight_and_method_gate (run : oracle) (ev : Handler.event) :
  (Handler.httpMethod ev = lit "OPTIONS" ->
   Handler.handler run ev =
   ([], Handler.Response 200
          [(lit "Access-Control-Allow-Origin", lit "*");
           (lit "Access-Control-Allow-Headers", lit "Content-Type");
           (lit "Access-Control-Allow-Methods", lit "POST, OPTIONS");
           (lit "Content-Type", lit "application/json")]
          (Handler.BodyText []))) /\
  (Handler.httpMethod ev <> lit "OPTIONS" ->
   Handler.httpMethod ev <> lit "POST" ->
   Handler.handler run ev =
   ([], Handler.Response 405
          [(lit "Access-Control-Allow-Origin", lit "*");
           (lit "Access-Control-Allow-Headers", lit "Content-Type");
           (lit "Access-Control-Allow-Methods", lit "POST, OPTIONS");
           (lit "Content-Type", lit "application/json")]
          (Handler.BodyJson
             (VObject [(lit "error", VString (lit "Method not allowed"))])))).
Proof.
  unfold Handler.handler. split.
  - intros ->. reflexivity.
  - intros Hoptions Hpost.
    destruct (Str.eqb (Handler.httpMethod ev) (lit "OPTIONS")) eqn:E1;
      [apply eqb_eq in E1; contradiction|].
    destruct (Str.eqb (Handler.httpMethod ev) (lit "POST")) eqn:E2;
      [apply eqb_eq in E2; contradiction|].
    reflexivity.
Qed.

Lemma preflight_and_method_gate_witness :
  Handler.handler Sample.prose Sample.preflight =
  ([], Handler.Response 200
         [(lit "Access-Control-Allow-Origin", lit "*");
          (lit "Access-Control-Allow-Headers", lit "Content-Type");
          (lit "Access-Control-Allow-Methods", lit "POST, OPTIONS");
          (lit "Content-Type", lit "application/json")]
         (Handler.BodyText [])) /\
  Handler.handler Sample.prose Sample.delete_request =
  ([], Handler.Response 405
         [(lit "Access-Control-Allow-Origin", lit "*");
          (lit "Access-Control-Allow-Headers", lit "Content-Type");
          (lit "Access-Control-Allow-Methods", lit "POST, OPTIONS");
          (lit "Content-Type", lit "application/json")]
         (Handler.BodyJson
            (VObject [(lit "error", VString (lit "Method not allowed"))]))).
Proof.
  split.
  - apply (preflight_and_method_gate Sample.prose Sample.preflight).
    reflexivity.
  - apply (preflight_and_method_gate Sample.prose Sample.delete_request);
      vm_compute; discriminate.
Defined.

(** C6: for a [POST] request whose body was parsed and for which, after the
    query-string fallback, [job_title] or [job_description] is still falsy
    (missing or empty), the handler answers 400 with a body that names the
    required fields and has a [received] object holding what was obtained for
    each field, [null] for a falsy one; the model is not called. *)
Theorem missing_fields_rejected
    (run : oracle) (ev : Handler.event) (a b job_title job_description : value) :
  Handler.httpMethod ev = lit "POST" ->
  Handler.parse_request ev = Handler.Fields a b ->
  Handler.with_query ev (a, b) = (job_title, job_description) ->
  truthy job_title = false \/ truthy job_description = false ->
  exists debug,
    Handler.handler run ev =
    ([], Handler.Response 400 Handler.cors_headers
           (Handler.BodyJson
              (VObject
                 [(lit "error",
                   VString (lit "Missing required fields: job_title and job_description"));
                  (lit "received",
                   VObject
                     [(lit "job_title",
                       if truthy job_title then job_title else VNull);
                      (lit "job_description",
                       if truthy job_description then job_description else VNull)]);
                  (lit "debug", debug)]))).
Proof.
  intros Hpost Hparse Hquery Hmissing.
  rewrite handler_post, Hparse, Hquery by assumption.
  eexists.
  destruct Hmissing as [H|H]; rewrite H; simpl negb; rewrite ?orb_true_r;
    cbn [orb]; unfold Handler.missing_fields, Handler.respond, or_else;
    rewrite ?H; reflexivity.
Qed.

Lemma missing_fields_rejected_witness :
  exists debug,
    Handler.handler Sample.prose Sample.title_only =
    ([], Handler.Response 400 Handler.cors_headers
           (Handler.BodyJson
              (VObject
                 [(lit "error",
                   VString (lit "Missing required fields: job_title and job_description"));
                  (lit "received",
                   VObject [(lit "job_title", VString (lit "Engineer"));
                            (lit "job_description", VNull)]);
                  (lit "debug", debug)]))).
Proof.
  apply (missing_fields_rejected Sample.prose Sample.title_only
           (VString (lit "Engineer")) VUndefined
           (VString (lit "Engineer")) VUndefined);
    try (vm_compute; reflexivity).
  right; reflexivity.
Defined.

(** C7: for a [POST] request whose content type contains
    [application/json] and whose body is the text of a JSON object with
    non-empty (truthy) [job_title] and [job_description] members, the
    body-parsing step yields exactly these two values, the query string does
    not change them, and they are what [extractJobDetailsWithRetry] is
    called with. *)
Theorem json_body_fields_unchanged
    (run : oracle) (ev : Handler.event) (text : str)
    (members : list (str * value)) (title description : value) :
  Handler.httpMethod ev = lit "POST" ->
  includes (lit "application/json") (Handler.contentType ev) = true ->
  Handler.body ev = Handler.BString text ->
  JSON_parse text = Some (VObject members) ->
  lookup (lit "job_title") members = Some title ->
  lookup (lit "job_description") members = Some description ->
  truthy title = true ->
  truthy description = true ->
  Handler.parse_request ev = Handler.Fields title description /\
  Handler.with_query ev (title, description) = (title, description) /\
  Handler.handler run ev =
    (fst (ThrowVariant.extractJobDetailsWithRetry run title description 3),
     Handler.reply
       (snd (ThrowVariant.extractJobDetailsWithRetry run title description 3))).
Proof.
  intros Hpost Hjson Hbody Hparse Htitle Hdescription Ht Hd.
  assert (Hfields : Handler.parse_request ev =
                    Handler.Fields title description).
  { unfold Handler.parse_request, Handler.parse_body, Handler.fields_of_json.
    rewrite Hjson, Hbody, Hparse. simpl.
    rewrite Htitle, Hdescription. reflexivity. }
  assert (Hquery : Handler.with_query ev (title, description) =
                   (title, description)).
  { unfold Handler.with_query. rewrite Ht, Hd.
    destruct (Handler.queryStringParameters ev); reflexivity. }
  repeat split; try assumption.
  apply (handler_reaches_loop run ev title description); assumption.
Qed.

Lemma json_body_fields_unchanged_witness :
  Handler.parse_request Sample.json_request =
    Handler.Fields Sample.jobTitle Sample.jobDescription /\
  Handler.handler Sample.third_time_lucky Sample.json_request =
    (let call := Run ThrowVariant.model Sample.jobTitle Sample.jobDescription in
     [call; Wait 1000; call; Wait 2000; call],
     Handler.Response 200 Handler.cors_headers (Handler.BodyJson Sample.good_value)).
Proof.
  destruct (json_body_fields_unchanged Sample.third_time_lucky Sample.json_request
              Sample.json_body
              [(lit "job_title", Sample.jobTitle);
               (lit "job_description", Sample.jobDescription)]
              Sample.jobTitle Sample.jobDescription)
    as (Hfields & _ & Hhandler);
    try (vm_compute; reflexivity).
  split; [exact Hfields|].
  rewrite Hhandler. vm_compute. reflexivity.
Defined.

(** ** Content-type dispatch *)

Lemma parse_body_throws (b : Handler.body_in) (e : exn) :
  Handler.parse_body b = Throw e -> e = SyntaxError.
Proof.
  unfold Handler.parse_body. destruct (JSON_parse _); [discriminate|].
  intros H; injection H as <-; reflexivity.
Qed.

Lemma parse_body_defined (b : Handler.body_in) :
  Handler.parse_body b <> Ok VUndefined.
Proof.
  unfold Handler.parse_body.
  destruct (JSON_parse _) as [v|] eqn:Hparse; [|discriminate].
  intros H; injection H as ->. exact (JSON_parse_defined _ Hparse).
Qed.

Lemma fields_of_json_throws (v : value) :
  (exists e, Handler.fields_of_json v = Throw e) <-> v = VNull \/ v = VUndefined.
Proof.
  unfold Handler.fields_of_json, Js.bind. split.
  - intros [e H]. destruct v; simpl in H; auto;
      try discriminate.
    destruct (lookup _ fields); destruct (lookup _ fields); discriminate.
  - intros [->| ->]; eexists; reflexivity.
Qed.

(** The early return of the body-parsing step. *)
Lemma parse_request_return (ev : Handler.event) (r : Handler.response) :
  Handler.parse_request ev = Handler.Return r <->
  r = Handler.invalid_format /\
  includes (lit "application/json") (Handler.contentType ev) = false /\
  includes (lit "application/x-www-form-urlencoded") (Handler.contentType ev) = false /\
  includes (lit "multipart/form-data") (Handler.contentType ev) = false /\
  (Handler.parse_body (Handler.body ev) = Throw SyntaxError \/
   Handler.parse_body (Handler.body ev) = Ok VNull).
Proof.
  unfold Handler.parse_request.
  destruct (includes (lit "application/json") _).
  { split; [|intros (_ & H & _); discriminate].
    destruct (do body <- _; _) as [[t d]|e]; discriminate. }
  destruct (includes (lit "application/x-www-form-urlencoded") _).
  { split; [discriminate|intros (_ & _ & H & _); discriminate]. }
  destruct (includes (lit "multipart/form-data") _).
  { split; [|intros (_ & _ & _ & H & _); discriminate].
    destruct (Handler.parse_multipart _ _); discriminate. }
  unfold Js.bind.
  destruct (Handler.parse_body (Handler.body ev)) as [v|e] eqn:Hbody.
  - destruct (Handler.fields_of_json v) as [[t d]|e] eqn:Hfields.
    + split; [discriminate|].
      intros (_ & _ & _ & _ & [H|H]); [discriminate|].
      injection H as ->. discriminate.
    + assert (Hv : v = VNull \/ v = VUndefined)
        by (apply fields_of_json_throws; eexists; eassumption).
      destruct Hv as [->| ->]; [|exfalso; exact (parse_body_defined _ Hbody)].
      split; [intros H; injection H as <-|intros (-> & _)]; auto 6.
  - apply parse_body_throws in Hbody as Hsyntax. subst e.
    split; [intros H; injection H as <-|intros (-> & _)]; auto 6.
Qed.

(** C10, as the code has it: the content type is the value of the
    [content-type] header, or if that is missing or empty of the
    [Content-Type] header, or else the empty string.  A value that contains
    [application/json] selects the JSON branch, in which a failure is an
    exception for the [catch] of the handler.  A value that contains neither
    [application/json] nor [application/x-www-form-urlencoded] nor
    [multipart/form-data] selects the default JSON parse.  The handler answers
    the 400 "Invalid request format" exactly for a [POST] request in that
    default branch for which [JSON.parse] throws, or returns [null], whose
    [job_title] cannot be read. *)
Theorem content_type_dispatch (run : oracle) (ev : Handler.event) :
  let lower := lookup (lit "content-type") (Handler.headers ev) in
  let upper := lookup (lit "Content-Type") (Handler.headers ev) in
  let json := includes (lit "application/json") (Handler.contentType ev) in
  let form :=
    includes (lit "application/x-www-form-urlencoded") (Handler.contentType ev) in
  let multipart := includes (lit "multipart/form-data") (Handler.contentType ev) in
  let parsed :=
    do body <- Handler.parse_body (Handler.body ev); Handler.fields_of_json body in
  Handler.contentType ev =
    match lower with
    | Some (c :: s) => c :: s
    | _ => match upper with
           | Some (c :: s) => c :: s
           | _ => []
           end
    end /\
  (json = true ->
   Handler.parse_request ev =
   match parsed with
   | Ok (job_title, job_description) => Handler.Fields job_title job_description
   | Throw e => Handler.Raise e
   end) /\
  (json = false -> form = false -> multipart = false ->
   Handler.parse_request ev =
   match parsed with
   | Ok (job_title, job_description) => Handler.Fields job_title job_description
   | Throw _ => Handler.Return Handler.invalid_format
   end) /\
  (snd (Handler.handler run ev) = Handler.invalid_format <->
   Handler.httpMethod ev = lit "POST" /\
   json = false /\ form = false /\ multipart = false /\
   (Handler.parse_body (Handler.body ev) = Throw SyntaxError \/
    Handler.parse_body (Handler.body ev) = Ok VNull)).
Proof.
  intros lower upper json form multipart parsed.
  split; [reflexivity|].
  split; [intros Hjson; unfold Handler.parse_request; fold json;
          rewrite Hjson; reflexivity|].
  split; [intros Hjson Hform Hmultipart; unfold Handler.parse_request;
          fold json form multipart; rewrite Hjson, Hform, Hmultipart;
          reflexivity|].
  split.
  - unfold Handler.handler.
    destruct (Str.eqb (Handler.httpMethod ev) (lit "OPTIONS"));
      [intros H; apply (f_equal Handler.statusCode) in H; discriminate|].
    destruct (Str.eqb (Handler.httpMethod ev) (lit "POST")) eqn:Hpost;
      [|intros H; apply (f_equal Handler.statusCode) in H; discriminate].
    apply eqb_eq in Hpost. simpl negb. cbv iota.
    destruct (Handler.parse_request ev) as [t d|r|e] eqn:Hparse.
    + destruct (Handler.with_query ev (t, d)) as [t' d'].
      destruct (negb (truthy t') || negb (truthy d')).
      * intros H; apply (f_equal members_of) in H; discriminate.
      * destruct (ThrowVariant.extractJobDetailsWithRetry run t' d' 3)
          as [effects [v|e]];
          intros H; apply (f_equal Handler.statusCode) in H; discriminate.
    + simpl. intros ->. apply parse_request_return in Hparse.
      destruct Hparse as (_ & H). auto.
    + intros H; apply (f_equal Handler.statusCode) in H; discriminate.
  - intros (Hpost & Hrest).
    rewrite handler_post by assumption.
    assert (Hparse : Handler.parse_request ev =
                     Handler.Return Handler.invalid_format)
      by (apply parse_request_return; auto).
    rewrite Hparse. reflexivity.
Qed.

Lemma content_type_dispatch_witness :
  Handler.handler Sample.prose Sample.plain_text = ([], Handler.invalid_format) /\
  Handler.handler Sample.prose Sample.json_charset =
    ([], Handler.internal_failure SyntaxError).
Proof.
  destruct (content_type_dispatch Sample.prose Sample.plain_text)
    as (_ & _ & _ & Hinvalid).
  destruct (content_type_dispatch Sample.prose Sample.json_charset)
    as (_ & Hjson & _).
  split.
  - assert (H : snd (Handler.handler Sample.prose Sample.plain_text) =
                Handler.invalid_format)
      by (apply Hinvalid; repeat split; try reflexivity; left; reflexivity).
    rewrite <- H. reflexivity.
  - rewrite handler_post, Hjson by reflexivity. reflexivity.
Defined.

(** C10 as stated fails: for a [POST] request without a content type whose
    body is the text [null], [JSON.parse] does not throw, it returns [null];
    reading [job_title] of [null] throws inside the same [try], and the
    handler answers the 400 "Invalid request format". *)
Lemma invalid_format_without_parse_error :
  Handler.contentType Sample.null_body = [] /\
  JSON_parse (lit "null") = Some VNull /\
  Handler.handler Sample.prose Sample.null_body =
    ([], Handler.Response 400 Handler.cors_headers
           (Handler.BodyJson
              (VObject
                 [(lit "error",
                   VString (lit "Invalid request format. Use JSON or URL-encoded form data."))]))).
Proof. repeat split. Qed.

(** ** Code fences *)

Lemma trim_fixed (c d : char) (m : str) :
  is_ws c = false -> is_ws d = false ->
  trim (c :: m ++ [d]) = c :: m ++ [d].
Proof.
  intros Hc Hd. unfold trim, trimEnd.
  cbn [trimStart]. rewrite Hc.
  change (c :: m ++ [d]) with ((c :: m) ++ [d]).
  rewrite rev_app_distr.
  change (rev [d] ++ rev (c :: m)) with (d :: rev (c :: m)).
  cbn [trimStart]. rewrite Hd.
  change (rev (d :: rev (c :: m))) with (rev (rev (c :: m)) ++ [d]).
  rewrite rev_involutive. reflexivity.
Qed.

Lemma trim_braced (inner : str) : trim (braced inner) = braced inner.
Proof. apply trim_fixed; reflexivity. Qed.

Lemma join_single (s : str) : join [s] = s.
Proof. apply app_nil_r. Qed.

(** The closing-fence pattern does not match where a closing brace is still
    to come. *)
Lemma fence_end_after_brace (j : nat) (cp : option str) (a t : str) :
  rmatch (RSeq (RLit FallbackVariant.BACKTICKS) REnd)
         (MState j (a ++ ch "}" :: t) cp) = [].
Proof.
  destruct a as [|x1 [|x2 [|x3 a]]];
    repeat (simpl; try reflexivity; case_if); simpl; try reflexivity.
  destruct a; reflexivity.
Qed.

Lemma star_space_before_brace (f : mstate -> list mstate)
    (cp : option str) (t : str) :
  (forall j a, f (MState j (a ++ ch "}" :: t) cp) = []) ->
  forall a i, flat_map f (star_greedy cls_space i cp (a ++ ch "}" :: t)) = [].
Proof.
  intros Hf. induction a as [|x a IH]; intros i.
  - pose proof (Hf i []) as H0. simpl in *. rewrite H0. reflexivity.
  - pose proof (Hf i (x :: a)) as H1. simpl in *.
    destruct (cls_space x).
    + rewrite flat_map_app, IH. simpl. rewrite H1. reflexivity.
    + simpl. rewrite H1. reflexivity.
Qed.

Lemma re_close_before_brace (i : nat) (a t : str) :
  rmatch FallbackVariant.re_close (MState i (a ++ ch "}" :: t) None) = [].
Proof.
  change (rmatch FallbackVariant.re_close (MState i (a ++ ch "}" :: t) None))
    with (flat_map (rmatch (RSeq (RLit FallbackVariant.BACKTICKS) REnd))
            (star_greedy cls_space i None (a ++ ch "}" :: t))).
  apply star_space_before_brace. intros j a'. apply fence_end_after_brace.
Qed.

Lemma re_close_search (a : str) (i : nat) :
  rsearch FallbackVariant.re_close i
          (a ++ ch "}" :: LF :: FallbackVariant.BACKTICKS) =
  Some (i + length a + 1, MState (i + length a + 5) [] None).
Proof.
  revert i; induction a as [|x a IH]; intros i.
  - pose proof (re_close_before_brace i [] (LF :: FallbackVariant.BACKTICKS)) as H0.
    cbn [app] in *. cbn [rsearch]. rewrite H0.
    cbn [length]. rewrite !Nat.add_0_r. replace (i + 1) with (S i) by lia.
    replace (i + 5) with (S (S (S (S (S i))))) by lia. reflexivity.
  - pose proof (re_close_before_brace i (x :: a) (LF :: FallbackVariant.BACKTICKS)) as H1.
    cbn [app] in *. cbn [rsearch]. rewrite H1.
    rewrite IH. cbn [length]. do 2 f_equal; [lia|f_equal; lia].
Qed.

Lemma firstn_through (a : str) (c : char) (t : str) :
  firstn (length a + 1) (a ++ c :: t) = a ++ [c].
Proof.
  induction a as [|x a IH]; [reflexivity|].
  cbn [length app plus firstn]. rewrite IH. reflexivity.
Qed.

Lemma replace_close (inner : str) :
  replace_empty FallbackVariant.re_close
                (braced inner ++ LF :: FallbackVariant.BACKTICKS) =
  braced inner.
Proof.
  assert (E : braced inner ++ LF :: FallbackVariant.BACKTICKS =
              (ch "{" :: inner) ++ ch "}" :: LF :: FallbackVariant.BACKTICKS).
  { unfold braced. cbn [app]. rewrite <- app_assoc. reflexivity. }
  unfold replace_empty. rewrite E, re_close_search. cbn [rest].
  rewrite app_nil_r. cbn [plus]. apply firstn_through.
Qed.

Lemma clean_braced (inner : str) :
  FallbackVariant.clean [braced inner] = braced inner.
Proof.
  unfold FallbackVariant.clean. rewrite join_single, trim_braced.
  cbn [braced startsWith FallbackVariant.BACKTICKS lit map list_ascii_of_string
       N_of_ascii N_of_digits].
  change (N.eqb (N_of_ascii "`") (ch "{")) with false.
  cbn [andb]. apply trim_braced.
Qed.

Lemma clean_fenced (tag inner : str) :
  tag = lit "json" \/ tag = [] ->
  FallbackVariant.clean [fenced tag (braced inner)] = braced inner.
Proof.
  intros Htag. unfold FallbackVariant.clean. rewrite join_single.
  assert (Htrim : trim (fenced tag (braced inner)) = fenced tag (braced inner)).
  { unfold fenced.
    change (FallbackVariant.BACKTICKS ++ tag ++ [LF] ++ braced inner ++ [LF]
            ++ FallbackVariant.BACKTICKS)
      with (96%N :: ([96; 96]%N ++ tag ++ [LF] ++ braced inner ++ [LF]
                     ++ FallbackVariant.BACKTICKS)).
    replace ([96; 96]%N ++ tag ++ [LF] ++ braced inner ++ [LF]
             ++ FallbackVariant.BACKTICKS)
      with (([96; 96]%N ++ tag ++ [LF] ++ braced inner ++ [LF]
             ++ [96; 96]%N) ++ [96%N])
      by (rewrite <- !app_assoc; reflexivity).
    apply trim_fixed; reflexivity. }
  rewrite Htrim.
  destruct Htag as [-> | ->].
  - change (startsWith (lit "```json") (fenced (lit "json") (braced inner)))
      with true. cbv iota.
    change (replace_empty FallbackVariant.re_open_json
              (fenced (lit "json") (braced inner)))
      with (braced inner ++ LF :: FallbackVariant.BACKTICKS).
    rewrite replace_close. apply trim_braced.
  - change (startsWith (lit "```json") (fenced [] (braced inner))) with false.
    change (startsWith FallbackVariant.BACKTICKS (fenced [] (braced inner)))
      with true. cbv iota.
    change (replace_empty FallbackVariant.re_open (fenced [] (braced inner)))
      with (braced inner ++ LF :: FallbackVariant.BACKTICKS).
    rewrite replace_close. apply trim_braced.
Qed.

(** C5, as the code has it: the revision that returns a fallback record
    strips the fence.  For a response that is the text of a JSON object
    between an opening fence (with the tag [json] or without a tag) and a
    closing fence, each on a line of its own, the text handed to
    [JSON.parse] is the text of the object, the same as for the bare object;
    the iteration and the whole loop then behave as for the bare object.
    The revision that throws has no such step. *)
Theorem fenced_response_cleaned (tag inner : str) :
  tag = lit "json" \/ tag = [] ->
  FallbackVariant.clean [fenced tag (braced inner)] = braced inner /\
  FallbackVariant.clean [braced inner] = braced inner /\
  (forall jobTitle maxRetries attempt,
     FallbackVariant.attempt_body jobTitle maxRetries attempt
       (RunOutput [fenced tag (braced inner)]) =
     FallbackVariant.attempt_body jobTitle maxRetries attempt
       (RunOutput [braced inner])) /\
  (forall run jobTitle jobDescription maxRetries k,
     run k = RunOutput [fenced tag (braced inner)] ->
     FallbackVariant.extractJobDetailsWithRetry
       run jobTitle jobDescription maxRetries =
     FallbackVariant.extractJobDetailsWithRetry
       (fun a => if Nat.eqb a k then RunOutput [braced inner] else run a)
       jobTitle jobDescription maxRetries).
Proof.
  intros Htag.
  pose proof (clean_fenced tag inner Htag) as Hfenced.
  pose proof (clean_braced inner) as Hbare.
  assert (Hbody : forall jobTitle maxRetries attempt,
    FallbackVariant.attempt_body jobTitle maxRetries attempt
      (RunOutput [fenced tag (braced inner)]) =
    FallbackVariant.attempt_body jobTitle maxRetries attempt
      (RunOutput [braced inner])).
  { intros. unfold FallbackVariant.attempt_body. rewrite Hfenced, Hbare.
    reflexivity. }
  repeat split; try assumption.
  intros run jobTitle jobDescription maxRetries k Hk.
  unfold FallbackVariant.extractJobDetailsWithRetry.
  destruct (stringifies jobTitle && stringifies jobDescription);
    [|reflexivity].
  apply retry_loop_ext. intros a _.
  destruct (Nat.eqb a k) eqn:Hak; [|reflexivity].
  apply Nat.eqb_eq in Hak. subst a. rewrite Hk, Hbody. reflexivity.
Qed.

Lemma fenced_response_cleaned_witness :
  FallbackVariant.clean [fenced (lit "json") Sample.good_text_company] =
    Sample.good_text_company /\
  FallbackVariant.extractJobDetailsWithRetry
    (fun _ => RunOutput [fenced (lit "json") Sample.good_text_company])
    Sample.jobTitle Sample.jobDescription 3 =
  ([Run FallbackVariant.model Sample.jobTitle Sample.jobDescription],
   Ok Sample.good_value_company).
Proof.
  destruct (fenced_response_cleaned
              (lit "json")
              (Sample.commas
                 [Sample.member (lit "job_title") (quoted (lit "Senior Data Engineer"));
                  Sample.member (lit "city") (lit "null");
                  Sample.member (lit "work_arrangement") (quoted (lit "remote"));
                  Sample.member (lit "company") (quoted (lit "Acme Corp"));
                  Sample.member (lit "experience") (quoted (lit "Senior (6-8 Years)"))])
              (or_introl eq_refl))
    as (Hclean & _ & _ & Hloop).
  split; [exact Hclean|].
  rewrite (Hloop (fun _ => RunOutput [fenced (lit "json") Sample.good_text_company])
                 Sample.jobTitle Sample.jobDescription 3 1 eq_refl).
  vm_compute. reflexivity.
Defined.

(** C5 as stated fails for the revision that throws: there the text handed
    to [JSON.parse] is the trimmed response, fence included.  The bare object
    is returned by the first attempt; the same object in a [json] fence is a
    syntax error on every attempt and the loop ends with the thrown error. *)
Lemma fenced_response_rejected_when_throwing :
  ThrowVariant.extractJobDetailsWithRetry
    (fun _ => RunOutput [Sample.good_text])
    Sample.jobTitle Sample.jobDescription 3 =
  ([Run ThrowVariant.model Sample.jobTitle Sample.jobDescription],
   Ok Sample.good_value) /\
  JSON_parse (trim (join [fenced (lit "json") Sample.good_text])) = None /\
  ThrowVariant.extractJobDetailsWithRetry
    (fun _ => RunOutput [fenced (lit "json") Sample.good_text])
    Sample.jobTitle Sample.jobDescription 3 =
  (exhausted (Run ThrowVariant.model Sample.jobTitle Sample.jobDescription) 3,
   Throw (Error (ThrowVariant.failure_message 3
                   (fenced (lit "json") Sample.good_text)))).
Proof. repeat split; vm_compute; reflexivity. Qed.

(** ** Searching a string *)

Lemma startsWith_refl_app (p s : str) : startsWith p (p ++ s) = true.
Proof.
  induction p as [|x p IH]; [reflexivity|].
  simpl. rewrite N.eqb_refl, IH. reflexivity.
Qed.

(** A match that runs over the end of [a] reads the next character. *)
Lemma startsWith_app_inv (p a : str) (c : char) (t : str) :
  startsWith p (a ++ c :: t) = true -> startsWith p a = true \/ In c p.
Proof.
  revert a; induction p as [|x p IH]; intros a; [left; reflexivity|].
  destruct a as [|y a]; simpl.
  - rewrite andb_true_iff, N.eqb_eq. intros [-> _]. right; left; reflexivity.
  - rewrite andb_true_iff. intros [Hxy Hrest].
    destruct (IH a Hrest) as [H|H]; [left|right; right; assumption].
    rewrite Hxy, H. reflexivity.
Qed.

Lemma includes_false_startsWith (p s : str) :
  includes p s = false -> startsWith p s = false.
Proof.
  destruct s; simpl; intros H; apply orb_false_iff in H as [H _]; assumption.
Qed.

Lemma includes_false_tail (p : str) (c : char) (s : str) :
  includes p (c :: s) = false -> includes p s = false.
Proof.
  simpl. intros H; apply orb_false_iff in H as [_ H]; assumption.
Qed.

(** A string without [c] does not start at, or run over, a [c]. *)
Lemma no_start_before (sep s : str) (c : char) (t : str) :
  includes sep s = false -> ~ In c sep ->
  no_start sep s (c :: t) = true.
Proof.
  intros Hnone Hc. induction s as [|x s IH]; [reflexivity|].
  cbn [no_start]. rewrite IH by (eapply includes_false_tail; eassumption).
  rewrite andb_true_r.
  destruct (startsWith sep ((x :: s) ++ c :: t)) eqn:Hstart; [|reflexivity].
  apply startsWith_app_inv in Hstart as [H|H]; [|contradiction].
  apply includes_false_startsWith in Hnone. congruence.
Qed.

Lemma includes_before (p s : str) (c : char) (t : str) :
  includes p s = false -> ~ In c p ->
  includes p (s ++ c :: t) = includes p (c :: t).
Proof.
  intros Hnone Hc. induction s as [|x s IH]; [reflexivity|].
  cbn [app includes]. rewrite IH by (eapply includes_false_tail; eassumption).
  destruct (startsWith p (x :: s ++ c :: t)) eqn:Hstart; [|reflexivity].
  apply (startsWith_app_inv p (x :: s)) in Hstart as [H|H]; [|contradiction].
  apply includes_false_startsWith in Hnone. congruence.
Qed.

Lemma no_start_app (sep a p tail : str) :
  no_start sep (a ++ p) tail = no_start sep a (p ++ tail) && no_start sep p tail.
Proof.
  induction a as [|x a IH]; [reflexivity|].
  cbn [app no_start]. rewrite IH, <- app_assoc, andb_assoc. reflexivity.
Qed.

(** ** [split] *)

Lemma split_from_skip (sep a cur rest : str) :
  split_from sep (length a) cur (a ++ rest) = split_from sep 0 cur rest.
Proof.
  induction a as [|x a IH]; [reflexivity|]. exact IH.
Qed.

Lemma split_from_none (sep s cur : str) :
  no_start sep s [] = true ->
  split_from sep 0 cur s = [rev cur ++ s].
Proof.
  revert cur; induction s as [|x s IH]; intros cur Hnone.
  - simpl. rewrite app_nil_r. reflexivity.
  - cbn [no_start] in Hnone. apply andb_true_iff in Hnone as [Hx Hs].
    rewrite app_nil_r in Hx. apply negb_true_iff in Hx.
    cbn [split_from]. rewrite Hx, IH by assumption.
    cbn [rev]. rewrite <- app_assoc. reflexivity.
Qed.

(** The piece before the first occurrence of the separator. *)
Lemma split_from_piece (sep p rest cur : str) :
  sep <> [] ->
  no_start sep p (sep ++ rest) = true ->
  split_from sep 0 cur (p ++ sep ++ rest) =
  (rev cur ++ p) :: split_from sep 0 [] rest.
Proof.
  intros Hsep. revert cur; induction p as [|x p IH]; intros cur Hnone.
  - destruct sep as [|y sep]; [contradiction|].
    pose proof (startsWith_refl_app (y :: sep) rest) as Hstart.
    cbn [app] in *. cbn [split_from]. rewrite Hstart.
    cbn [length]. replace (S (length sep) - 1) with (length sep) by lia.
    rewrite split_from_skip, app_nil_r.
    reflexivity.
  - cbn [no_start] in Hnone. apply andb_true_iff in Hnone as [Hx Hp].
    apply negb_true_iff in Hx.
    cbn [app split_from] in *. rewrite Hx, IH by assumption.
    cbn [rev]. rewrite <- app_assoc. reflexivity.
Qed.

(** ** The field pattern *)

Lemma not_ws_not_break (x : char) :
  is_ws x = false -> N.eqb x CR = false /\ N.eqb x LF = false.
Proof.
  intros Hx. split.
  - destruct (N.eqb x CR) eqn:E; [|reflexivity].
    apply N.eqb_eq in E. subst x. discriminate.
  - destruct (N.eqb x LF) eqn:E; [|reflexivity].
    apply N.eqb_eq in E. subst x. discriminate.
Qed.

Lemma line_end_none (i : nat) (s : str) (cp : option str) :
  line_break s = false -> rmatch re_line_end (MState i s cp) = [].
Proof.
  destruct s as [|c s]; [discriminate|].
  unfold line_break. intros H. apply orb_false_iff in H as [Hlf Hcrlf].
  simpl. destruct (N.eqb c CR) eqn:Hcr; simpl.
  - rewrite Hlf. destruct s as [|d s]; [reflexivity|].
    simpl in Hcrlf. rewrite Hcrlf. reflexivity.
  - rewrite Hlf. reflexivity.
Qed.

Lemma line_end_some (i : nat) (s : str) (cp : option str) :
  line_break s = true ->
  exists st tl, rmatch re_line_end (MState i s cp) = st :: tl /\ cap st = cp.
Proof.
  destruct s as [|c s]; [intros _; do 2 eexists; split; reflexivity|].
  unfold line_break. intros H. simpl.
  destruct (N.eqb c CR) eqn:Hcr; simpl.
  - destruct (N.eqb c LF) eqn:Hlf.
    + apply N.eqb_eq in Hcr, Hlf. subst c. discriminate.
    + simpl in H. destruct s as [|d s]; [discriminate|].
      rewrite H. do 2 eexists; split; reflexivity.
  - rewrite orb_false_r in H. rewrite H. do 2 eexists; split; reflexivity.
Qed.

(** The lazy group stops at the first line break. *)
Lemma lazy_capture (s0 : str) (i0 : nat) (cp0 : option str) (s : str) :
  forall pre i, s0 = pre ++ s -> i = i0 + length pre ->
  exists st tl,
    flat_map (rmatch re_line_end)
      (map (fun st' => MState (pos st') (rest st')
                              (Some (firstn (pos st' - i0) s0)))
           (star_lazy cls_any i cp0 s)) = st :: tl /\
    cap st = Some (pre ++ first_line s).
Proof.
  induction s as [|c s IH]; intros pre i Hs0 Hi.
  - cbn [star_lazy map flat_map pos rest].
    destruct (line_end_some i [] (Some (firstn (i - i0) s0)) eq_refl)
      as (st & tl & Hmatch & Hcap).
    rewrite Hmatch. exists st, (tl ++ []). split; [reflexivity|].
    rewrite Hcap. replace (i - i0) with (length pre) by lia.
    rewrite Hs0, !app_nil_r, firstn_all. reflexivity.
  - cbn [star_lazy cls_any map flat_map pos rest first_line].
    destruct (line_break (c :: s)) eqn:Hbreak.
    + destruct (line_end_some i (c :: s) (Some (firstn (i - i0) s0)) Hbreak)
        as (st & tl & Hmatch & Hcap).
      rewrite Hmatch. eexists; eexists; split; [reflexivity|].
      rewrite Hcap. replace (i - i0) with (length pre) by lia.
      rewrite Hs0, app_nil_r, firstn_app, firstn_all, Nat.sub_diag.
      cbn [firstn]. rewrite app_nil_r. reflexivity.
    + rewrite line_end_none by assumption. cbn [app].
      destruct (IH (pre ++ [c]) (S i)) as (st & tl & Hmatch & Hcap).
      * rewrite <- app_assoc. assumption.
      * rewrite length_app. simpl. lia.
      * exists st, tl. split; [assumption|].
        rewrite Hcap, <- app_assoc. reflexivity.
Qed.

Lemma group_capture (i : nat) (s : str) (cp : option str) :
  exists st tl,
    rmatch (RSeq (RGroup (RStar false cls_any)) re_line_end) (MState i s cp) =
    st :: tl /\
    cap st = Some (first_line s).
Proof.
  cbn [rmatch pos rest cap].
  apply (lazy_capture s i cp s [] i); [reflexivity|simpl; lia].
Qed.

(** After the name, the header line ends and a blank line follows: [\s*]
    gives back what the two line breaks need, and the rest of the pattern
    starts at the value. *)
Lemma blank_line_then (r : regex) (i : nat) (x : char) (s : str)
    (cp : option str) :
  is_ws x = false ->
  rmatch (RSeq (RStar true cls_space)
            (RSeq (ROptChar CR) (RSeq (RChar LF) (RSeq (ROptChar CR)
               (RSeq (RChar LF) r)))))
         (MState i (CR :: LF :: CR :: LF :: x :: s) cp) =
  rmatch r (MState (S (S (S (S i)))) (x :: s) cp)
  ++ rmatch r (MState (S (S (S (S i)))) (x :: s) cp).
Proof.
  intros Hx. destruct (not_ws_not_break x Hx) as [Hcr Hlf].
  cbn [rmatch pos rest cap star_greedy].
  change (cls_space CR) with true. change (cls_space LF) with true.
  change (cls_space x) with (is_ws x). rewrite Hx.
  do 6 (cbn [app flat_map rmatch pos rest cap];
        rewrite ?Hcr, ?Hlf;
        change (N.eqb LF CR) with false; change (N.eqb CR CR) with true;
        change (N.eqb LF LF) with true; change (N.eqb CR LF) with false).
  rewrite !app_nil_r. reflexivity.
Qed.

(** The value of a field in a part that opens with its header. *)
Lemma field_of_part (name : str) (x : char) (s : str) :
  name = lit "job_title" \/ name = lit "job_description" ->
  is_ws x = false ->
  match_group1 (Handler.re_field (lit "name=" ++ quoted name))
               (part_header name ++ x :: s) =
  Some (first_line (x :: s)).
Proof.
  intros Hname Hx.
  destruct (group_capture 54 (x :: s) None) as (st1 & tl1 & Hmatch1 & Hcap1).
  destruct (group_capture 60 (x :: s) None) as (st2 & tl2 & Hmatch2 & Hcap2).
  unfold match_group1.
  destruct Hname as [-> | ->].
  - change (rsearch (Handler.re_field (lit "name=" ++ quoted (lit "job_title"))) 0
              (part_header (lit "job_title") ++ x :: s))
      with (match
               rmatch re_after_name
                      (MState 50 (CR :: LF :: CR :: LF :: x :: s) None) ++ []
             with
             | st :: _ => Some (34, st)
             | [] =>
                 rsearch (Handler.re_field (lit "name=" ++ quoted (lit "job_title")))
                         35
                         (skipn 35 (part_header (lit "job_title") ++ x :: s))
             end).
    unfold re_after_name. cbn [RSeqs].
    rewrite blank_line_then by assumption.
    rewrite Hmatch1. cbn [app]. rewrite Hcap1. reflexivity.
  - change (rsearch (Handler.re_field (lit "name=" ++ quoted (lit "job_description"))) 0
              (part_header (lit "job_description") ++ x :: s))
      with (match
               rmatch re_after_name
                      (MState 56 (CR :: LF :: CR :: LF :: x :: s) None) ++ []
             with
             | st :: _ => Some (34, st)
             | [] =>
                 rsearch (Handler.re_field (lit "name=" ++ quoted (lit "job_description")))
                         35
                         (skipn 35 (part_header (lit "job_description") ++ x :: s))
             end).
    unfold re_after_name. cbn [RSeqs].
    rewrite blank_line_then by assumption.
    rewrite Hmatch2. cbn [app]. rewrite Hcap2. reflexivity.
Qed.

Lemma first_line_before_break (v t : str) :
  first_line (v ++ CR :: LF :: t) = first_line v.
Proof.
  induction v as [|c v IH]; [reflexivity|].
  cbn [app first_line]. rewrite IH.
  replace (line_break (c :: v ++ CR :: LF :: t)) with (line_break (c :: v));
    [reflexivity|].
  unfold line_break. destruct v; reflexivity.
Qed.

Lemma first_line_single (v : str) : ~ In LF v -> first_line v = v.
Proof.
  induction v as [|c v IH]; [reflexivity|].
  intros Hlf. cbn [first_line].
  assert (Hc : N.eqb c LF = false).
  { apply N.eqb_neq. intros ->. apply Hlf. left; reflexivity. }
  assert (Hbreak : line_break (c :: v) = false).
  { unfold line_break. rewrite Hc. destruct v as [|d v].
    - rewrite andb_false_r. reflexivity.
    - assert (Hd : N.eqb d LF = false).
      { apply N.eqb_neq. intros ->. apply Hlf. right; left; reflexivity. }
      rewrite Hd, andb_false_r. reflexivity. }
  rewrite Hbreak, IH; [reflexivity|].
  intros H; apply Hlf; right; assumption.
Qed.

(** ** The boundary *)

Lemma boundary_excludes (b : str) (c : char) :
  forallb boundary_char b = true -> boundary_char c = false -> ~ In c b.
Proof.
  intros Hb Hc Hin. rewrite forallb_forall in Hb.
  rewrite (Hb c Hin) in Hc. discriminate.
Qed.

Lemma startsWith_chars (p s : str) :
  startsWith p s = true -> forall x, In x p -> In x s.
Proof.
  revert s; induction p as [|y p IH]; intros s Hstart x Hin; [destruct Hin|].
  destruct s as [|z s]; [discriminate|].
  simpl in Hstart. apply andb_true_iff in Hstart as [Hyz Hrest].
  apply N.eqb_eq in Hyz. subst z.
  destruct Hin as [->|Hin]; [left; reflexivity|right; eauto].
Qed.

Lemma includes_chars (p s : str) :
  includes p s = true -> forall x, In x p -> In x s.
Proof.
  induction s as [|z s IH]; simpl; intros H x Hin.
  - rewrite orb_false_r in H. exact (startsWith_chars p [] H x Hin).
  - apply orb_true_iff in H as [H|H].
    + exact (startsWith_chars p (z :: s) H x Hin).
    + right. eauto.
Qed.

Lemma includes_without (p s : str) (x : char) :
  In x p -> ~ In x s -> includes p s = false.
Proof.
  intros Hp Hs. destruct (includes p s) eqn:H; [|reflexivity].
  exfalso. apply Hs. eapply includes_chars; eassumption.
Qed.

Lemma no_start_of_includes (sep s : str) :
  includes sep s = false -> no_start sep s [] = true.
Proof.
  induction s as [|x s IH]; [reflexivity|].
  intros H. cbn [no_start]. rewrite app_nil_r.
  rewrite (includes_false_startsWith _ _ H).
  rewrite IH by (eapply includes_false_tail; eassumption). reflexivity.
Qed.

(** ** The multipart branch *)

(** The closing delimiter is followed by two hyphens and a line break, in
    which the delimiter does not occur again. *)
Lemma closing_clear (b : str) :
  b <> [] -> ~ In CR b ->
  no_start (lit "--" ++ b) (lit "--" ++ CRLF) [] = true.
Proof.
  intros Hb Hcr. destruct b as [|c b]; [contradiction|].
  assert (Hc : N.eqb c CR = false).
  { apply N.eqb_neq. intros ->. apply Hcr. left; reflexivity. }
  cbn. rewrite Hc. reflexivity.
Qed.

Section Multipart.

Variables boundary title description : str.
Hypothesis boundary_nonempty : boundary <> [].
Hypothesis boundary_chars : forallb boundary_char boundary = true.
Hypothesis title_text : starts_with_text title = true.
Hypothesis description_text : starts_with_text description = true.
Hypothesis title_clear : includes (delimiter boundary) title = false.
Hypothesis description_clear :
  includes (delimiter boundary) description = false.
Hypothesis description_no_title :
  includes Handler.name_job_title description = false.

Lemma delimiter_no_break : ~ In CR (delimiter boundary).
Proof.
  intros [H|[H|H]]; try discriminate.
  revert H. apply boundary_excludes; [assumption|reflexivity].
Qed.

Lemma content_type_boundary :
  split (lit "boundary=") (lit "multipart/form-data; boundary=" ++ boundary) =
  [lit "multipart/form-data; "; boundary].
Proof.
  change (split (lit "boundary=")
            (lit "multipart/form-data; boundary=" ++ boundary))
    with (lit "multipart/form-data; "
          :: split_from (lit "boundary=") 0 [] boundary).
  rewrite split_from_none; [reflexivity|].
  apply no_start_of_includes.
  apply includes_without with (x := ch "=");
    [vm_compute; auto 10|].
  apply boundary_excludes; [assumption|reflexivity].
Qed.

Lemma part_clear (name value rest : str) :
  includes (delimiter boundary) value = false ->
  no_start (delimiter boundary) (part_header name ++ value ++ CRLF)
           (delimiter boundary ++ rest) = true
  <-> no_start (delimiter boundary) (part_header name)
               (value ++ CRLF ++ delimiter boundary ++ rest) = true.
Proof.
  intros Hvalue.
  pose proof (no_start_before (delimiter boundary) value CR
                (LF :: delimiter boundary ++ rest)
                Hvalue delimiter_no_break) as Hclear.
  change (CR :: LF :: delimiter boundary ++ rest)
    with (CRLF ++ delimiter boundary ++ rest) in Hclear.
  rewrite no_start_app, no_start_app, <- !app_assoc, Hclear.
  change (no_start (delimiter boundary) CRLF (delimiter boundary ++ rest))
    with true.
  rewrite !andb_true_r. reflexivity.
Qed.

(** The parts of the body: the empty piece before the first delimiter, the
    two fields, and what follows the closing delimiter. *)
Lemma body_parts :
  split (delimiter boundary) (multipart_body boundary title description) =
  [[];
   part_header (lit "job_title") ++ title ++ CRLF;
   part_header (lit "job_description") ++ description ++ CRLF;
   lit "--" ++ CRLF].
Proof.
  assert (Hsep : delimiter boundary <> []) by discriminate.
  set (part1 := part_header (lit "job_title") ++ title ++ CRLF).
  set (part2 := part_header (lit "job_description") ++ description ++ CRLF).
  assert (Hbody : multipart_body boundary title description =
                  [] ++ delimiter boundary ++ part1
                  ++ delimiter boundary ++ part2
                  ++ delimiter boundary ++ lit "--" ++ CRLF).
  { unfold multipart_body, part1, part2.
    rewrite <- !app_assoc. reflexivity. }
  rewrite Hbody. unfold split.
  rewrite (split_from_piece (delimiter boundary) [] _ [] Hsep eq_refl).
  rewrite (split_from_piece (delimiter boundary) part1 _ [] Hsep)
    by (apply part_clear; [assumption|reflexivity]).
  rewrite (split_from_piece (delimiter boundary) part2 _ [] Hsep)
    by (apply part_clear; [assumption|reflexivity]).
  rewrite split_from_none; [reflexivity|].
  apply closing_clear; [assumption|].
  apply boundary_excludes; [assumption|reflexivity].
Qed.

End Multipart.

Lemma field_value_of_part (name value : str) :
  name = lit "job_title" \/ name = lit "job_description" ->
  starts_with_text value = true ->
  match_group1 (Handler.re_field (lit "name=" ++ quoted name))
               (part_header name ++ value ++ CRLF) =
  Some (first_line value).
Proof.
  intros Hname Htext. destruct value as [|x v]; [discriminate|].
  apply negb_true_iff in Htext.
  change ((x :: v) ++ CRLF) with (x :: v ++ CRLF).
  rewrite field_of_part by assumption.
  change (x :: v ++ CRLF) with ((x :: v) ++ CR :: LF :: []).
  rewrite first_line_before_break. reflexivity.
Qed.

(** The part of [job_description] does not name [job_title]. *)
Lemma description_part_no_title (description : str) :
  includes Handler.name_job_title description = false ->
  includes Handler.name_job_title
           (part_header (lit "job_description") ++ description ++ CRLF) = false.
Proof.
  intros Hnone.
  change (includes Handler.name_job_title
            (part_header (lit "job_description") ++ description ++ CRLF))
    with (includes Handler.name_job_title (description ++ CR :: [LF])).
  rewrite includes_before; [reflexivity|assumption|].
  vm_compute. intuition discriminate.
Qed.

Lemma scan_title_part (title : str) :
  starts_with_text title = true ->
  exists seen,
    Handler.scan_part (VUndefined, VUndefined)
                      (part_header (lit "job_title") ++ title ++ CRLF) =
    (VString (trim (first_line title)), seen).
Proof.
  intros Htitle.
  pose proof (field_value_of_part (lit "job_title") title
                (or_introl eq_refl) Htitle) as Hvalue.
  change (lit "name=" ++ quoted (lit "job_title"))
    with Handler.name_job_title in Hvalue.
  unfold Handler.scan_part.
  change (includes Handler.name_job_title
            (part_header (lit "job_title") ++ title ++ CRLF)) with true.
  cbv iota. rewrite Hvalue. eexists; reflexivity.
Qed.

Lemma scan_description_part (description : str) (job_title seen : value) :
  starts_with_text description = true ->
  includes Handler.name_job_title description = false ->
  Handler.scan_part (job_title, seen)
                    (part_header (lit "job_description") ++ description ++ CRLF) =
  (job_title, VString (trim (first_line description))).
Proof.
  intros Hdescription Hnotitle.
  pose proof (field_value_of_part (lit "job_description") description
                (or_intror eq_refl) Hdescription) as Hvalue.
  change (lit "name=" ++ quoted (lit "job_description"))
    with Handler.name_job_description in Hvalue.
  unfold Handler.scan_part.
  rewrite description_part_no_title by assumption.
  change (includes Handler.name_job_description
            (part_header (lit "job_description") ++ description ++ CRLF))
    with true.
  cbv iota. rewrite Hvalue. reflexivity.
Qed.

Lemma scan_other_part (fields : value * value) :
  Handler.scan_part fields [] = fields /\
  Handler.scan_part fields (lit "--" ++ CRLF) = fields.
Proof. destruct fields; split; reflexivity. Qed.




(** The framing matters.  With a second header line in each part, the
    field pattern finds no blank line after the name and both fields stay
    [undefined]; with the [job_description] part first, a title that holds
    the text [name="job_description"] and a blank line overwrites the
    description. *)
Example multipart_framing_matters :
  Handler.parse_request
    (Handler.Event (lit "POST")
       [(lit "content-type", lit "multipart/form-data; boundary=xyz")]
       (Handler.BString
          (lit "--xyz" ++ CRLF
           ++ lit "Content-Disposition: form-data; " ++ Handler.name_job_title
           ++ CRLF ++ lit "Content-Type: text/plain" ++ CRLF ++ CRLF
           ++ lit "Engineer" ++ CRLF
           ++ lit "--xyz" ++ CRLF
           ++ lit "Content-Disposition: form-data; "
           ++ Handler.name_job_description
           ++ CRLF ++ lit "Content-Type: text/plain" ++ CRLF ++ CRLF
           ++ lit "Remote" ++ CRLF
           ++ lit "--xyz--" ++ CRLF))
       None) =
  Handler.Fields VUndefined VUndefined
  /\ Handler.parse_request
       (Handler.Event (lit "POST")
          [(lit "content-type", lit "multipart/form-data; boundary=xyz")]
          (Handler.BString
             (lit "--xyz" ++ part_header (lit "job_description")
              ++ lit "Remote" ++ CRLF
              ++ lit "--xyz" ++ part_header (lit "job_title")
              ++ lit "Engineer " ++ Handler.name_job_description
              ++ [LF; LF] ++ lit "EVIL" ++ CRLF
              ++ lit "--xyz--" ++ CRLF))
          None) =
     Handler.Fields (VString (lit "Engineer " ++ Handler.name_job_description))
                    (VString (lit "EVIL")).
Proof. split; vm_compute; reflexivity. Qed.


(* ================================================================== *)
(** * Further properties *)

(** ** A job title that is no string *)

(** The JSON body [{"job_title":{"toString":0},"job_description":"x"}] is
    read, both fields are truthy, and the template literal of the prompt
    throws on the title: both handlers answer 500 with a [TypeError], and
    the model is not called. *)
Example unprintable_title :
  Handler.parse_request Scenario.unprintable_request =
    Handler.Fields Scenario.unprintable (VString (lit "x"))
  /\ stringifies Scenario.unprintable = false
  /\ stringifies (VArray [VNull; VString (lit "a"); VArray []]) = true
  /\ stringifies (VArray [VNumber false 1 0; Scenario.unprintable]) = false
  /\ Handler.handler Sample.third_time_lucky Scenario.unprintable_request =
     ([], Handler.Response 500 Handler.cors_headers
            (Handler.BodyFailure TypeError))
  /\ FallbackHandler.handler Sample.third_time_lucky Scenario.unprintable_request =
     ([], Handler.Response 500 Handler.cors_headers
            (Handler.BodyFailure TypeError)).
Proof. repeat split; vm_compute; reflexivity. Qed.

(** ** The shape of what the loop does *)

(** The loop in full: [k] iterations fall through to the wait, and then
    either the attempts are used up or iteration [attempt + k] leaves the
    function. *)
Lemma retry_loop_shape (call : effect) (body : nat -> result (option value))
    (remaining attempt : nat) :
  exists k,
    (forall a, attempt <= a < attempt + k -> body a = Ok None) /\
    ((k = remaining /\
      retry_loop call body remaining attempt =
      (retries call k attempt, Ok VUndefined))
     \/ (k < remaining /\
         body (attempt + k) <> Ok None /\
         retry_loop call body remaining attempt =
         (retries call k attempt ++ [call],
          match body (attempt + k) with
          | Ok (Some v) => Ok v
          | Ok None => Ok VUndefined
          | Throw e => Throw e
          end))).
Proof.
  revert attempt; induction remaining as [|n IH]; intros attempt.
  - exists 0. split; [intros a Ha; lia|]. left. split; reflexivity.
  - destruct (body attempt) as [[v|]|e] eqn:Hbody.
    + exists 0. split; [intros a Ha; lia|]. right.
      rewrite Nat.add_0_r, Hbody. simpl. rewrite Hbody.
      repeat split; [lia|discriminate].
    + destruct (IH (S attempt)) as (k & Hfail & Hk).
      exists (S k). split.
      * intros a Ha. destruct (Nat.eq_dec a attempt) as [->|Hne];
          [assumption|apply Hfail; lia].
      * replace (attempt + S k) with (S attempt + k) by lia.
        simpl retry_loop. rewrite Hbody.
        destruct Hk as [(-> & ->)|(Hlt & Hleave & ->)]; [left|right];
          repeat split; auto; lia.
    + exists 0. split; [intros a Ha; lia|]. right.
      rewrite Nat.add_0_r, Hbody. simpl. rewrite Hbody.
      repeat split; [lia|discriminate].
Qed.

Lemma validate_undefined :
  ThrowVariant.validate VUndefined = Throw TypeError
  /\ FallbackVariant.validate VUndefined = Throw TypeError.
Proof. split; reflexivity. Qed.

Lemma throw_try_parse_value (text : str) (v : value) :
  ThrowVariant.try_parse text = Ok (Some v) ->
  JSON_parse text = Some v /\ ThrowVariant.validate v = Ok true.
Proof.
  unfold ThrowVariant.try_parse.
  destruct (JSON_parse text) as [j|]; [|discriminate].
  destruct (ThrowVariant.validate j) as [[|]|] eqn:Hv; simpl; try discriminate.
  intros H; injection H as <-. auto.
Qed.

Lemma fallback_try_parse_value (text : str) (v : value) :
  FallbackVariant.try_parse text = Ok (Some v) ->
  JSON_parse text = Some v /\ FallbackVariant.validate v = Ok true.
Proof.
  unfold FallbackVariant.try_parse.
  destruct (JSON_parse text) as [j|]; [|discriminate].
  destruct (FallbackVariant.validate j) as [[|]|] eqn:Hv; simpl; try discriminate.
  intros H; injection H as <-. auto.
Qed.

Lemma throw_body_not_undefined (maxRetries attempt : nat) (out : run_result) :
  ThrowVariant.attempt_body maxRetries attempt out <> Ok (Some VUndefined).
Proof.
  intros H. apply throw_body_returns in H as (output & _ & H).
  apply throw_try_parse_value in H as [_ H]. discriminate.
Qed.

Lemma fallback_body_not_undefined (jobTitle : value) (maxRetries attempt : nat)
    (out : run_result) :
  FallbackVariant.attempt_body jobTitle maxRetries attempt out <> Some VUndefined.
Proof.
  intros H. apply fallback_body_returns in H as [[error H]|(output & _ & H)].
  - discriminate.
  - apply fallback_try_parse_value in H as [_ H]. discriminate.
Qed.

Lemma throw_loop_outcome (run : oracle) (jobTitle jobDescription : value)
    (maxRetries : nat) :
  loop_outcome (Run ThrowVariant.model jobTitle jobDescription) maxRetries
    (ThrowVariant.attempt_loop run jobTitle jobDescription maxRetries).
Proof.
  unfold ThrowVariant.attempt_loop.
  destruct (retry_loop_shape (Run ThrowVariant.model jobTitle jobDescription)
              (fun attempt => ThrowVariant.attempt_body maxRetries attempt (run attempt))
              maxRetries 1) as (k & _ & [(Hk & ->)|(Hk & Hleave & ->)]);
    exists k; [left; auto|right].
  repeat split; [assumption|]. cbv beta in *. simpl snd.
  change (1 + k) with (S k) in *.
  destruct (ThrowVariant.attempt_body maxRetries (S k) (run (S k)))
    as [[v|]|e] eqn:Hbody; try congruence.
  intros H; injection H as ->.
  exact (throw_body_not_undefined _ _ _ Hbody).
Qed.

Lemma fallback_loop_outcome (run : oracle) (jobTitle jobDescription : value)
    (maxRetries : nat) :
  loop_outcome (Run FallbackVariant.model jobTitle jobDescription) maxRetries
    (FallbackVariant.attempt_loop run jobTitle jobDescription maxRetries).
Proof.
  unfold FallbackVariant.attempt_loop.
  destruct (retry_loop_shape (Run FallbackVariant.model jobTitle jobDescription)
              (fun attempt =>
                 Ok (FallbackVariant.attempt_body jobTitle maxRetries attempt
                       (run attempt)))
              maxRetries 1) as (k & _ & [(Hk & ->)|(Hk & Hleave & ->)]);
    exists k; [left; auto|right].
  repeat split; [assumption|]. cbv beta in *. simpl snd.
  change (1 + k) with (S k) in *.
  destruct (FallbackVariant.attempt_body jobTitle maxRetries (S k) (run (S k)))
    as [v|] eqn:Hbody; try congruence.
  intros H; injection H as ->.
  exact (fallback_body_not_undefined _ _ _ _ Hbody).
Qed.

(** X1: whatever the model answers, and in both revisions.  When the
    prompt cannot be built, because the job title or the job description
    does not convert to a string, the function throws a [TypeError] and the
    model is not called.  Otherwise the loop alternates calls and waits,
    starting with a call; the wait after attempt [a] is [1000 * a] ms.
    Either every one of the [maxRetries] attempts was followed by its wait
    and the result is [undefined], or the effects end with a call before
    [maxRetries] waits were made and the function returns something else
    than [undefined], or throws. *)
Theorem loop_calls_and_waits_alternate
    (run : oracle) (jobTitle jobDescription : value) (maxRetries : nat) :
  let throwing :=
    ThrowVariant.extractJobDetailsWithRetry run jobTitle jobDescription maxRetries in
  let degrading :=
    FallbackVariant.extractJobDetailsWithRetry run jobTitle jobDescription maxRetries in
  if stringifies jobTitle && stringifies jobDescription then
    loop_outcome (Run ThrowVariant.model jobTitle jobDescription) maxRetries
      throwing
    /\ loop_outcome (Run FallbackVariant.model jobTitle jobDescription) maxRetries
         degrading
  else
    throwing = ([], Throw TypeError) /\ degrading = ([], Throw TypeError).
Proof.
  unfold ThrowVariant.extractJobDetailsWithRetry,
    FallbackVariant.extractJobDetailsWithRetry.
  destruct (stringifies jobTitle && stringifies jobDescription).
  - split; [apply throw_loop_outcome | apply fallback_loop_outcome].
  - split; reflexivity.
Qed.

Lemma loop_outcome_budget (m : str) (t d : value)
    (r : list effect * result value) :
  loop_outcome (Run m t d) 3 r -> within_budget (fst r).
Proof.
  intros (k & [(Hk & -> & _)|(Hk & -> & _)]); unfold within_budget, total_wait.
  - rewrite attempts_retries, waits_retries by (do 3 eexists; reflexivity).
    subst k. split; [lia|]. split; [exists 3; split; [lia|reflexivity]|].
    unfold list_sum; cbn [fold_right map seq]. lia.
  - rewrite attempts_app, waits_app, attempts_retries, waits_retries
      by (do 3 eexists; reflexivity).
    simpl attempts; simpl waits. rewrite app_nil_r.
    split; [lia|]. split; [exists k; split; [lia|reflexivity]|].
    destruct k as [|[|[|k]]]; unfold list_sum; cbn [fold_right map seq]; lia.
Qed.

Lemma no_effects_within_budget : within_budget [].
Proof.
  unfold within_budget, total_wait. unfold list_sum; cbn [attempts waits fold_right].
  split; [lia|]. split; [exists 0; split; [lia|reflexivity]|lia].
Qed.

Lemma throw_extract_budget (run : oracle) (jobTitle jobDescription : value) :
  within_budget
    (fst (ThrowVariant.extractJobDetailsWithRetry run jobTitle jobDescription 3)).
Proof.
  unfold ThrowVariant.extractJobDetailsWithRetry.
  destruct (stringifies jobTitle && stringifies jobDescription);
    [|apply no_effects_within_budget].
  eapply loop_outcome_budget, throw_loop_outcome.
Qed.

Lemma fallback_extract_budget (run : oracle) (jobTitle jobDescription : value) :
  within_budget
    (fst (FallbackVariant.extractJobDetailsWithRetry
            run jobTitle jobDescription 3)).
Proof.
  unfold FallbackVariant.extractJobDetailsWithRetry.
  destruct (stringifies jobTitle && stringifies jobDescription);
    [|apply no_effects_within_budget].
  eapply loop_outcome_budget, fallback_loop_outcome.
Qed.

(** X2: whatever the request and whatever the model answers (and whatever
    busboy does), each of the four handlers calls the model at most three
    times, waits after the calls 1000 ms, then 2000 ms, then 3000 ms, never
    in another order, and spends at most 6000 ms waiting. *)
Theorem handlers_within_budget
    (parseMultipartForm : Handler.event -> form_result)
    (run : oracle) (ev : Handler.event) :
  within_budget (fst (Handler.handler run ev))
  /\ within_budget (fst (JsonHandler.handler run ev))
  /\ within_budget (fst (FallbackHandler.handler run ev))
  /\ within_budget (fst (BusboyHandler.handler parseMultipartForm run ev)).
Proof.
  unfold Handler.handler, JsonHandler.handler, FallbackHandler.handler,
    BusboyHandler.handler.
  destruct (Str.eqb (Handler.httpMethod ev) (lit "OPTIONS"));
    [repeat split; apply no_effects_within_budget|].
  destruct (negb (Str.eqb (Handler.httpMethod ev) (lit "POST")));
    [repeat split; apply no_effects_within_budget|].
  split; [|split; [|split]].
  - destruct (Handler.parse_request ev) as [a b|r|e];
      try apply no_effects_within_budget.
    destruct (Handler.with_query ev (a, b)) as [t d].
    destruct (negb (truthy t) || negb (truthy d));
      [apply no_effects_within_budget|].
    pose proof (throw_extract_budget run t d) as H.
    destruct (ThrowVariant.extractJobDetailsWithRetry run t d 3). exact H.
  - destruct (do body <- _; _) as [[t d]|e];
      try apply no_effects_within_budget.
    destruct (negb (truthy t) || negb (truthy d));
      [apply no_effects_within_budget|].
    pose proof (throw_extract_budget run t d) as H.
    destruct (ThrowVariant.extractJobDetailsWithRetry run t d 3). exact H.
  - destruct (FallbackHandler.parse_request ev) as [t d|r|e];
      try apply no_effects_within_budget.
    destruct (negb (truthy t) || negb (truthy d));
      [apply no_effects_within_budget|].
    pose proof (fallback_extract_budget run t d) as H.
    destruct (FallbackVariant.extractJobDetailsWithRetry run t d 3). exact H.
  - destruct (BusboyHandler.parse_request parseMultipartForm ev) as [a b|r|e];
      try apply no_effects_within_budget.
    destruct (Handler.with_query ev (a, b)) as [t d].
    destruct (negb (truthy t) || negb (truthy d));
      [apply no_effects_within_budget|].
    pose proof (throw_extract_budget run t d) as H.
    destruct (ThrowVariant.extractJobDetailsWithRetry run t d 3). exact H.
Qed.

(** ** The first accepted response *)

Lemma retry_loop_first_return (call : effect)
    (body : nat -> result (option value)) (n k : nat) (v : value) :
  1 <= k <= n ->
  (forall a, 1 <= a < k -> body a = Ok None) ->
  body k = Ok (Some v) ->
  retry_loop call body n 1 = (retries call (k - 1) 1 ++ [call], Ok v).
Proof.
  intros Hk Hfail Hreturn.
  replace n with ((k - 1) + S (n - k)) by lia.
  rewrite retry_loop_retries by (intros a Ha; apply Hfail; lia).
  replace (1 + (k - 1)) with k by lia.
  simpl. rewrite Hreturn. reflexivity.
Qed.

Lemma throw_body_not_accepted (maxRetries attempt : nat) (out : run_result) :
  attempt <> maxRetries ->
  throw_accepts out = false ->
  ThrowVariant.attempt_body maxRetries attempt out = Ok None.
Proof.
  intros Hne Hout. apply Nat.eqb_neq in Hne.
  unfold ThrowVariant.attempt_body, ThrowVariant.parse_or_retry.
  destruct out as [message|output]; simpl in Hout.
  - rewrite Hne. reflexivity.
  - destruct (ThrowVariant.try_parse (trim (join output))) as [[v|]|e];
      try discriminate; rewrite ?Hne; reflexivity.
Qed.

Lemma throw_body_accepted (maxRetries attempt : nat) (out : run_result) :
  throw_accepts out = true ->
  exists output v,
    out = RunOutput output /\
    JSON_parse (trim (join output)) = Some v /\
    ThrowVariant.validate v = Ok true /\
    ThrowVariant.attempt_body maxRetries attempt out = Ok (Some v).
Proof.
  destruct out as [message|output]; simpl; [discriminate|].
  destruct (ThrowVariant.try_parse (trim (join output))) as [[v|]|e] eqn:Htry;
    try discriminate.
  intros _. exists output, v.
  destruct (throw_try_parse_value _ _ Htry) as [Hparse Hvalid].
  repeat split; try assumption.
  eapply throw_body_valid; eassumption.
Qed.

Lemma fallback_body_not_accepted (jobTitle : value) (maxRetries attempt : nat)
    (out : run_result) :
  attempt <> maxRetries ->
  fallback_accepts out = false ->
  FallbackVariant.attempt_body jobTitle maxRetries attempt out = None.
Proof.
  intros Hne Hout. apply Nat.eqb_neq in Hne.
  unfold FallbackVariant.attempt_body, FallbackVariant.parse_or_retry.
  destruct out as [message|output]; simpl in Hout.
  - rewrite Hne. reflexivity.
  - destruct (FallbackVariant.try_parse (FallbackVariant.clean output))
      as [[v|]|e]; try discriminate; rewrite ?Hne; reflexivity.
Qed.

Lemma fallback_body_accepted (jobTitle : value) (maxRetries attempt : nat)
    (out : run_result) :
  fallback_accepts out = true ->
  exists output v,
    out = RunOutput output /\
    JSON_parse (FallbackVariant.clean output) = Some v /\
    FallbackVariant.validate v = Ok true /\
    FallbackVariant.attempt_body jobTitle maxRetries attempt out = Some v.
Proof.
  destruct out as [message|output]; simpl; [discriminate|].
  destruct (FallbackVariant.try_parse (FallbackVariant.clean output))
    as [[v|]|e] eqn:Htry; try discriminate.
  intros _. exists output, v.
  destruct (fallback_try_parse_value _ _ Htry) as [Hparse Hvalid].
  repeat split; try assumption.
  unfold FallbackVariant.parse_or_retry. rewrite Htry. reflexivity.
Qed.

(** X3: for a job title and a job description from which the prompt can
    be built, when attempt [k], with [1 <= k <= maxRetries], is the first
    whose response parses and passes the validation, whatever went wrong
    before it (the call failed, the text was not JSON, the value was
    rejected), the function returns the object parsed from that response
    right after call [k]: it has made [k] calls and waited after each of the
    first [k - 1], and the answers the model would give later play no part.
    In the degrading revision the response is parsed after the code fences
    are stripped. *)
Theorem first_accepted_response_returned
    (run : oracle) (jobTitle jobDescription : value) (maxRetries k : nat) :
  stringifies jobTitle = true ->
  stringifies jobDescription = true ->
  1 <= k <= maxRetries ->
  ((forall a, 1 <= a < k -> throw_accepts (run a) = false) ->
   throw_accepts (run k) = true ->
   exists output v,
     run k = RunOutput output /\
     JSON_parse (trim (join output)) = Some v /\
     ThrowVariant.extractJobDetailsWithRetry
       run jobTitle jobDescription maxRetries =
     (retries (Run ThrowVariant.model jobTitle jobDescription) (k - 1) 1
      ++ [Run ThrowVariant.model jobTitle jobDescription], Ok v)) /\
  ((forall a, 1 <= a < k -> fallback_accepts (run a) = false) ->
   fallback_accepts (run k) = true ->
   exists output v,
     run k = RunOutput output /\
     JSON_parse (FallbackVariant.clean output) = Some v /\
     FallbackVariant.extractJobDetailsWithRetry
       run jobTitle jobDescription maxRetries =
     (retries (Run FallbackVariant.model jobTitle jobDescription) (k - 1) 1
      ++ [Run FallbackVariant.model jobTitle jobDescription], Ok v)).
Proof.
  intros Ht Hd Hk. split; intros Hfail Hreturn.
  - destruct (throw_body_accepted maxRetries k _ Hreturn)
      as (output & v & Hrun & Hparse & _ & Hbody).
    exists output, v. repeat split; try assumption.
    rewrite throw_extract_loop by assumption.
    apply retry_loop_first_return; [assumption| |assumption].
    intros a Ha. apply throw_body_not_accepted; [lia|apply Hfail; lia].
  - destruct (fallback_body_accepted jobTitle maxRetries k _ Hreturn)
      as (output & v & Hrun & Hparse & _ & Hbody).
    exists output, v. repeat split; try assumption.
    rewrite fallback_extract_loop by assumption.
    apply retry_loop_first_return; [assumption| |cbv beta; congruence].
    intros a Ha. cbv beta. f_equal.
    apply fallback_body_not_accepted; [lia|apply Hfail; lia].
Qed.

Lemma first_accepted_response_returned_witness :
  ThrowVariant.extractJobDetailsWithRetry
    Scenario.second_time_lucky Sample.jobTitle Sample.jobDescription 3 =
  ([Run ThrowVariant.model Sample.jobTitle Sample.jobDescription; Wait 1000;
    Run ThrowVariant.model Sample.jobTitle Sample.jobDescription],
   Ok Sample.good_value).
Proof.
  destruct (first_accepted_response_returned
              Scenario.second_time_lucky Sample.jobTitle Sample.jobDescription 3 2
              eq_refl eq_refl ltac:(lia)) as [H _].
  destruct H as (output & v & Hrun & Hparse & ->).
  - intros a Ha. assert (a = 1) as -> by lia. reflexivity.
  - vm_compute. reflexivity.
  - injection Hrun as <-. vm_compute in Hparse. injection Hparse as <-.
    reflexivity.
Defined.

(** ** When the model cannot be reached *)

Lemma throw_rejected_last_call
    (run : oracle) (jobTitle jobDescription : value) (maxRetries : nat)
    (message : str) :
  stringifies jobTitle = true ->
  stringifies jobDescription = true ->
  1 <= maxRetries ->
  run maxRetries = RunThrows message ->
  (forall a, 1 <= a < maxRetries -> throw_accepts (run a) = false) ->
  ThrowVariant.extractJobDetailsWithRetry
    run jobTitle jobDescription maxRetries =
  (exhausted (Run ThrowVariant.model jobTitle jobDescription) maxRetries,
   Throw (Error message)).
Proof.
  intros Ht Hd Hn Hlast Hfail.
  rewrite throw_extract_loop by assumption.
  apply retry_loop_exhausted; [assumption| |].
  - intros a Ha. apply throw_body_not_accepted; [lia|apply Hfail; lia].
  - rewrite Hlast. unfold ThrowVariant.attempt_body.
    rewrite Nat.eqb_refl. split; [reflexivity|discriminate].
Qed.

Lemma fallback_rejected_last_call
    (run : oracle) (jobTitle jobDescription : value) (maxRetries : nat)
    (message : str) :
  stringifies jobTitle = true ->
  stringifies jobDescription = true ->
  1 <= maxRetries ->
  run maxRetries = RunThrows message ->
  (forall a, 1 <= a < maxRetries -> fallback_accepts (run a) = false) ->
  FallbackVariant.extractJobDetailsWithRetry
    run jobTitle jobDescription maxRetries =
  (exhausted (Run FallbackVariant.model jobTitle jobDescription) maxRetries,
   Ok (FallbackVariant.fallback jobTitle
         (lit "AI processing failed: " ++ message))).
Proof.
  intros Ht Hd Hn Hlast Hfail.
  rewrite fallback_extract_loop by assumption.
  apply retry_loop_exhausted; [assumption| |].
  - intros a Ha. f_equal.
    apply fallback_body_not_accepted; [lia|apply Hfail; lia].
  - rewrite Hlast. unfold FallbackVariant.attempt_body.
    rewrite Nat.eqb_refl. split; [reflexivity|discriminate].
Qed.

(** X4: for a job title and a job description from which the prompt can
    be built, when the last of the [maxRetries >= 1] calls is rejected by
    the model and no earlier attempt returned, the loop has made
    [maxRetries] calls, with a wait after each but the last.  The revision
    that throws rethrows the error of that last call, with its message
    unchanged; the degrading revision returns the record with the input
    title as [job_title], [null] for [city], [work_arrangement], [company]
    and [experience], and as [error] "AI processing failed: " followed by
    that message. *)
Theorem rejected_last_call_ends_loop
    (run : oracle) (jobTitle jobDescription : value) (maxRetries : nat)
    (message : str) :
  stringifies jobTitle = true ->
  stringifies jobDescription = true ->
  1 <= maxRetries ->
  run maxRetries = RunThrows message ->
  ((forall a, 1 <= a < maxRetries -> throw_accepts (run a) = false) ->
   ThrowVariant.extractJobDetailsWithRetry
     run jobTitle jobDescription maxRetries =
   (exhausted (Run ThrowVariant.model jobTitle jobDescription) maxRetries,
    Throw (Error message))) /\
  ((forall a, 1 <= a < maxRetries -> fallback_accepts (run a) = false) ->
   FallbackVariant.extractJobDetailsWithRetry
     run jobTitle jobDescription maxRetries =
   (exhausted (Run FallbackVariant.model jobTitle jobDescription) maxRetries,
    Ok (VObject
          [(lit "job_title", jobTitle);
           (lit "city", VNull);
           (lit "work_arrangement", VNull);
           (lit "company", VNull);
           (lit "experience", VNull);
           (lit "error", VString (lit "AI processing failed: " ++ message))]))).
Proof.
  intros Ht Hd Hn Hlast. split; intros Hfail.
  - apply throw_rejected_last_call; assumption.
  - apply fallback_rejected_last_call; assumption.
Qed.

Lemma rejected_last_call_ends_loop_witness :
  ThrowVariant.extractJobDetailsWithRetry
    Scenario.down Sample.jobTitle Sample.jobDescription 3 =
  ([Run ThrowVariant.model Sample.jobTitle Sample.jobDescription; Wait 1000;
    Run ThrowVariant.model Sample.jobTitle Sample.jobDescription; Wait 2000;
    Run ThrowVariant.model Sample.jobTitle Sample.jobDescription],
   Throw (Error (lit "Service unavailable")))
  /\ snd (FallbackVariant.extractJobDetailsWithRetry
            Scenario.down Sample.jobTitle Sample.jobDescription 3) =
     Ok (VObject
           [(lit "job_title", VString (lit "Senior Data Engineer, Acme Corp"));
            (lit "city", VNull);
            (lit "work_arrangement", VNull);
            (lit "company", VNull);
            (lit "experience", VNull);
            (lit "error",
             VString (lit "AI processing failed: Service unavailable"))]).
Proof.
  destruct (rejected_last_call_ends_loop
              Scenario.down Sample.jobTitle Sample.jobDescription 3
              (lit "Service unavailable") eq_refl eq_refl ltac:(lia) eq_refl)
    as [Hthrow Hdegrade].
  split.
  - rewrite Hthrow by (intros a _; reflexivity). reflexivity.
  - rewrite Hdegrade by (intros a _; reflexivity). reflexivity.
Defined.

Lemma validate_throws (v : value) (e : exn) :
  ThrowVariant.validate v = Throw e \/ FallbackVariant.validate v = Throw e ->
  v = VNull \/ v = VUndefined.
Proof.
  unfold ThrowVariant.validate, FallbackVariant.validate, Js.bind.
  destruct v; simpl; auto; intros [H|H]; try discriminate;
    repeat match type of H with
           | context [lookup ?k ?f] => destruct (lookup k f)
           end; discriminate.
Qed.

Lemma throw_body_throws (maxRetries attempt : nat) (out : run_result) (e : exn) :
  ThrowVariant.attempt_body maxRetries attempt out = Throw e ->
  attempt = maxRetries /\
  ((exists message, out = RunThrows message /\ e = Error message) \/
   (exists output,
      out = RunOutput output /\
      e = Error (ThrowVariant.failure_message maxRetries (trim (join output))) /\
      (JSON_parse (trim (join output)) = None \/
       JSON_parse (trim (join output)) = Some VNull))).
Proof.
  unfold ThrowVariant.attempt_body, ThrowVariant.parse_or_retry.
  destruct out as [message|output].
  - destruct (Nat.eqb attempt maxRetries) eqn:Hlast; [|discriminate].
    intros H; injection H as <-. apply Nat.eqb_eq in Hlast.
    split; [assumption|]. left. eexists; split; reflexivity.
  - destruct (ThrowVariant.try_parse (trim (join output))) as [r|e'] eqn:Htry;
      [discriminate|].
    destruct (Nat.eqb attempt maxRetries) eqn:Hlast; [|discriminate].
    intros H; injection H as <-. apply Nat.eqb_eq in Hlast.
    split; [assumption|]. right. exists output. repeat split.
    unfold ThrowVariant.try_parse in Htry.
    destruct (JSON_parse (trim (join output))) as [j|] eqn:Hparse; [|auto].
    right. f_equal.
    destruct (ThrowVariant.validate j) as [valid|e''] eqn:Hvalid;
      [discriminate|].
    destruct (validate_throws j e'' (or_introl Hvalid)) as [->| ->];
      [reflexivity|].
    exfalso. exact (JSON_parse_defined _ Hparse).
Qed.

Lemma throw_loop_throws
    (run : oracle) (jobTitle jobDescription : value) (maxRetries : nat)
    (e : exn) :
  snd (ThrowVariant.attempt_loop run jobTitle jobDescription maxRetries)
    = Throw e ->
  1 <= maxRetries /\
  fst (ThrowVariant.attempt_loop run jobTitle jobDescription maxRetries) =
    exhausted (Run ThrowVariant.model jobTitle jobDescription) maxRetries /\
  ThrowVariant.attempt_body maxRetries maxRetries (run maxRetries) = Throw e.
Proof.
  unfold ThrowVariant.attempt_loop.
  destruct (retry_loop_shape (Run ThrowVariant.model jobTitle jobDescription)
              (fun attempt => ThrowVariant.attempt_body maxRetries attempt (run attempt))
              maxRetries 1) as (k & _ & [(Hk & ->)|(Hk & _ & ->)]);
    [discriminate|].
  cbv beta. simpl fst; simpl snd. change (1 + k) with (S k).
  destruct (ThrowVariant.attempt_body maxRetries (S k) (run (S k)))
    as [[v|]|e'] eqn:Hbody; try discriminate.
  intros H; injection H as ->.
  destruct (throw_body_throws _ _ _ _ Hbody) as [Hlast _].
  subst maxRetries. split; [lia|]. split; [|assumption].
  unfold exhausted. simpl. rewrite Nat.sub_0_r. reflexivity.
Qed.

(** What the function throws: the error of the prompt, or what the loop
    throws. *)
Lemma throw_extract_throws
    (run : oracle) (jobTitle jobDescription : value) (maxRetries : nat)
    (e : exn) :
  snd (ThrowVariant.extractJobDetailsWithRetry
         run jobTitle jobDescription maxRetries) = Throw e ->
  (stringifies jobTitle && stringifies jobDescription = false /\
   e = TypeError /\
   fst (ThrowVariant.extractJobDetailsWithRetry
          run jobTitle jobDescription maxRetries) = []) \/
  (stringifies jobTitle && stringifies jobDescription = true /\
   1 <= maxRetries /\
   fst (ThrowVariant.extractJobDetailsWithRetry
          run jobTitle jobDescription maxRetries) =
     exhausted (Run ThrowVariant.model jobTitle jobDescription) maxRetries /\
   ThrowVariant.attempt_body maxRetries maxRetries (run maxRetries) = Throw e).
Proof.
  unfold ThrowVariant.extractJobDetailsWithRetry.
  destruct (stringifies jobTitle && stringifies jobDescription).
  - intros H. right. split; [reflexivity|].
    apply throw_loop_throws; assumption.
  - intros H; injection H as <-. left. auto.
Qed.

(** X5: the revision that throws does so at two points only: before the
    first call, or on its last attempt.  When [extractJobDetailsWithRetry]
    throws, either the prompt could not be built (the job title or the job
    description does not convert to a string), the error is a [TypeError]
    and the model was not called; or the function has made exactly
    [maxRetries] calls with a wait after each but the last, and the error is
    the one with which the last call was rejected, or the error "Failed to
    extract valid JSON after [maxRetries] attempts. Last response: ..." for
    a last response that is not JSON or is the JSON text [null].  No failure
    of an earlier attempt is ever reported. *)
Theorem errors_before_first_or_on_last_attempt
    (run : oracle) (jobTitle jobDescription : value) (maxRetries : nat)
    (e : exn) :
  snd (ThrowVariant.extractJobDetailsWithRetry
         run jobTitle jobDescription maxRetries) = Throw e ->
  (stringifies jobTitle && stringifies jobDescription = false /\
   e = TypeError /\
   fst (ThrowVariant.extractJobDetailsWithRetry
          run jobTitle jobDescription maxRetries) = []) \/
  (stringifies jobTitle && stringifies jobDescription = true /\
   1 <= maxRetries /\
   fst (ThrowVariant.extractJobDetailsWithRetry
          run jobTitle jobDescription maxRetries) =
     exhausted (Run ThrowVariant.model jobTitle jobDescription) maxRetries /\
   ((exists message, run maxRetries = RunThrows message /\ e = Error message) \/
    (exists output,
       run maxRetries = RunOutput output /\
       e = Error (lit "Failed to extract valid JSON after "
                  ++ Str.of_nat maxRetries
                  ++ lit " attempts. Last response: "
                  ++ trim (join output)) /\
       (JSON_parse (trim (join output)) = None \/
        JSON_parse (trim (join output)) = Some VNull)))).
Proof.
  intros Hthrow.
  destruct (throw_extract_throws _ _ _ _ _ Hthrow)
    as [Hprompt|(Hprompt & Hn & Heffects & Hbody)]; [left; assumption|].
  right. apply throw_body_throws in Hbody as [_ Hkind]. auto.
Qed.

Lemma errors_before_first_or_on_last_attempt_witness :
  (stringifies Scenario.unprintable && stringifies Sample.jobDescription = false /\
   TypeError = TypeError /\
   fst (ThrowVariant.extractJobDetailsWithRetry
          Sample.third_time_lucky Scenario.unprintable Sample.jobDescription 3)
   = []) \/
  (stringifies Scenario.unprintable && stringifies Sample.jobDescription = true /\
   1 <= 3 /\
   fst (ThrowVariant.extractJobDetailsWithRetry
          Sample.third_time_lucky Scenario.unprintable Sample.jobDescription 3) =
     exhausted (Run ThrowVariant.model Scenario.unprintable Sample.jobDescription) 3 /\
   ((exists message,
       Sample.third_time_lucky 3 = RunThrows message /\ TypeError = Error message) \/
    (exists output,
       Sample.third_time_lucky 3 = RunOutput output /\
       TypeError = Error (lit "Failed to extract valid JSON after "
                          ++ Str.of_nat 3
                          ++ lit " attempts. Last response: "
                          ++ trim (join output)) /\
       (JSON_parse (trim (join output)) = None \/
        JSON_parse (trim (join output)) = Some VNull)))).
Proof.
  refine (errors_before_first_or_on_last_attempt
            Sample.third_time_lucky Scenario.unprintable Sample.jobDescription 3
            TypeError _).
  reflexivity.
Defined.

Lemma fallback_body_some (jobTitle : value) (maxRetries attempt : nat)
    (out : run_result) (v : value) :
  FallbackVariant.attempt_body jobTitle maxRetries attempt out = Some v ->
  (attempt = maxRetries /\
   exists message,
     out = RunThrows message /\
     v = FallbackVariant.fallback jobTitle
           (lit "AI processing failed: " ++ message)) \/
  (attempt = maxRetries /\
   exists output,
     out = RunOutput output /\
     (JSON_parse (FallbackVariant.clean output) = None \/
      JSON_parse (FallbackVariant.clean output) = Some VNull) /\
     v = FallbackVariant.fallback jobTitle
           (lit "Failed to parse AI response as JSON")) \/
  (exists output,
     out = RunOutput output /\
     JSON_parse (FallbackVariant.clean output) = Some v /\
     FallbackVariant.validate v = Ok true).
Proof.
  unfold FallbackVariant.attempt_body, FallbackVariant.parse_or_retry.
  destruct out as [message|output].
  - destruct (Nat.eqb attempt maxRetries) eqn:Hlast; [|discriminate].
    intros H; injection H as <-. apply Nat.eqb_eq in Hlast.
    left. split; [assumption|]. eexists; split; reflexivity.
  - destruct (FallbackVariant.try_parse (FallbackVariant.clean output))
      as [r|e] eqn:Htry.
    + intros ->. right; right. exists output. split; [reflexivity|].
      apply fallback_try_parse_value; assumption.
    + destruct (Nat.eqb attempt maxRetries) eqn:Hlast; [|discriminate].
      intros H; injection H as <-. apply Nat.eqb_eq in Hlast.
      right; left. split; [assumption|]. exists output.
      repeat split.
      unfold FallbackVariant.try_parse in Htry.
      destruct (JSON_parse (FallbackVariant.clean output)) as [j|] eqn:Hparse;
        [|auto].
      right. f_equal.
      destruct (FallbackVariant.validate j) as [valid|e'] eqn:Hvalid;
        [discriminate|].
      destruct (validate_throws j e' (or_intror Hvalid)) as [->| ->];
        [reflexivity|].
      exfalso. exact (JSON_parse_defined _ Hparse).
Qed.

Lemma fallback_loop_ok
    (run : oracle) (jobTitle jobDescription : value) (maxRetries : nat) :
  exists v,
    snd (FallbackVariant.attempt_loop run jobTitle jobDescription maxRetries)
    = Ok v.
Proof.
  unfold FallbackVariant.attempt_loop.
  destruct (retry_loop_shape (Run FallbackVariant.model jobTitle jobDescription)
              (fun attempt =>
                 Ok (FallbackVariant.attempt_body jobTitle maxRetries attempt
                       (run attempt)))
              maxRetries 1) as (k & _ & [(Hk & ->)|(Hk & Hleave & ->)]).
  - eexists. reflexivity.
  - cbv beta. simpl snd.
    destruct (FallbackVariant.attempt_body _ _ _ _); eexists; reflexivity.
Qed.

(** X6: the degrading revision throws in one case only: when the prompt
    cannot be built, because the job title or the job description does not
    convert to a string; the error is a [TypeError] and no call is made.
    Once the prompt is built it never throws, whatever the model does.
    What it returns is one of four things: [undefined]; after a rejected
    last call, the record with the input title, [null] fields and the error
    "AI processing failed: ..."; after a last response that is not JSON (or
    is [null]) once cleaned, the same record with the error "Failed to parse
    AI response as JSON"; or the object parsed from the cleaned response of
    some attempt [a <= maxRetries], which passes the validation. *)
Theorem degrading_revision_results
    (run : oracle) (jobTitle jobDescription : value) (maxRetries : nat) :
  let degrading :=
    FallbackVariant.extractJobDetailsWithRetry
      run jobTitle jobDescription maxRetries in
  let record (error : str) :=
    VObject [(lit "job_title", jobTitle);
             (lit "city", VNull);
             (lit "work_arrangement", VNull);
             (lit "company", VNull);
             (lit "experience", VNull);
             (lit "error", VString error)] in
  if stringifies jobTitle && stringifies jobDescription then
    exists v,
      snd degrading = Ok v /\
      (v = VUndefined \/
       (exists message,
          run maxRetries = RunThrows message /\
          v = record (lit "AI processing failed: " ++ message)) \/
       (exists output,
          run maxRetries = RunOutput output /\
          (JSON_parse (FallbackVariant.clean output) = None \/
           JSON_parse (FallbackVariant.clean output) = Some VNull) /\
          v = record (lit "Failed to parse AI response as JSON")) \/
       (exists a output,
          1 <= a <= maxRetries /\
          run a = RunOutput output /\
          JSON_parse (FallbackVariant.clean output) = Some v /\
          FallbackVariant.validate v = Ok true))
  else degrading = ([], Throw TypeError).
Proof.
  intros degrading record. unfold degrading.
  unfold FallbackVariant.extractJobDetailsWithRetry.
  destruct (stringifies jobTitle && stringifies jobDescription);
    [|reflexivity].
  unfold FallbackVariant.attempt_loop.
  destruct (retry_loop_shape (Run FallbackVariant.model jobTitle jobDescription)
              (fun attempt =>
                 Ok (FallbackVariant.attempt_body jobTitle maxRetries attempt
                       (run attempt)))
              maxRetries 1) as (k & _ & [(Hk & ->)|(Hk & Hleave & ->)]).
  - exists VUndefined. auto.
  - cbv beta in *. simpl snd. change (1 + k) with (S k) in *.
    destruct (FallbackVariant.attempt_body jobTitle maxRetries (S k) (run (S k)))
      as [v|] eqn:Hbody; [|congruence].
    exists v. split; [reflexivity|]. right.
    apply fallback_body_some in Hbody
      as [(Hlast & m & Hrun & ->)|[(Hlast & o & Hrun & Hbad & ->)|(o & Hrun & Hok)]].
    + left. exists m. subst maxRetries. auto.
    + right; left. exists o. subst maxRetries. auto.
    + right; right. exists (S k), o. split; [lia|]. tauto.
Qed.

Lemma fallback_handler_post (run : oracle) (ev : Handler.event) :
  Handler.httpMethod ev = lit "POST" ->
  FallbackHandler.handler run ev =
  match FallbackHandler.parse_request ev with
  | Handler.Return r => ([], r)
  | Handler.Raise e => ([], Handler.internal_failure e)
  | Handler.Fields job_title job_description =>
      if negb (truthy job_title) || negb (truthy job_description) then
        ([], missing_required)
      else
        let (effects, result) :=
          FallbackVariant.extractJobDetailsWithRetry
            run job_title job_description 3 in
        (effects, Handler.reply result)
  end.
Proof.
  intros Hpost. unfold FallbackHandler.handler. rewrite Hpost. reflexivity.
Qed.

(** X7: the same outage, two answers.  For a [POST] request whose two
    fields were obtained and convert to strings, when the model rejects all
    three calls, the handler of [extract-job-details.js] answers 500 with
    the message of the last rejection as [details], and the handler of the
    degrading revision answers 200 with the record that has the input title
    as [job_title], [null] for the four other fields and the error
    "AI processing failed: ...".  Both have called the model three times
    and waited 1000 and 2000 ms. *)
Theorem model_outage_answered
    (run : oracle) (ev : Handler.event) (message : str)
    (job_title job_description : value) :
  Handler.httpMethod ev = lit "POST" ->
  (forall a, 1 <= a < 3 -> exists m, run a = RunThrows m) ->
  run 3 = RunThrows message ->
  truthy job_title = true ->
  truthy job_description = true ->
  stringifies job_title = true ->
  stringifies job_description = true ->
  (forall a b,
     Handler.parse_request ev = Handler.Fields a b ->
     Handler.with_query ev (a, b) = (job_title, job_description) ->
     Handler.handler run ev =
     (exhausted (Run ThrowVariant.model job_title job_description) 3,
      Handler.Response 500
        [(lit "Access-Control-Allow-Origin", lit "*");
         (lit "Access-Control-Allow-Headers", lit "Content-Type");
         (lit "Access-Control-Allow-Methods", lit "POST, OPTIONS");
         (lit "Content-Type", lit "application/json")]
        (Handler.BodyFailure (Error message)))) /\
  (FallbackHandler.parse_request ev =
     Handler.Fields job_title job_description ->
   FallbackHandler.handler run ev =
   (exhausted (Run FallbackVariant.model job_title job_description) 3,
    Handler.Response 200
      [(lit "Access-Control-Allow-Origin", lit "*");
       (lit "Access-Control-Allow-Headers", lit "Content-Type");
       (lit "Access-Control-Allow-Methods", lit "POST, OPTIONS");
       (lit "Content-Type", lit "application/json")]
      (Handler.BodyJson
         (VObject
            [(lit "job_title", job_title);
             (lit "city", VNull);
             (lit "work_arrangement", VNull);
             (lit "company", VNull);
             (lit "experience", VNull);
             (lit "error",
              VString (lit "AI processing failed: " ++ message))])))).
Proof.
  intros Hpost Hdown Hlast Ht Hd Hst Hsd.
  pose proof (throw_rejected_last_call run job_title job_description 3 message
                Hst Hsd ltac:(lia) Hlast) as Hthrow.
  pose proof (fallback_rejected_last_call run job_title job_description 3 message
                Hst Hsd ltac:(lia) Hlast) as Hdegrade.
  split.
  - intros a b Hparse Hquery.
    rewrite (handler_reaches_loop run ev a b job_title job_description)
      by assumption.
    rewrite Hthrow; [reflexivity|].
    intros k Hk. destruct (Hdown k Hk) as [m ->]. reflexivity.
  - intros Hparse.
    rewrite fallback_handler_post, Hparse, Ht, Hd by assumption.
    cbn [negb orb]. rewrite Hdegrade; [reflexivity|].
    intros k Hk. destruct (Hdown k Hk) as [m ->]. reflexivity.
Qed.

Lemma model_outage_answered_witness :
  Handler.statusCode (snd (Handler.handler Scenario.down Sample.json_request)) = 500
  /\ Handler.responseBody
       (snd (Handler.handler Scenario.down Sample.json_request)) =
     Handler.BodyFailure (Error (lit "Service unavailable"))
  /\ Handler.statusCode
       (snd (FallbackHandler.handler Scenario.down Sample.json_request)) = 200
  /\ attempts (fst (FallbackHandler.handler Scenario.down Sample.json_request)) = 3.
Proof.
  destruct (model_outage_answered Scenario.down Sample.json_request
              (lit "Service unavailable") Sample.jobTitle Sample.jobDescription)
    as [Hthrow Hdegrade];
    try reflexivity.
  - intros a _. eexists. reflexivity.
  - rewrite (Hthrow Sample.jobTitle Sample.jobDescription)
      by (vm_compute; reflexivity).
    rewrite Hdegrade by (vm_compute; reflexivity).
    repeat split.
Defined.

(** ** What every response has *)

Lemma reply_answers (effects : list effect) (r : result value) :
  answers_properly Handler.cors_headers (effects, Handler.reply r).
Proof.
  unfold answers_properly. destruct r; simpl;
    (split; [reflexivity|]); (split; [tauto|]); intros [H|H]; discriminate.
Qed.

Lemma no_call_answers (status : nat) (b : Handler.body_out) :
  In status [200; 400; 405; 500] ->
  answers_properly Handler.cors_headers ([], Handler.respond status b).
Proof. intros H. unfold answers_properly. simpl. auto. Qed.

Ltac no_call := apply no_call_answers; simpl; tauto.

(** X8: whatever the request and the model (and whatever busboy does),
    every response of the four handlers carries the four headers
    [Access-Control-Allow-Origin: *],
    [Access-Control-Allow-Headers: Content-Type],
    [Access-Control-Allow-Methods: POST, OPTIONS] and
    [Content-Type: application/json], its status is 200, 400, 405 or 500,
    and a 400 or a 405 is answered without calling the model.  In the
    degrading revision the model is not behind a 500 either: a 500 is only
    answered before the first call. *)
Theorem handlers_answer_properly
    (parseMultipartForm : Handler.event -> form_result)
    (run : oracle) (ev : Handler.event) :
  let headers :=
    [(lit "Access-Control-Allow-Origin", lit "*");
     (lit "Access-Control-Allow-Headers", lit "Content-Type");
     (lit "Access-Control-Allow-Methods", lit "POST, OPTIONS");
     (lit "Content-Type", lit "application/json")] in
  answers_properly headers (Handler.handler run ev)
  /\ answers_properly headers (JsonHandler.handler run ev)
  /\ answers_properly headers (BusboyHandler.handler parseMultipartForm run ev)
  /\ answers_properly headers (FallbackHandler.handler run ev)
  /\ (Handler.statusCode (snd (FallbackHandler.handler run ev)) = 500 ->
      fst (FallbackHandler.handler run ev) = []).
Proof.
  intros headers. change headers with Handler.cors_headers. clear headers.
  unfold Handler.handler, JsonHandler.handler, FallbackHandler.handler,
    BusboyHandler.handler.
  destruct (Str.eqb (Handler.httpMethod ev) (lit "OPTIONS"));
    [repeat split; try no_call|].
  destruct (negb (Str.eqb (Handler.httpMethod ev) (lit "POST")));
    [repeat split; try no_call|].
  split; [|split; [|split; [|split]]].
  - destruct (Handler.parse_request ev) as [a b|r|e] eqn:Hparse.
    + destruct (Handler.with_query ev (a, b)) as [t d].
      destruct (negb (truthy t) || negb (truthy d)); [no_call|].
      destruct (ThrowVariant.extractJobDetailsWithRetry run t d 3).
      apply reply_answers.
    + apply parse_request_return in Hparse as [-> _]. no_call.
    + no_call.
  - destruct (do body <- _; _) as [[t d]|e]; [|no_call].
    destruct (negb (truthy t) || negb (truthy d)); [no_call|].
    destruct (ThrowVariant.extractJobDetailsWithRetry run t d 3).
    apply reply_answers.
  - destruct (BusboyHandler.parse_request parseMultipartForm ev)
      as [a b|r|e] eqn:Hparse.
    + destruct (Handler.with_query ev (a, b)) as [t d].
      destruct (negb (truthy t) || negb (truthy d)); [no_call|].
      destruct (ThrowVariant.extractJobDetailsWithRetry run t d 3).
      apply reply_answers.
    + assert (exists b, r = Handler.respond 400 b) as [b ->]; [|no_call].
      unfold BusboyHandler.parse_request in Hparse.
      destruct (includes (lit "application/json") _);
        [destruct (do body <- _; _) as [[? ?]|?]; discriminate|].
      destruct (includes (lit "application/x-www-form-urlencoded") _);
        [discriminate|].
      destruct (includes (lit "multipart/form-data") _).
      * destruct (parseMultipartForm ev); [|discriminate].
        injection Hparse as <-. eexists; reflexivity.
      * destruct (do body <- _; _) as [[? ?]|?]; [discriminate|].
        injection Hparse as <-. eexists; reflexivity.
    + no_call.
  - destruct (FallbackHandler.parse_request ev) as [t d|r|e] eqn:Hparse.
    + destruct (negb (truthy t) || negb (truthy d)); [no_call|].
      destruct (FallbackVariant.extractJobDetailsWithRetry run t d 3).
      apply reply_answers.
    + assert (r = Handler.invalid_format) as ->; [|no_call].
      unfold FallbackHandler.parse_request in Hparse.
      repeat match type of Hparse with
             | (if ?c then _ else _) = _ => destruct c
             | match ?x with _ => _ end = _ => destruct x as [[? ?]|?]
             end; try discriminate.
      injection Hparse as <-. reflexivity.
    + no_call.
  - destruct (FallbackHandler.parse_request ev) as [t d|r|e]; try reflexivity.
    destruct (negb (truthy t) || negb (truthy d)); [reflexivity|].
    unfold FallbackVariant.extractJobDetailsWithRetry.
    destruct (stringifies t && stringifies d); [|reflexivity].
    destruct (fallback_loop_ok run t d 3) as (v & Hv).
    destruct (FallbackVariant.attempt_loop run t d 3) as [effects r].
    simpl in Hv. subst r. discriminate.
Qed.

(** ** The query-string fallback *)

(** X9: the query string completes the body field by field.  For a [POST]
    request with query parameters, each of the two fields is the value read
    from the body when that value is truthy, and otherwise the query
    parameter of the same name: a truthy body value is never replaced, and a
    missing or empty one always is, also when the other field needs no
    help.  When both results are truthy they are what the model is called
    with.  Without query parameters the body fields are left as they
    are. *)
Theorem query_string_completes_body
    (run : oracle) (ev : Handler.event) (a b : value) :
  Handler.httpMethod ev = lit "POST" ->
  Handler.parse_request ev = Handler.Fields a b ->
  (forall qs,
     Handler.queryStringParameters ev = Some qs ->
     let job_title :=
       if truthy a then a else Handler.string_field qs (lit "job_title") in
     let job_description :=
       if truthy b then b else Handler.string_field qs (lit "job_description") in
     Handler.with_query ev (a, b) = (job_title, job_description) /\
     (truthy job_title = true -> truthy job_description = true ->
      Handler.handler run ev =
      (fst (ThrowVariant.extractJobDetailsWithRetry
              run job_title job_description 3),
       Handler.reply
         (snd (ThrowVariant.extractJobDetailsWithRetry
                 run job_title job_description 3))))) /\
  (Handler.queryStringParameters ev = None ->
   Handler.with_query ev (a, b) = (a, b)).
Proof.
  intros Hpost Hparse. split.
  - intros qs Hqs job_title job_description.
    assert (Hquery : Handler.with_query ev (a, b) = (job_title, job_description)).
    { unfold Handler.with_query, or_else, job_title, job_description.
      rewrite Hqs. destruct (truthy a), (truthy b); reflexivity. }
    split; [assumption|]. intros Ht Hd.
    apply (handler_reaches_loop run ev a b); assumption.
  - intros Hqs. unfold Handler.with_query. rewrite Hqs. reflexivity.
Qed.

Lemma query_string_completes_body_witness :
  Handler.with_query Scenario.query_request (VUndefined, VUndefined) =
    (VString (lit "Engineer"), VString (lit "Remote"))
  /\ fst (Handler.handler Sample.prose Scenario.query_request) =
     exhausted (Run ThrowVariant.model (VString (lit "Engineer"))
                    (VString (lit "Remote"))) 3.
Proof.
  destruct (query_string_completes_body
              Sample.prose Scenario.query_request VUndefined VUndefined
              eq_refl eq_refl) as [Hsome _].
  destruct (Hsome [(lit "job_title", lit "Engineer");
                   (lit "job_description", lit "Remote")] eq_refl)
    as [Hquery Hcall].
  split; [exact Hquery|].
  rewrite Hcall by reflexivity. vm_compute. reflexivity.
Defined.

(** ** The revisions compared *)



(** X11: a multipart request without a body.  For a [POST] request whose
    content type contains [multipart/form-data] (and none of the two other
    types) and carries a boundary, and whose body is [null], the degrading
    revision calls [split] on [null]: it answers 500 with a [TypeError].
    The handler of [extract-job-details.js] tests the type of the body
    first: without query parameters it answers the 400 for missing fields.
    Neither calls the model. *)
Theorem multipart_without_body (run : oracle) (ev : Handler.event)
    (before boundary : str) (more : list str) :
  Handler.httpMethod ev = lit "POST" ->
  includes (lit "application/json") (Handler.contentType ev) = false ->
  includes (lit "application/x-www-form-urlencoded") (Handler.contentType ev)
    = false ->
  includes (lit "multipart/form-data") (Handler.contentType ev) = true ->
  split (lit "boundary=") (Handler.contentType ev) = before :: boundary :: more ->
  boundary <> [] ->
  Handler.body ev = Handler.BNull ->
  Handler.queryStringParameters ev = None ->
  FallbackHandler.handler run ev = ([], Handler.internal_failure TypeError) /\
  Handler.handler run ev =
    ([], Handler.missing_fields ev VUndefined VUndefined).
Proof.
  intros Hpost Hjson Hform Hmultipart Hsplit Hboundary Hbody Hqs. split.
  - rewrite fallback_handler_post by assumption.
    unfold FallbackHandler.parse_request, FallbackHandler.parse_multipart.
    rewrite Hjson, Hform, Hmultipart, Hbody, Hsplit.
    destruct boundary; [contradiction|reflexivity].
  - rewrite handler_post by assumption.
    unfold Handler.parse_request, Handler.parse_multipart, Handler.with_query.
    rewrite Hjson, Hform, Hmultipart, Hbody, Hqs. reflexivity.
Qed.

Lemma multipart_without_body_witness :
  FallbackHandler.handler Sample.prose Scenario.multipart_no_body =
    ([], Handler.Response 500 Handler.cors_headers (Handler.BodyFailure TypeError))
  /\ Handler.statusCode
       (snd (Handler.handler Sample.prose Scenario.multipart_no_body)) = 400.
Proof.
  destruct (multipart_without_body Sample.prose Scenario.multipart_no_body
              (lit "multipart/form-data; ") (lit "xyz") [])
    as [Hdegrade Hmain];
    try reflexivity.
  - discriminate.
  - rewrite Hdegrade, Hmain. split; reflexivity.
Defined.

(** ** Validation at its edges *)

Lemma lookup_none_get (members : list (str * value)) (k : str) :
  lookup k members = None -> get (VObject members) k = Ok VUndefined.
Proof. intros H. simpl. rewrite H. reflexivity. Qed.

Lemma get_object (members : list (str * value)) (k : str) :
  exists x, get (VObject members) k = Ok x.
Proof. simpl. destruct (lookup k members); eexists; reflexivity. Qed.

Lemma fallback_validate_stricter (v : value) :
  FallbackVariant.validate v = Ok true -> ThrowVariant.validate v = Ok true.
Proof.
  unfold ThrowVariant.validate, FallbackVariant.validate, Js.bind.
  destruct (get v (lit "job_title")) as [jt|]; [|discriminate].
  destruct (get v (lit "city")) as [city|]; [|discriminate].
  destruct (get v (lit "work_arrangement")) as [wa|]; [|discriminate].
  destruct (get v (lit "company")) as [co|]; [|discriminate].
  destruct (get v (lit "experience")) as [ex|]; [|discriminate].
  intros H; injection H as H. f_equal.
  repeat (apply andb_true_iff in H as [H ?]).
  repeat (apply andb_true_iff; split); assumption.
Qed.

(** X12: [null] has to be spelled out.  An object that omits [city],
    [work_arrangement] or [experience] fails the validation of both
    revisions, since a member that is not there reads as [undefined], which
    is neither [null] nor a string; the degrading revision rejects an object
    that omits [company] as well.  Whatever the degrading revision accepts,
    the revision that throws accepts too. *)
Theorem omitted_member_rejected (members : list (str * value)) (k : str) :
  lookup k members = None ->
  (In k [lit "city"; lit "work_arrangement"; lit "experience"] ->
   ThrowVariant.validate (VObject members) = Ok false /\
   FallbackVariant.validate (VObject members) = Ok false) /\
  (k = lit "company" ->
   FallbackVariant.validate (VObject members) = Ok false) /\
  (forall v,
     FallbackVariant.validate v = Ok true -> ThrowVariant.validate v = Ok true).
Proof.
  intros Hnone. apply lookup_none_get in Hnone.
  split; [|split].
  - intros Hk.
    unfold ThrowVariant.validate, FallbackVariant.validate, Js.bind.
    destruct (get_object members (lit "job_title")) as [jt Hjt].
    destruct (get_object members (lit "city")) as [city Hcity].
    destruct (get_object members (lit "work_arrangement")) as [wa Hwa].
    destruct (get_object members (lit "company")) as [co Hco].
    destruct (get_object members (lit "experience")) as [ex Hex].
    rewrite Hjt, Hcity, Hwa, Hco, Hex.
    destruct Hk as [<-|[<-|[<-|[]]]];
      [assert (city = VUndefined) as -> by congruence
      |assert (wa = VUndefined) as -> by congruence
      |assert (ex = VUndefined) as -> by congruence];
      simpl; rewrite ?andb_false_r; split; reflexivity.
  - intros ->.
    unfold FallbackVariant.validate, Js.bind.
    destruct (get_object members (lit "job_title")) as [jt ->].
    destruct (get_object members (lit "city")) as [city ->].
    destruct (get_object members (lit "work_arrangement")) as [wa ->].
    destruct (get_object members (lit "experience")) as [ex ->].
    rewrite Hnone. simpl. rewrite ?andb_false_r. reflexivity.
  - exact fallback_validate_stricter.
Qed.

Lemma omitted_member_rejected_witness :
  ThrowVariant.validate (VObject Scenario.without_city) = Ok false
  /\ FallbackVariant.validate (VObject Scenario.without_city) = Ok false.
Proof.
  refine (proj1 (omitted_member_rejected Scenario.without_city (lit "city") _) _).
  - reflexivity.
  - left. reflexivity.
Defined.

Lemma validate_not_object (v : value) :
  (forall members, v <> VObject members) ->
  v <> VNull -> v <> VUndefined ->
  ThrowVariant.validate v = Ok false /\ FallbackVariant.validate v = Ok false.
Proof.
  intros Hobject Hnull Hundefined.
  destruct v; try contradiction; try (split; reflexivity).
  exfalso. exact (Hobject fields eq_refl).
Qed.

(** X13: a response that is JSON but not an object.  When the response text
    parses to [null], reading [job_title] throws inside the inner [try]: the
    attempt is handled as if the text were not JSON, so that on the last
    attempt the revision that throws raises "Failed to extract valid JSON
    ..." and the degrading one returns its fallback record.  When it parses
    to anything else that is not an object (an array, a string, a number, a
    boolean), nothing is thrown: the value fails the validation and the
    attempt goes on to the wait, on the last attempt too. *)
Theorem non_object_response
    (jobTitle : value) (maxRetries attempt : nat) (output : list str)
    (v : value) :
  (forall members, v <> VObject members) ->
  (JSON_parse (trim (join output)) = Some v ->
   ThrowVariant.attempt_body maxRetries attempt (RunOutput output) =
   if is_null v then
     if Nat.eqb attempt maxRetries
     then Throw (Error (ThrowVariant.failure_message maxRetries
                          (trim (join output))))
     else Ok None
   else Ok None) /\
  (JSON_parse (FallbackVariant.clean output) = Some v ->
   FallbackVariant.attempt_body jobTitle maxRetries attempt (RunOutput output) =
   if is_null v then
     if Nat.eqb attempt maxRetries
     then Some (FallbackVariant.fallback jobTitle
                  (lit "Failed to parse AI response as JSON"))
     else None
   else None).
Proof.
  intros Hobject. split; intros Hparse.
  - unfold ThrowVariant.attempt_body, ThrowVariant.parse_or_retry,
      ThrowVariant.try_parse.
    rewrite Hparse.
    destruct (is_null v) eqn:Hnull.
    + destruct v; try discriminate. simpl.
      destruct (Nat.eqb attempt maxRetries); reflexivity.
    + destruct (validate_not_object v Hobject) as [-> _];
        [intros ->; discriminate
        |intros ->; exact (JSON_parse_defined _ Hparse)
        |reflexivity].
  - unfold FallbackVariant.attempt_body, FallbackVariant.parse_or_retry,
      FallbackVariant.try_parse.
    rewrite Hparse.
    destruct (is_null v) eqn:Hnull.
    + destruct v; try discriminate. reflexivity.
    + destruct (validate_not_object v Hobject) as [_ ->];
        [intros ->; discriminate
        |intros ->; exact (JSON_parse_defined _ Hparse)
        |reflexivity].
Qed.

Lemma non_object_response_witness :
  ThrowVariant.attempt_body 3 3 (RunOutput [lit " null "]) =
    Throw (Error (lit "Failed to extract valid JSON after 3 attempts. Last response: null"))
  /\ ThrowVariant.attempt_body 3 3 (RunOutput [lit "[1, 2]"]) = Ok None.
Proof.
  split.
  - refine (proj1 (non_object_response Sample.jobTitle 3 3 [lit " null "] VNull _) _).
    + discriminate.
    + vm_compute. reflexivity.
  - refine (proj1 (non_object_response Sample.jobTitle 3 3 [lit "[1, 2]"]
                     (VArray [VNumber false 1 0; VNumber false 2 0]) _) _).
    + discriminate.
    + vm_compute. reflexivity.
Defined.

(** ** URL-encoded bodies *)

Lemma is_ascii_cons (c : char) (s : str) :
  is_ascii (c :: s) = true <-> (c < 128)%N /\ is_ascii s = true.
Proof.
  unfold is_ascii. simpl. rewrite andb_true_iff, N.ltb_lt. reflexivity.
Qed.

Lemma is_ascii_app (a b : str) :
  is_ascii (a ++ b) = is_ascii a && is_ascii b.
Proof. apply forallb_app. Qed.

Lemma ascii_code_points (s : str) : is_ascii s = true -> code_points s = s.
Proof.
  induction s as [|c s IH]; [reflexivity|].
  intros H. apply is_ascii_cons in H as [Hc Hs].
  cbn [code_points]. unfold between.
  replace (N.leb 55296 c) with false by (symmetry; apply N.leb_gt; lia).
  replace (N.leb 56320 c) with false by (symmetry; apply N.leb_gt; lia).
  simpl. rewrite IH by assumption. reflexivity.
Qed.

Lemma ascii_utf8_encode (s : str) : is_ascii s = true -> utf8_encode s = s.
Proof.
  intros H. unfold utf8_encode. rewrite ascii_code_points by assumption.
  induction s as [|c s IH]; [reflexivity|].
  apply is_ascii_cons in H as [Hc Hs].
  cbn [flat_map]. unfold utf8_encode_cp at 1.
  replace (N.leb c 127) with true by (symmetry; apply N.leb_le; lia).
  rewrite IH by assumption. reflexivity.
Qed.

Lemma ascii_utf8_decode (bs : list N) :
  is_ascii bs = true -> utf8_decode_string bs = bs.
Proof.
  unfold utf8_decode_string.
  induction bs as [|b bs IH]; [reflexivity|].
  intros H. apply is_ascii_cons in H as [Hb Hbs].
  cbn [utf8_decode]. unfold utf8_start.
  replace (N.leb b 127) with true by (symmetry; apply N.leb_le; lia).
  cbn [app flat_map]. unfold utf16_of_cp at 1.
  replace (N.leb b 65535) with true by (symmetry; apply N.leb_le; lia).
  rewrite IH by assumption. reflexivity.
Qed.

(** What the serialisation is made of. *)
Lemma hex_char_safe (n : N) : (n < 16)%N -> form_safe (hex_char n) = true.
Proof.
  intros Hn.
  assert (H : In n [0; 1; 2; 3; 4; 5; 6; 7; 8; 9; 10; 11; 12; 13; 14; 15]%N)
    by (simpl; lia).
  simpl in H. intuition (subst; reflexivity).
Qed.

Lemma hex_digit_char (n : N) : (n < 16)%N -> hex_digit (hex_char n) = Some n.
Proof.
  intros Hn.
  assert (H : In n [0; 1; 2; 3; 4; 5; 6; 7; 8; 9; 10; 11; 12; 13; 14; 15]%N)
    by (simpl; lia).
  simpl in H. intuition (subst; reflexivity).
Qed.

Lemma form_safe_plain (c : N) :
  form_safe c = true ->
  (c < 128 /\ c <> 37 /\ c <> 38 /\ c <> 43 /\ c <> 61)%N.
Proof.
  unfold form_safe, between. simpl existsb.
  rewrite !orb_true_iff, !andb_true_iff, !N.leb_le, !N.eqb_eq. lia.
Qed.

Lemma high_nibble (c : N) : (c < 128)%N -> (c / 16 < 16)%N.
Proof. intros H. apply N.Div0.div_lt_upper_bound. lia. Qed.

Lemma low_nibble (c : N) : (c mod 16 < 16)%N.
Proof. apply N.mod_lt. discriminate. Qed.

Lemma nibbles (c : N) : (c / 16 * 16 + c mod 16 = c)%N.
Proof. rewrite (N.div_mod c 16) at 3 by discriminate. lia. Qed.

(** The bytes of the serialisation are ASCII, and none is [&] or [=]. *)
Lemma form_encode_plain (s : str) (c : N) :
  is_ascii s = true -> In c (form_encode s) ->
  (c < 128 /\ c <> 38 /\ c <> 61)%N.
Proof.
  induction s as [|x s IH]; [contradiction|].
  intros H. apply is_ascii_cons in H as [Hx Hs].
  unfold form_encode. cbn [flat_map]. rewrite in_app_iff.
  intros [Hin|Hin]; [|apply IH; assumption].
  unfold form_encode_byte in Hin.
  destruct (form_safe x) eqn:Hsafe.
  - destruct Hin as [<-|[]]. apply form_safe_plain in Hsafe. lia.
  - destruct (N.eqb x 32).
    + destruct Hin as [<-|[]]. lia.
    + pose proof (form_safe_plain _ (hex_char_safe _ (high_nibble _ Hx))).
      pose proof (form_safe_plain _ (hex_char_safe _ (low_nibble x))).
      destruct Hin as [<-|[<-|[<-|[]]]]; lia.
Qed.

Lemma form_encode_ascii (s : str) :
  is_ascii s = true -> is_ascii (form_encode s) = true.
Proof.
  intros H. apply forallb_forall. intros c Hc. apply N.ltb_lt.
  apply (form_encode_plain s c H Hc).
Qed.

Lemma percent_decode_plain (b : N) (bs : list N) :
  b <> 37%N -> percent_decode (b :: bs) = b :: percent_decode bs.
Proof.
  intros H. cbn [percent_decode].
  replace (N.eqb b 37) with false by (symmetry; apply N.eqb_neq; assumption).
  reflexivity.
Qed.

Lemma percent_decode_escape (h1 h2 a c : N) (bs : list N) :
  hex_digit h1 = Some a -> hex_digit h2 = Some c ->
  percent_decode (37%N :: h1 :: h2 :: bs) = (a * 16 + c)%N :: percent_decode bs.
Proof.
  intros H1 H2. cbn [percent_decode]. rewrite H1, H2. reflexivity.
Qed.

(** Decoding undoes the serialisation. *)
Lemma decode_form_encode (s : str) :
  is_ascii s = true ->
  percent_decode (plus_to_space (form_encode s)) = s.
Proof.
  induction s as [|x s IH]; [reflexivity|].
  intros H. apply is_ascii_cons in H as [Hx Hs].
  unfold form_encode, plus_to_space. cbn [flat_map]. rewrite map_app.
  fold (form_encode s). fold (plus_to_space (form_encode s)).
  unfold form_encode_byte.
  destruct (form_safe x) eqn:Hsafe.
  - apply form_safe_plain in Hsafe. cbn [map app].
    replace (N.eqb x 43) with false by (symmetry; apply N.eqb_neq; lia).
    rewrite percent_decode_plain, IH by (assumption || lia). reflexivity.
  - destruct (N.eqb_spec x 32) as [->|Hspace].
    + cbn [map app]. change (N.eqb 43 43) with true. cbv iota.
      rewrite percent_decode_plain, IH by (assumption || discriminate).
      reflexivity.
    + pose proof (form_safe_plain _ (hex_char_safe _ (high_nibble _ Hx))) as Hhi.
      pose proof (form_safe_plain _ (hex_char_safe _ (low_nibble x))) as Hlo.
      cbn [map app]. change (N.eqb 37 43) with false. cbv iota.
      replace (N.eqb (hex_char (x / 16)) 43) with false
        by (symmetry; apply N.eqb_neq; lia).
      replace (N.eqb (hex_char (x mod 16)) 43) with false
        by (symmetry; apply N.eqb_neq; lia).
      rewrite (percent_decode_escape _ _ (x / 16) (x mod 16))
        by (apply hex_digit_char;
            first [apply high_nibble; assumption|apply low_nibble]).
      rewrite IH, nibbles by assumption. reflexivity.
Qed.

Lemma decode_component_form_encode (s : str) :
  is_ascii s = true -> decode_component (form_encode s) = s.
Proof.
  intros H. unfold decode_component.
  rewrite decode_form_encode, ascii_utf8_decode by assumption. reflexivity.
Qed.

Lemma split_at_byte_none (d : N) (cur bs : list N) :
  ~ In d bs -> split_at_byte d cur bs = [rev cur ++ bs].
Proof.
  revert cur; induction bs as [|b bs IH]; intros cur Hd; cbn [split_at_byte].
  - rewrite app_nil_r. reflexivity.
  - replace (N.eqb b d) with false
      by (symmetry; apply N.eqb_neq; intros ->; apply Hd; left; reflexivity).
    rewrite IH by (intros Hin; apply Hd; right; assumption).
    cbn [rev]. rewrite <- app_assoc. reflexivity.
Qed.

Lemma split_at_byte_piece (d : N) (cur a bs : list N) :
  ~ In d a ->
  split_at_byte d cur (a ++ d :: bs) = (rev cur ++ a) :: split_at_byte d [] bs.
Proof.
  revert cur; induction a as [|x a IH]; intros cur Hd; cbn [app split_at_byte].
  - rewrite N.eqb_refl, app_nil_r. reflexivity.
  - replace (N.eqb x d) with false
      by (symmetry; apply N.eqb_neq; intros ->; apply Hd; left; reflexivity).
    rewrite IH by (intros Hin; apply Hd; right; assumption).
    cbn [rev]. rewrite <- app_assoc. reflexivity.
Qed.

Lemma cut_at_equals_name (acc name value : list N) :
  ~ In 61%N name ->
  cut_at_equals acc (name ++ 61%N :: value) = (rev acc ++ name, value).
Proof.
  revert acc; induction name as [|x name IH]; intros acc Hd;
    cbn [app cut_at_equals].
  - change (N.eqb 61 61) with true. rewrite app_nil_r. reflexivity.
  - replace (N.eqb x 61) with false
      by (symmetry; apply N.eqb_neq; intros ->; apply Hd; left; reflexivity).
    rewrite IH by (intros Hin; apply Hd; right; assumption).
    cbn [rev]. rewrite <- app_assoc. reflexivity.
Qed.

Lemma form_encode_no (s : str) (d : N) :
  is_ascii s = true -> d = 38%N \/ d = 61%N -> ~ In d (form_encode s).
Proof.
  intros H Hd Hin. apply (form_encode_plain s d H) in Hin. lia.
Qed.

Lemma cut_piece (name value : list N) :
  ~ In 61%N name ->
  match name ++ 61%N :: value with
  | [] => []
  | _ :: _ =>
      let (n, v) := cut_at_equals [] (name ++ 61%N :: value) in
      [(decode_component n, decode_component v)]
  end = [(decode_component name, decode_component value)].
Proof.
  intros H. rewrite (cut_at_equals_name [] name value H).
  destruct name; reflexivity.
Qed.

Lemma parse_urlencoded_pairs (bs n1 v1 n2 v2 : list N) :
  split_at_byte 38 [] bs = [n1 ++ 61%N :: v1; n2 ++ 61%N :: v2] ->
  ~ In 61%N n1 -> ~ In 61%N n2 ->
  parse_urlencoded bs =
  [(decode_component n1, decode_component v1);
   (decode_component n2, decode_component v2)].
Proof.
  intros Hsplit H1 H2. unfold parse_urlencoded. rewrite Hsplit.
  cbn [flat_map]. rewrite !cut_piece by assumption. reflexivity.
Qed.

Lemma form_body_params (title description : str) :
  is_ascii title = true -> is_ascii description = true ->
  URLSearchParams (form_body title description) =
  [(lit "job_title", title); (lit "job_description", description)].
Proof.
  intros Ht Hd.
  assert (Hascii : is_ascii (form_body title description) = true).
  { unfold form_body. rewrite !is_ascii_app, !form_encode_ascii by assumption.
    reflexivity. }
  assert (Hinit : URLSearchParams (form_body title description) =
                  parse_urlencoded (utf8_encode (form_body title description)))
    by reflexivity.
  rewrite Hinit, ascii_utf8_encode by assumption.
  rewrite (parse_urlencoded_pairs _
             (lit "job_title") (form_encode title)
             (lit "job_description") (form_encode description)).
  - rewrite !decode_component_form_encode by assumption. reflexivity.
  - change (form_body title description)
      with ((lit "job_title" ++ 61%N :: form_encode title)
            ++ 38%N :: (lit "job_description" ++ 61%N :: form_encode description)).
    rewrite split_at_byte_piece.
    + rewrite split_at_byte_none; [reflexivity|].
      rewrite in_app_iff.
      intros [H|[H|H]]; [vm_compute in H; intuition discriminate|discriminate|].
      revert H. apply form_encode_no; auto.
    + rewrite in_app_iff.
      intros [H|[H|H]]; [vm_compute in H; intuition discriminate|discriminate|].
      revert H. apply form_encode_no; auto.
  - vm_compute. intuition discriminate.
  - vm_compute. intuition discriminate.
Qed.

(** X14: a form serialisation is read back.  For a [POST] request whose
    content type contains [application/x-www-form-urlencoded] (and not
    [application/json]) and whose body is
    [job_title=...&job_description=...] with the two ASCII values
    serialised as a form does it (a space written [+], every byte other
    than a letter, a digit or one of [*-._] written as a percent escape),
    the body-parsing step yields exactly the two values, whatever
    characters they hold: [&], [=], [+] and [%] included.  The degrading
    revision reads the body in the same way. *)
Theorem form_body_read_back (ev : Handler.event) (title description : str) :
  is_ascii title = true ->
  is_ascii description = true ->
  includes (lit "application/json") (Handler.contentType ev) = false ->
  includes (lit "application/x-www-form-urlencoded") (Handler.contentType ev)
    = true ->
  Handler.body ev = Handler.BString (form_body title description) ->
  Handler.parse_request ev =
    Handler.Fields (VString title) (VString description) /\
  FallbackHandler.parse_request ev =
    Handler.Fields (VString title) (VString description).
Proof.
  intros Ht Hd Hjson Hform Hbody.
  unfold Handler.parse_request, FallbackHandler.parse_request,
    Handler.body_params.
  rewrite Hjson, Hform, Hbody, form_body_params by assumption.
  split; reflexivity.
Qed.

Lemma form_body_read_back_witness :
  form_body (lit "R&D Engineer (C++)") (lit "100% remote = yes") =
    lit "job_title=R%26D+Engineer+%28C%2B%2B%29&job_description=100%25+remote+%3D+yes"
  /\ Handler.parse_request Scenario.form_request =
     Handler.Fields (VString (lit "R&D Engineer (C++)"))
                    (VString (lit "100% remote = yes")).
Proof.
  split; [reflexivity|].
  refine (proj1 (form_body_read_back Scenario.form_request
                   (lit "R&D Engineer (C++)") (lit "100% remote = yes")
                   _ _ _ _ _));
    reflexivity.
Defined.

(** ** [trim] *)

Lemma trimStart_fixed (s : str) :
  match s with
  | [] => True
  | c :: _ => is_ws c = false
  end ->
  trimStart s = s.
Proof. destruct s as [|c s]; simpl; [reflexivity|]. intros ->. reflexivity. Qed.

Lemma trimStart_head (s : str) :
  match trimStart s with
  | [] => True
  | c :: _ => is_ws c = false
  end.
Proof.
  induction s as [|c s IH]; simpl; [exact I|].
  destruct (is_ws c) eqn:Hc; [exact IH|exact Hc].
Qed.

Lemma trimStart_idempotent (s : str) : trimStart (trimStart s) = trimStart s.
Proof. apply trimStart_fixed, trimStart_head. Qed.

Lemma trimStart_suffix (s : str) : exists p, s = p ++ trimStart s.
Proof.
  induction s as [|c s [p IH]]; simpl.
  - exists []. reflexivity.
  - destruct (is_ws c).
    + exists (c :: p). simpl. congruence.
    + exists []. reflexivity.
Qed.

Lemma trim_idempotent (s : str) : trim (trim s) = trim s.
Proof.
  unfold trim, trimEnd.
  pose proof (trimStart_head s) as Hhead.
  destruct (trimStart_suffix (rev (trimStart s))) as [p Hp].
  set (u := trimStart s) in *. set (w := trimStart (rev u)) in *.
  assert (Hu : u = rev w ++ rev p).
  { rewrite <- (rev_involutive u), Hp, rev_app_distr. reflexivity. }
  assert (Hclean : trimStart (rev w) = rev w).
  { apply trimStart_fixed. rewrite Hu in Hhead.
    destruct (rev w); [exact I|exact Hhead]. }
  rewrite Hclean, rev_involutive. unfold w at 1.
  rewrite trimStart_idempotent. reflexivity.
Qed.

Lemma trim_members (s : str) (x : char) : In x (trim s) -> In x s.
Proof.
  unfold trim, trimEnd. intros H. apply in_rev in H.
  destruct (trimStart_suffix (rev (trimStart s))) as [p Hp].
  assert (H1 : In x (rev (trimStart s)))
    by (rewrite Hp; apply in_or_app; right; assumption).
  apply in_rev in H1.
  destruct (trimStart_suffix s) as [q Hq].
  rewrite Hq. apply in_or_app. right. assumption.
Qed.

(** ** What the field pattern can capture *)

Lemma flat_map_head {A B : Type} (f : A -> list B) (l : list A)
    (y : B) (tl : list B) :
  flat_map f l = y :: tl -> exists x tl', In x l /\ f x = y :: tl'.
Proof.
  induction l as [|x l IH]; simpl; [discriminate|].
  destruct (f x) as [|y' t] eqn:Hfx.
  - intros H. destruct (IH H) as (x' & tl' & Hin & Hx').
    exists x', tl'. auto.
  - intros H. injection H as -> _. exists x, t. auto.
Qed.

Lemma rsearch_head (r : regex) (s : str) (i j : nat) (st : mstate) :
  rsearch r i s = Some (j, st) ->
  exists s' tl, rmatch r (MState j s' None) = st :: tl.
Proof.
  revert i; induction s as [|c s IH]; intros i; cbn [rsearch].
  - destruct (rmatch r (MState i [] None)) as [|st' tl] eqn:Hm; [discriminate|].
    intros H; injection H as <- <-. eauto.
  - destruct (rmatch r (MState i (c :: s) None)) as [|st' tl] eqn:Hm.
    + apply IH.
    + intros H; injection H as <- <-. eauto.
Qed.

(** The first match of a sequence ends as some match of its last part
    does. *)
Lemma seq_head (P : mstate -> Prop) (r1 r2 : regex) :
  (forall st st' tl, rmatch r2 st = st' :: tl -> P st') ->
  forall st st' tl, rmatch (RSeq r1 r2) st = st' :: tl -> P st'.
Proof.
  intros H2 st st' tl H. cbn [rmatch] in H.
  apply flat_map_head in H as (x & tl' & _ & Hx).
  exact (H2 _ _ _ Hx).
Qed.

Lemma field_captures_line (name part m : str) :
  match_group1 (Handler.re_field name) part = Some m ->
  exists s, m = first_line s.
Proof.
  unfold match_group1.
  destruct (rsearch (Handler.re_field name) 0 part) as [[j st]|] eqn:Hsearch;
    [|discriminate].
  apply rsearch_head in Hsearch as (s' & tl & Hmatch).
  assert (Hcap : exists s, cap st = Some (first_line s)).
  { revert Hmatch.
    change (Handler.re_field name)
      with (RSeq (RLit name)
              (RSeq (RStar true cls_space)
                 (RSeq (ROptChar CR)
                    (RSeq (RChar LF)
                       (RSeq (ROptChar CR)
                          (RSeq (RChar LF)
                             (RSeq (RGroup (RStar false cls_any))
                                   re_line_end))))))).
    generalize (MState j s' None). revert tl. revert st.
    intros st tl st0. revert st0 st tl.
    do 6 apply seq_head.
    intros [i s cp] st tl Hm.
    destruct (group_capture i s cp) as (st1 & tl1 & Hm1 & Hcap1).
    rewrite Hm1 in Hm. injection Hm as <- _. eauto. }
  destruct Hcap as (s & Hcap). rewrite Hcap.
  intros H; injection H as <-. eauto.
Qed.

Lemma first_line_no_break (s : str) : ~ In LF (first_line s).
Proof.
  induction s as [|c s IH]; [intros []|].
  cbn [first_line]. destruct (line_break (c :: s)) eqn:Hbreak; [intros []|].
  intros [Hc|Hin]; [|exact (IH Hin)].
  subst c. discriminate.
Qed.

Lemma trimmed_line_tidy (s : str) : tidy (VString (trim (first_line s))).
Proof.
  right. exists (trim (first_line s)). split; [reflexivity|]. split.
  - intros H. apply trim_members in H. exact (first_line_no_break _ H).
  - apply trim_idempotent.
Qed.

Lemma scan_part_tidy (fields : value * value) (part : str) :
  tidy (fst fields) /\ tidy (snd fields) ->
  tidy (fst (Handler.scan_part fields part))
  /\ tidy (snd (Handler.scan_part fields part)).
Proof.
  destruct fields as [t d]. intros [Ht Hd]. unfold Handler.scan_part.
  cbn [fst snd]. split.
  - destruct (includes Handler.name_job_title part); [|assumption].
    destruct (match_group1 _ part) as [m|] eqn:Hm; [|assumption].
    apply field_captures_line in Hm as [s ->]. apply trimmed_line_tidy.
  - destruct (includes Handler.name_job_description part); [|assumption].
    destruct (match_group1 _ part) as [m|] eqn:Hm; [|assumption].
    apply field_captures_line in Hm as [s ->]. apply trimmed_line_tidy.
Qed.

Lemma scan_parts_tidy (parts : list str) (fields : value * value) :
  tidy (fst fields) /\ tidy (snd fields) ->
  tidy (fst (fold_left Handler.scan_part parts fields))
  /\ tidy (snd (fold_left Handler.scan_part parts fields)).
Proof.
  revert fields; induction parts as [|part parts IH]; intros fields H;
    [exact H|].
  cbn [fold_left]. apply IH, scan_part_tidy, H.
Qed.

Lemma parse_multipart_tidy (contentType s : str) :
  tidy (fst (Handler.parse_multipart contentType (Handler.BString s)))
  /\ tidy (snd (Handler.parse_multipart contentType (Handler.BString s))).
Proof.
  assert (H0 : tidy VUndefined) by (left; reflexivity).
  unfold Handler.parse_multipart.
  destruct (split (lit "boundary=") contentType) as [|before [|[|c b] more]];
    try (split; exact H0).
  apply scan_parts_tidy. split; exact H0.
Qed.

(** X15: what the manual multipart parser can return.  For a [POST]
    request in the multipart branch whose body is a string, whatever the
    body and the boundary are, each of the two fields is either [undefined]
    or a string that holds no line feed and has no white space at either
    end: of a value of several lines at most one line is ever kept.  This
    holds in [extract-job-details.js] and in the degrading revision. *)
Theorem multipart_fields_tidy (ev : Handler.event) (s : str) :
  includes (lit "application/json") (Handler.contentType ev) = false ->
  includes (lit "application/x-www-form-urlencoded") (Handler.contentType ev)
    = false ->
  includes (lit "multipart/form-data") (Handler.contentType ev) = true ->
  Handler.body ev = Handler.BString s ->
  exists job_title job_description,
    Handler.parse_request ev = Handler.Fields job_title job_description /\
    FallbackHandler.parse_request ev =
      Handler.Fields job_title job_description /\
    tidy job_title /\ tidy job_description.
Proof.
  intros Hjson Hform Hmultipart Hbody.
  pose proof (parse_multipart_tidy (Handler.contentType ev) s) as Htidy.
  unfold Handler.parse_request, FallbackHandler.parse_request.
  rewrite Hjson, Hform, Hmultipart, Hbody.
  assert (Hsame : FallbackHandler.parse_multipart (Handler.contentType ev)
                    (Handler.BString s) =
                  Ok (Handler.parse_multipart (Handler.contentType ev)
                        (Handler.BString s))).
  { unfold FallbackHandler.parse_multipart, Handler.parse_multipart.
    destruct (split (lit "boundary=") (Handler.contentType ev))
      as [|before [|[|c b] more]]; reflexivity. }
  rewrite Hsame.
  destruct (Handler.parse_multipart (Handler.contentType ev) (Handler.BString s))
    as [t d].
  exists t, d. tauto.
Qed.

Lemma multipart_fields_tidy_witness :
  exists job_title job_description,
    Handler.parse_request Sample.multipart_two_lines =
      Handler.Fields job_title job_description /\
    FallbackHandler.parse_request Sample.multipart_two_lines =
      Handler.Fields job_title job_description /\
    tidy job_title /\ tidy job_description.
Proof.
  refine (multipart_fields_tidy Sample.multipart_two_lines
            (multipart_body (lit "----FormBoundary7MA4YWxk")
               (lit "Senior Data Engineer") Sample.two_lines) _ _ _ _);
    reflexivity.
Defined.

(** ** Code fences at their edges *)

Lemma startsWith_prefix (p q s : str) :
  startsWith (p ++ q) s = true -> startsWith p s = true.
Proof.
  revert s; induction p as [|x p IH]; intros s; [reflexivity|].
  destruct s as [|y s]; simpl; [discriminate|].
  rewrite !andb_true_iff. intros [Hx Hp]. auto.
Qed.

Lemma clean_unfenced (output : list str) :
  startsWith FallbackVariant.BACKTICKS (trim (join output)) = false ->
  FallbackVariant.clean output = trim (join output).
Proof.
  intros Hfence. unfold FallbackVariant.clean.
  destruct (startsWith (lit "```json") (trim (join output))) eqn:Hjson.
  - apply (startsWith_prefix FallbackVariant.BACKTICKS (lit "json")) in Hjson.
    congruence.
  - rewrite Hfence. apply trim_idempotent.
Qed.

Lemma re_close_search_none (a : str) (i : nat) :
  rsearch FallbackVariant.re_close i (a ++ [ch "}"]) = None.
Proof.
  revert i; induction a as [|x a IH]; intros i.
  - pose proof (re_close_before_brace i [] []) as H0.
    cbn [app] in *. cbn [rsearch]. rewrite H0. reflexivity.
  - pose proof (re_close_before_brace i (x :: a) []) as H1.
    cbn [app] in *. cbn [rsearch]. rewrite H1. apply IH.
Qed.

Lemma replace_close_none (inner : str) :
  replace_empty FallbackVariant.re_close (braced inner) = braced inner.
Proof.
  unfold replace_empty.
  change (braced inner) with ((ch "{" :: inner) ++ [ch "}"]).
  rewrite re_close_search_none. reflexivity.
Qed.

Lemma clean_unterminated (tag inner : str) :
  tag = lit "json" \/ tag = [] ->
  FallbackVariant.clean [unterminated tag (braced inner)] = braced inner.
Proof.
  intros Htag. unfold FallbackVariant.clean. rewrite join_single.
  destruct Htag as [-> | ->].
  - assert (Htrim : trim (unterminated (lit "json") (braced inner)) =
                    unterminated (lit "json") (braced inner)).
    { change (unterminated (lit "json") (braced inner))
        with (96%N :: (lit "``json" ++ [LF; ch "{"] ++ inner) ++ [ch "}"]).
      apply trim_fixed; reflexivity. }
    rewrite Htrim.
    change (startsWith (lit "```json") (unterminated (lit "json") (braced inner)))
      with true. cbv iota.
    change (replace_empty FallbackVariant.re_open_json
              (unterminated (lit "json") (braced inner)))
      with (braced inner).
    rewrite replace_close_none. apply trim_braced.
  - assert (Htrim : trim (unterminated [] (braced inner)) =
                    unterminated [] (braced inner)).
    { change (unterminated [] (braced inner))
        with (96%N :: (lit "``" ++ [LF; ch "{"] ++ inner) ++ [ch "}"]).
      apply trim_fixed; reflexivity. }
    rewrite Htrim.
    change (startsWith (lit "```json") (unterminated [] (braced inner)))
      with false.
    change (startsWith FallbackVariant.BACKTICKS (unterminated [] (braced inner)))
      with true. cbv iota.
    change (replace_empty FallbackVariant.re_open (unterminated [] (braced inner)))
      with (braced inner).
    rewrite replace_close_none. apply trim_braced.
Qed.

(** X16: fence stripping outside the fenced case.  A response that, once
    joined and trimmed, does not start with three backticks is handed to
    [JSON.parse] exactly as the revision without fence stripping hands it:
    joined and trimmed, nothing else removed; so whatever the degrading
    revision returns for it, the other revision returns too.  And the
    opening fence goes without the closing one: for the text of a JSON
    object after an opening fence (tagged [json] or not) that is never
    closed, the text parsed is that of the object. *)
Theorem fence_stripping_edges :
  (forall output,
     startsWith FallbackVariant.BACKTICKS (trim (join output)) = false ->
     FallbackVariant.clean output = trim (join output) /\
     (forall v,
        FallbackVariant.try_parse (FallbackVariant.clean output) = Ok (Some v) ->
        ThrowVariant.try_parse (trim (join output)) = Ok (Some v))) /\
  (forall tag inner,
     tag = lit "json" \/ tag = [] ->
     FallbackVariant.clean [unterminated tag (braced inner)] = braced inner).
Proof.
  split.
  - intros output Hfence. rewrite (clean_unfenced output Hfence).
    split; [reflexivity|]. intros v Htry.
    apply fallback_try_parse_value in Htry as [Hparse Hvalid].
    unfold ThrowVariant.try_parse. rewrite Hparse.
    rewrite (fallback_validate_stricter v Hvalid). reflexivity.
  - apply clean_unterminated.
Qed.

Lemma fence_stripping_edges_witness :
  FallbackVariant.clean [lit " "; Sample.good_text_company; [LF]] =
    Sample.good_text_company
  /\ ThrowVariant.try_parse (trim (join [lit " "; Sample.good_text_company; [LF]])) =
     Ok (Some Sample.good_value_company)
  /\ FallbackVariant.clean [unterminated (lit "json") Sample.good_text_company] =
     Sample.good_text_company.
Proof.
  destruct fence_stripping_edges as [Hplain Hopen].
  destruct (Hplain [lit " "; Sample.good_text_company; [LF]] eq_refl)
    as [Hclean Hsame].
  split; [rewrite Hclean; reflexivity|].
  split; [apply Hsame; vm_compute; reflexivity|].
  exact (Hopen (lit "json") _ (or_introl eq_refl)).
Defined.

(** ** A multipart request without a boundary *)

Lemma split_absent (sep s : str) : includes sep s = false -> split sep s = [s].
Proof.
  intros H. unfold split.
  rewrite split_from_none by (apply no_start_of_includes; assumption).
  reflexivity.
Qed.

(** X17: a multipart request that does not say where its parts end.  For a
    [POST] request in the multipart branch whose content type has no
    [boundary=] parameter, whose body is not an object and that has no query
    parameters, the body is not looked at: both fields stay [undefined] and
    the answer is the 400 for missing fields, in [extract-job-details.js] and
    in the degrading revision, which does not throw here even for a [null]
    body.  The model is not called. *)
Theorem multipart_without_boundary (run : oracle) (ev : Handler.event) :
  Handler.httpMethod ev = lit "POST" ->
  includes (lit "application/json") (Handler.contentType ev) = false ->
  includes (lit "application/x-www-form-urlencoded") (Handler.contentType ev)
    = false ->
  includes (lit "multipart/form-data") (Handler.contentType ev) = true ->
  includes (lit "boundary=") (Handler.contentType ev) = false ->
  (forall fields, Handler.body ev <> Handler.BObject fields) ->
  Handler.queryStringParameters ev = None ->
  Handler.handler run ev =
    ([], Handler.missing_fields ev VUndefined VUndefined) /\
  FallbackHandler.handler run ev = ([], missing_required).
Proof.
  intros Hpost Hjson Hform Hmultipart Hboundary Hbody Hqs.
  apply split_absent in Hboundary.
  rewrite handler_post, fallback_handler_post by assumption.
  unfold Handler.parse_request, FallbackHandler.parse_request,
    Handler.parse_multipart, FallbackHandler.parse_multipart,
    Handler.with_query.
  rewrite Hjson, Hform, Hmultipart, Hboundary, Hqs.
  destruct (Handler.body ev) as [|s|fields] eqn:Hb;
    [| |exfalso; exact (Hbody fields eq_refl)]; split; reflexivity.
Qed.

Lemma multipart_without_boundary_witness :
  Handler.statusCode
    (snd (Handler.handler Sample.third_time_lucky Scenario.multipart_no_boundary))
    = 400
  /\ FallbackHandler.handler Sample.third_time_lucky Scenario.multipart_no_boundary
     = ([], missing_required).
Proof.
  destruct (multipart_without_boundary
              Sample.third_time_lucky Scenario.multipart_no_boundary)
    as [Hmain Hdegrade];
    try reflexivity.
  - intros fields. discriminate.
  - rewrite Hmain, Hdegrade. split; reflexivity.
Defined.

(** ** What a 500 has cost *)

(** X18: a 500 of [extract-job-details.js] comes at one of three prices,
    and never after one or two calls.  Either the request could not be
    read; or its two fields were read but the prompt could not be built
    from them, because one does not convert to a string, and the error is a
    [TypeError]: in both cases the model was not called.  Or the model was
    called three times, with waits of 1000 and 2000 ms, and the third
    attempt threw. *)
Theorem server_error_cost (run : oracle) (ev : Handler.event) :
  Handler.statusCode (snd (Handler.handler run ev)) = 500 ->
  (exists e,
     Handler.parse_request ev = Handler.Raise e /\
     Handler.handler run ev = ([], Handler.internal_failure e)) \/
  (exists a b job_title job_description,
     Handler.parse_request ev = Handler.Fields a b /\
     Handler.with_query ev (a, b) = (job_title, job_description) /\
     stringifies job_title && stringifies job_description = false /\
     Handler.handler run ev = ([], Handler.internal_failure TypeError)) \/
  (exists job_title job_description e,
     Handler.handler run ev =
     (exhausted (Run ThrowVariant.model job_title job_description) 3,
      Handler.internal_failure e) /\
     ThrowVariant.attempt_body 3 3 (run 3) = Throw e).
Proof.
  unfold Handler.handler.
  destruct (Str.eqb (Handler.httpMethod ev) (lit "OPTIONS")); [discriminate|].
  destruct (negb (Str.eqb (Handler.httpMethod ev) (lit "POST"))); [discriminate|].
  destruct (Handler.parse_request ev) as [a b|r|e] eqn:Hparse.
  - destruct (Handler.with_query ev (a, b)) as [t d] eqn:Hquery.
    destruct (negb (truthy t) || negb (truthy d)); [discriminate|].
    pose proof (throw_extract_throws run t d 3) as Hthrow.
    destruct (ThrowVariant.extractJobDetailsWithRetry run t d 3)
      as [effects [v|e]]; [discriminate|].
    intros _. right.
    destruct (Hthrow e eq_refl)
      as [(Hprompt & -> & Heffects)|(_ & _ & Heffects & Hbody)];
      simpl in Heffects; subst effects.
    + left. exists a, b, t, d. auto.
    + right. exists t, d, e. auto.
  - apply parse_request_return in Hparse as [-> _]. discriminate.
  - intros _. left. exists e. auto.
Qed.

Lemma server_error_cost_witness :
  (exists e,
     Handler.parse_request Scenario.unprintable_request = Handler.Raise e /\
     Handler.handler Sample.third_time_lucky Scenario.unprintable_request =
     ([], Handler.internal_failure e)) \/
  (exists a b job_title job_description,
     Handler.parse_request Scenario.unprintable_request = Handler.Fields a b /\
     Handler.with_query Scenario.unprintable_request (a, b) =
       (job_title, job_description) /\
     stringifies job_title && stringifies job_description = false /\
     Handler.handler Sample.third_time_lucky Scenario.unprintable_request =
     ([], Handler.internal_failure TypeError)) \/
  (exists job_title job_description e,
     Handler.handler Sample.third_time_lucky Scenario.unprintable_request =
     (exhausted (Run ThrowVariant.model job_title job_description) 3,
      Handler.internal_failure e) /\
     ThrowVariant.attempt_body 3 3 (Sample.third_time_lucky 3) = Throw e).
Proof.
  refine (server_error_cost Sample.third_time_lucky Scenario.unprintable_request _).
  reflexivity.
Defined.

(** ** The revision with busboy *)

(** X19: the revision that hands multipart bodies to busboy differs from
    [extract-job-details.js] in the multipart branch only.  For a request
    that does not reach that branch, the two handlers make the same calls
    and give the same response, whatever busboy would do.  In the branch,
    when busboy fails the answer is a 400 "Error parsing multipart form
    data" with the message of the failure, the query string is not
    consulted and the model is not called; when it succeeds the two fields
    are the values busboy has read, as they are: not trimmed, and with all
    their lines. *)
Theorem busboy_revision_differs_in_multipart
    (parseMultipartForm : Handler.event -> form_result)
    (run : oracle) (ev : Handler.event) :
  let multipart :=
    negb (includes (lit "application/json") (Handler.contentType ev))
    && negb (includes (lit "application/x-www-form-urlencoded")
               (Handler.contentType ev))
    && includes (lit "multipart/form-data") (Handler.contentType ev) in
  (multipart = false ->
   BusboyHandler.handler parseMultipartForm run ev = Handler.handler run ev) /\
  (multipart = true ->
   (forall message,
      parseMultipartForm ev = FormRejected message ->
      Handler.httpMethod ev = lit "POST" ->
      BusboyHandler.handler parseMultipartForm run ev =
      ([], Handler.Response 400 Handler.cors_headers
             (Handler.BodyJson (VObject
                [(lit "error", VString (lit "Error parsing multipart form data"));
                 (lit "details", VString message)])))) /\
   (forall fields title description,
      parseMultipartForm ev = FormFields fields ->
      lookup (lit "job_title") fields = Some title ->
      lookup (lit "job_description") fields = Some description ->
      BusboyHandler.parse_request parseMultipartForm ev =
      Handler.Fields (VString title) (VString description))).
Proof.
  intros multipart. subst multipart.
  unfold BusboyHandler.handler, Handler.handler,
    BusboyHandler.parse_request, Handler.parse_request.
  destruct (includes (lit "application/json") (Handler.contentType ev));
    [split; [reflexivity|discriminate]|].
  destruct (includes (lit "application/x-www-form-urlencoded")
              (Handler.contentType ev));
    [split; [reflexivity|discriminate]|].
  destruct (includes (lit "multipart/form-data") (Handler.contentType ev));
    [split; [discriminate|]|split; [reflexivity|discriminate]].
  intros _. split.
  - intros message -> ->. reflexivity.
  - intros fields title description -> Ht Hd.
    unfold Handler.string_field. rewrite Ht, Hd. reflexivity.
Qed.

Lemma busboy_revision_differs_in_multipart_witness :
  BusboyHandler.handler Scenario.busboy_fails
    Sample.third_time_lucky Sample.json_request =
    Handler.handler Sample.third_time_lucky Sample.json_request
  /\ Handler.statusCode
       (snd (BusboyHandler.handler Scenario.busboy_fails
               Sample.prose Sample.multipart_two_lines)) = 400
  /\ BusboyHandler.parse_request Scenario.busboy_reads Sample.multipart_two_lines =
     Handler.Fields (VString (lit "Senior Data Engineer"))
                    (VString Sample.two_lines).
Proof.
  destruct (busboy_revision_differs_in_multipart Scenario.busboy_fails
              Sample.third_time_lucky Sample.json_request) as [Hsame _].
  destruct (busboy_revision_differs_in_multipart Scenario.busboy_fails
              Sample.prose Sample.multipart_two_lines) as [_ Hfails].
  destruct (busboy_revision_differs_in_multipart Scenario.busboy_reads
              Sample.prose Sample.multipart_two_lines) as [_ Hreads].
  split; [apply Hsame; reflexivity|].
  split.
  - destruct (Hfails eq_refl) as [H _].
    rewrite (H (lit "Unexpected end of form") eq_refl eq_refl). reflexivity.
  - destruct (Hreads eq_refl) as [_ H].
    apply (H [(lit "job_title", lit "Senior Data Engineer");
              (lit "job_description", Sample.two_lines)]);
      reflexivity.
Defined.
